(** * DocSuite: a shallow embedding of [src/DocSuite.ts]

    The extraction facade, the four format extractors, the PDF page
    pipeline and the post-processor registry of DocSuite, written as Rocq
    functions, followed by the properties the specification states about
    them.

    Conventions of the embedding.
    - A JavaScript string is a [string]; each [ascii] stands for one code
      unit in the range 0..255, so the whitespace class and the case
      mapping below are the JavaScript ones restricted to that range.
    - An [async] function is a computation of type [Async A]: it reads and
      extends the history of external calls made so far and completes
      either normally with a value or abruptly with a thrown value.  For
      the calls the source awaits, a rejected promise and a synchronous
      throw are the same completion.  The progress callback is called
      without [await]: only its synchronous throw is an abrupt
      completion, anything it returns, a promise that later rejects
      included, is a normal one.
    - A computation may also not complete at all: the page loop of
      [extractPdf] has no last page when the page count is not an
      integer below 2^53.  Such a run is observed for a number of
      iterations and is then [Unfinished].
    - Everything DocSuite calls but does not define (the format parsers,
      Poppler, sharp, the file system, the random source, Node's [path]
      module) is a field of the environment record [Env].  A call may
      answer differently each time: it receives the history of the calls
      made before it.
    - The process-wide registry [#postProcessors] is a [gmap] from the
      extension to the stored entry, passed explicitly. *)

From Stdlib Require Import Ascii NArith ZArith Bool Lia.
From Stdlib.Strings Require Byte.
From stdpp Require Import gmap strings list fin_maps pretty.

(** ** JavaScript numbers that count pages *)

(** A JavaScript number is a double.  Every integer below 2^53 is a
    double and adding 1 to it is exact; from 2^53 on, [n + 1] rounds
    back to [n].  A page count is kept exactly as long as it is below
    2^53; [Unsafe] stands for any double of at least 2^53, [Infinity]
    included.  The source compares a count with 0, compares page numbers
    with it and hands it to the progress callback, and for none of these
    does it matter which such double it is. *)
Inductive Count :=
| Safe (n : N)
| Unsafe.

(** A number below 2^53 is written as it is where a count is expected. *)
Coercion Safe : N >-> Count.
Bind Scope N_scope with Count.

(** ** JavaScript strings *)

Module JsString.

(** [\s] of a regular expression and the characters removed by
    [String.prototype.trim], among the code units below 256: TAB, LF, VT,
    FF, CR, SPACE and NO-BREAK SPACE. *)
Definition is_space (c : ascii) : bool :=
  let n := N_of_ascii c in
  ((9 <=? n) && (n <=? 13) || (n =? 32) || (n =? 160))%N.

(** [\d] of a regular expression. *)
Definition is_digit (c : ascii) : bool :=
  let n := N_of_ascii c in ((48 <=? n) && (n <=? 57))%N.

Definition digit_value (c : ascii) : N := (N_of_ascii c - 48)%N.

Definition is_empty (s : string) : bool :=
  match s with EmptyString => true | String _ _ => false end.

Fixpoint all (f : ascii -> bool) (s : string) : bool :=
  match s with
  | EmptyString => true
  | String c r => f c && all f r
  end.

(** The longest prefix whose characters satisfy [f], and the rest. *)
Fixpoint span (f : ascii -> bool) (s : string) : string * string :=
  match s with
  | EmptyString => (EmptyString, EmptyString)
  | String c r =>
      if f c then let '(a, b) := span f r in (String c a, b)
      else (EmptyString, s)
  end.

(** [strip_prefix p s] is [Some r] when [s = p ++ r]. *)
Fixpoint strip_prefix (p s : string) : option string :=
  match p with
  | EmptyString => Some s
  | String a p' =>
      match s with
      | EmptyString => None
      | String b s' => if Ascii.eqb a b then strip_prefix p' s' else None
      end
  end.

(** [s.startsWith(p)] *)
Definition startsWith (s p : string) : bool :=
  match strip_prefix p s with Some _ => true | None => false end.

Fixpoint trimStart (s : string) : string :=
  match s with
  | EmptyString => EmptyString
  | String c r => if is_space c then trimStart r else s
  end.

Fixpoint trimEnd (s : string) : string :=
  match s with
  | EmptyString => EmptyString
  | String c r =>
      let t := trimEnd r in
      if is_space c && is_empty t then EmptyString else String c t
  end.

(** [s.trim()] *)
Definition trim (s : string) : string := trimEnd (trimStart s).

Definition lower_char (c : ascii) : ascii :=
  let n := N_of_ascii c in
  if ((65 <=? n) && (n <=? 90)
      || (192 <=? n) && (n <=? 222) && negb (n =? 215))%N
  then ascii_of_N (n + 32) else c.

(** [s.toLowerCase()] *)
Fixpoint toLowerCase (s : string) : string :=
  match s with
  | EmptyString => EmptyString
  | String c r => String (lower_char c) (toLowerCase r)
  end.

(** [s.slice(1)] *)
Definition slice1 (s : string) : string :=
  match s with EmptyString => EmptyString | String _ r => r end.

Definition newline : string := String (ascii_of_N 10) EmptyString.

(** The one-character string holding a double quote. *)
Definition dquote : string := String (ascii_of_N 34) EmptyString.

(** [parts.join(sep)] *)
Fixpoint join (sep : string) (parts : list string) : string :=
  match parts with
  | [] => EmptyString
  | [p] => p
  | p :: rest => p +:+ sep +:+ join sep rest
  end.

(** The integer a string of decimal digits spells, after [acc]. *)
Definition parseInt_from (acc : N) (s : string) : N :=
  (fix go (s : string) (acc : N) : N :=
     match s with
     | EmptyString => acc
     | String c r => go r (10 * acc + digit_value c)%N
     end) s acc.

(** [parseInt(ds)] for a non-empty string [ds] of decimal digits, which
    is all the pattern below captures.  The JavaScript result is a
    double near the integer the digits spell (the nearest one; past the
    20th significant digit an implementation may read zeros): that
    integer itself when it is below 2^53, and otherwise a double of at
    least 2^53, [Infinity] from 309 digits on. *)
Definition parseInt (s : string) : Count :=
  let n := parseInt_from 0 s in
  if (n <? 2 ^ 53)%N then Safe n else Unsafe.

(** The template literal [`${n}`] for a non-negative integer. *)
Definition of_N (n : N) : string := pretty n.

(** A truthy string is a non-empty one. *)
Definition truthy (s : string) : bool := negb (is_empty s).

End JsString.

(** ** The regular expression [/Pages:\s+(\d+)/] *)

Module PagesRegex.
Import JsString.

(** An attempt to match at the very start of [s]; the answer is the
    text captured by [(\d+)].  Both [\s+] and [\d+] are greedy and the
    two classes are disjoint, so giving back a character never turns a
    failed attempt into a match: the attempt is the longest run of
    spaces followed by the longest run of digits. *)
Definition match_here (s : string) : option string :=
  match strip_prefix "Pages:" s with
  | None => None
  | Some r =>
      let '(ws, r') := span is_space r in
      if is_empty ws then None
      else
        let '(ds, _) := span is_digit r' in
        if is_empty ds then None else Some ds
  end.

(** [info.match(/Pages:\s+(\d+)/)]: the leftmost match, or [None] for
    JavaScript's [null]. *)
Fixpoint exec (s : string) : option string :=
  match match_here s with
  | Some ds => Some ds
  | None =>
      match s with
      | EmptyString => None
      | String _ r => exec r
      end
  end.

End PagesRegex.

(** ** The data model *)

(** The non-null values of [ExtractionResult.type]. *)
Inductive ResultType := TypeText | TypeCsv | TypeImage.

(** [ExtractionResult].  [type = None] is the source's [null]; an optional
    field that is absent is [None]. *)
Record ExtractionResult := mkResult {
  type : option ResultType;
  fileName : string;
  page : N;
  contents : option string;
  error : option string;
  isFullPage : option bool
}.

(** The assignment [r.error = msg]. *)
Definition set_error (r : ExtractionResult) (msg : string) : ExtractionResult :=
  {| type := type r; fileName := fileName r; page := page r;
     contents := contents r; error := Some msg; isFullPage := isFullPage r |}.

(** The record every failure path builds:
    [{ type: null, fileName, page, error }]. *)
Definition error_result (name : string) (pg : N) (msg : string) : ExtractionResult :=
  {| type := None; fileName := name; page := pg;
     contents := None; error := Some msg; isFullPage := None |}.

Definition content_result (t : ResultType) (name : string) (pg : N) (c : string)
  : ExtractionResult :=
  {| type := Some t; fileName := name; page := pg;
     contents := Some c; error := None; isFullPage := None |}.

Definition full_page_result (name : string) (pg : N) (c : string) : ExtractionResult :=
  {| type := Some TypeImage; fileName := name; page := pg;
     contents := Some c; error := None; isFullPage := Some true |}.

(** [PdfExtractionOptions]; the source's type allows only three image
    formats, its [switch] also has a [default] arm, so the field is kept
    as a string. *)
Record PdfExtractionOptions := {
  imageFormat : option string;
  fullPageImage : option bool
}.

Definition no_pdf_options : PdfExtractionOptions :=
  {| imageFormat := None; fullPageImage := None |}.

(** A JavaScript value, as far as its truthiness matters. Numbers are the
    integer-valued ones and [NaN]. *)
Inductive JsValue :=
| VUndefined
| VNull
| VBool (b : bool)
| VNumber (n : Z)
| VNaN
| VString (s : string)
| VObject (ref : N).

Definition truthy (v : JsValue) : bool :=
  match v with
  | VUndefined | VNull | VNaN => false
  | VBool b => b
  | VNumber n => negb (n =? 0)%Z
  | VString s => JsString.truthy s
  | VObject _ => true
  end.

(** What a [throw] or a rejection carries.  The source distinguishes
    [e instanceof Error], whose [message] it reads, from everything else,
    which it either replaces by a fixed text or converts with [String(e)];
    that conversion can itself throw (for [Object.create(null)], say). *)
Inductive Thrown :=
| ErrorObject (message : string)
| OtherValue (as_string : string)
| Unprintable (raised : Thrown).

(** [e instanceof Error ? e.message : fallback] *)
Definition message_or (e : Thrown) (fallback : string) : string :=
  match e with
  | ErrorObject m => m
  | _ => fallback
  end.

Inductive Completion (A : Type) : Type :=
| Normal (value : A)
| Throw (thrown : Thrown).
Arguments Normal {A} value.
Arguments Throw {A} thrown.

(** What is seen of a computation: it has completed, or it is still
    running. *)
Inductive Outcome (A : Type) : Type :=
| Settled (c : Completion A)
| Unfinished.
Arguments Settled {A} c.
Arguments Unfinished {A}.

(** A completion stands for the outcome that has settled with it, also
    as the second component of a pair. *)
Coercion Settled : Completion >-> Outcome.
Arguments pair {A B}%_type_scope & _ _.

(** ** External calls and their history *)

(** A Node [Buffer]. *)
Abbreviation Buffer := (list Byte.byte).

(** A worksheet object is opaque to DocSuite; it is handed from
    [wb.Sheets] to [sheet_to_csv] untouched. *)
Inductive Worksheet := WorksheetRef (id : N).

Record Workbook := {
  SheetNames : list string;
  Sheets : gmap string Worksheet
}.

(** What [PptxParser.extractText] yields per slide. *)
Record Slide := {
  slide_id : string;
  slide_text : list string
}.

(** [pdfInfo] answers with text, or with an object when asked for JSON. *)
Inductive PdfInfo :=
| InfoText (report : string)
| InfoObject.

(** The output mode given to [pdfImages]. *)
Inductive ImageMode := AllFiles | PngFile | JpegFile.

Inductive Event :=
| CallMammoth (path : string)
| CallXlsxReadFile (path : string)
| CallSheetToCsv (sheet : option Worksheet)
| CallNewPptxParser (path : string)
| CallPptxExtractText (path : string)
| CallNewPoppler
| CallPdfInfo (path : string)
| CallProgress (current : N) (total : Count)
| CallMkdir (dir : string)
| CallRandomBytes (count : N)
| CallPdfToCairo (path prefix : string) (pg : N)
| CallAccess (path : string)
| CallReadFile (path : string)
| CallRm (path : string)
| CallSharp (buffer : Buffer)
| CallPdfToText (path : string) (pg : N)
| CallPdfImages (path prefix : string) (pg : N) (mode : ImageMode)
| CallReaddir (dir : string)
| ConsoleError (msg : string)
| ConsoleLog (msg : string).

(** Most recent event first. *)
Definition History := list Event.

Record Env := {
  (* Node's path module and Buffer encoding: pure *)
  path_basename : string -> string;
  path_extname : string -> string;
  path_join : string -> string -> string;
  (* path.resolve(__dirname, '..', '.tmp') *)
  localTmpRoot : string;
  base64 : Buffer -> string;
  (* the format parsers *)
  mammoth_extractRawText : History -> string -> Completion string;
  XLSX_readFile : History -> string -> Completion Workbook;
  XLSX_sheet_to_csv : History -> option Worksheet -> Completion string;
  PptxParser_new : History -> string -> Completion unit;
  PptxParser_extractText : History -> string -> Completion (list Slide);
  (* Poppler *)
  Poppler_new : History -> Completion unit;
  poppler_pdfInfo : History -> string -> Completion PdfInfo;
  poppler_pdfToCairo : History -> string -> string -> N -> Completion unit;
  poppler_pdfToText : History -> string -> N -> Completion string;
  poppler_pdfImages : History -> string -> string -> N -> ImageMode -> Completion unit;
  (* fs/promises, sharp, crypto *)
  fs_mkdir : History -> string -> Completion unit;
  fs_access : History -> string -> Completion unit;
  fs_readFile : History -> string -> Completion (Buffer);
  fs_rm : History -> string -> Completion unit;
  fs_readdir : History -> string -> Completion (list string);
  sharp_jpeg_srgb : History -> Buffer -> Completion (Buffer);
  (* randomBytes(n).toString('hex') *)
  randomBytes_hex : History -> N -> Completion string;
  (* not a call: for how many iterations a page loop that has no last
     page is observed before the run is reported as unfinished *)
  loop_horizon : nat
}.

(** ** Asynchronous computations *)

Definition Async (A : Type) : Type := History -> History * Outcome A.

Definition ret {A} (a : A) : Async A := fun h => (h, Normal a).

Definition throw {A} (e : Thrown) : Async A := fun h => (h, Throw e).

(** A computation that is still running when it is last looked at. *)
Definition unfinished {A} : Async A := fun h => (h, Unfinished).

Definition bind {A B} (m : Async A) (k : A -> Async B) : Async B :=
  fun h =>
    match m h with
    | (h', Settled (Normal a)) => k a h'
    | (h', Settled (Throw e)) => (h', Throw e)
    | (h', Unfinished) => (h', Unfinished)
    end.

(** [try { m } catch (e) { handler e }] *)
Definition try_catch {A} (m : Async A) (handler : Thrown -> Async A) : Async A :=
  fun h =>
    match m h with
    | (h', Settled (Normal a)) => (h', Normal a)
    | (h', Settled (Throw e)) => handler e h'
    | (h', Unfinished) => (h', Unfinished)
    end.

(** An awaited external call: it is recorded, and answered from the
    history before it. *)
Definition call {A} (ev : Event) (answer : History -> Completion A) : Async A :=
  fun h => (ev :: h, answer h).

(** [console.error] and [console.log]. *)
Definition console (ev : Event) : Async unit := fun h => (ev :: h, Normal tt).

Notation "x <- m ;;; k" := (bind m (fun x => k))
  (at level 100, m at next level, right associativity,
   format "'[v' x  <-  m  ;;; '/' k ']'").

(** ** The post-processor registry *)

(** The receiver ([this]) of a processor call.  [processor.call(ctx, results)]
    gives [ThisContext ctx]; the plain member call
    [config.processor(results)] has the stored entry [config] itself as
    receiver, and no registered context. *)
Inductive ThisArg :=
| ThisContext (ctx : JsValue)
| ThisConfig.

(** One position of the array a processor was given, as the processor
    left it.  The array holds references to objects: [identity] tells
    the objects apart, so that one object left at two positions shows
    the same [identity], and the same [fields], at both.  The objects of
    the array as it is handed over are numbered by their position, from
    0; an object the processor creates has another number.
    [error_write] is what the assignment [element.error = msg] does:
    [None], it stores the message; [Some t], it raises [t] and stores
    nothing, as in strict mode does a frozen object or one whose [error]
    is read-only (a [TypeError]), an accessor that throws, and an element
    that is no object at all ([null], [undefined], a primitive).  Of the
    elements that are no objects only one in first position is covered:
    there the assignment raises before anything is returned, and its
    [fields] are never read. *)
Record Element := {
  identity : N;
  fields : ExtractionResult;
  error_write : option Thrown
}.

(** The array of the records [results] as [#applyPostProcessor] hands it
    over, from position [next] on: one ordinary object per record. *)
Fixpoint handed_over_from (next : N) (results : list ExtractionResult) : list Element :=
  match results with
  | [] => []
  | r :: rest =>
      {| identity := next; fields := r; error_write := None |}
      :: handed_over_from (next + 1) rest
  end.

Definition handed_over (results : list ExtractionResult) : list Element :=
  handed_over_from 0 results.

(** One call of a processor.  The processor receives the very array
    [results], not a copy, so besides completing it may have changed that
    array and the objects in it: [argument_after] is the array as the
    call left it. *)
Record Invocation := {
  argument_after : list Element;
  completion : Completion (list ExtractionResult)
}.

Definition PostProcessor : Type :=
  ThisArg -> list ExtractionResult -> History -> Invocation.

(** [PostProcessorInput]: a function, or [{ handler, context? }]. *)
Inductive PostProcessorInput :=
| InputFunction (f : PostProcessor)
| InputObject (handler : PostProcessor) (ctx : option JsValue).

(** [PostProcessorContext], the stored entry; a missing [context] reads as
    [undefined]. *)
Record PostProcessorContext := {
  processor : PostProcessor;
  context : JsValue
}.

Abbreviation Registry := (gmap string PostProcessorContext).

Definition hash_setPostProcessor (extension : string) (input : PostProcessorInput)
    (reg : Registry) : Registry :=
  match input with
  | InputFunction f =>
      <[extension := {| processor := f; context := VUndefined |}]> reg
  | InputObject handler ctx =>
      <[extension := {| processor := handler; context := default VUndefined ctx |}]> reg
  end.

Definition setDocxPostProcessor (input : PostProcessorInput) (reg : Registry) : Registry :=
  hash_setPostProcessor ".docx" input reg.

Definition setXlsxPostProcessor (input : PostProcessorInput) (reg : Registry) : Registry :=
  hash_setPostProcessor ".xls" input (hash_setPostProcessor ".xlsx" input reg).

Definition setPptxPostProcessor (input : PostProcessorInput) (reg : Registry) : Registry :=
  hash_setPostProcessor ".pptx" input reg.

Definition setPdfPostProcessor (input : PostProcessorInput) (reg : Registry) : Registry :=
  hash_setPostProcessor ".pdf" input reg.

(** [extension.startsWith('.') ? extension : `.${extension}`] *)
Definition with_leading_dot (extension : string) : string :=
  if JsString.startsWith extension "." then extension else "." +:+ extension.

Definition setPostProcessor (extension : string) (input : PostProcessorInput)
    (reg : Registry) : Registry :=
  let ext := with_leading_dot extension in
  hash_setPostProcessor (JsString.toLowerCase ext) input reg.

Definition clearPostProcessor (extension : string) (reg : Registry) : Registry :=
  let ext := with_leading_dot extension in
  delete (JsString.toLowerCase ext) reg.

Definition clearAllPostProcessors (reg : Registry) : Registry := ∅.

(** [error instanceof Error ? error.message : String(error)] *)
Definition failure_text (e : Thrown) : Async string :=
  match e with
  | ErrorObject m => ret m
  | OtherValue s => ret s
  | Unprintable raised => throw raised
  end.

(** The effect of [target.error = msg] on the array: the object
    [target] is changed, so every position that holds it shows the
    message. *)
Definition assign_error (target : N) (msg : string) (elements : list Element)
  : list Element :=
  map (fun el =>
         if (identity el =? target)%N
         then {| identity := identity el; fields := set_error (fields el) msg;
                 error_write := error_write el |}
         else el)
    elements.

(** The [catch] block of [#applyPostProcessor]; [results] is the array
    that was handed to the processor, in its present state.  In
    [results[0].error = `Post-processor error: ${...}`] the right-hand
    side is evaluated first, then the assignment is made; either can
    throw, and nothing catches it. *)
Definition post_processor_failed (ext : string) (e : Thrown)
    (results : list Element) : Async (list ExtractionResult) :=
  _ <- console (ConsoleError ("Post-processor for " +:+ ext +:+ " failed:")) ;;;
  match results with
  | [] => ret []
  | first :: _ =>
      msg <- failure_text e ;;;
      match error_write first with
      | Some raised => throw raised
      | None =>
          ret (map fields
                 (assign_error (identity first) ("Post-processor error: " +:+ msg)
                    results))
      end
  end.

(** What [#applyPostProcessor] does with a finished processor call. *)
Definition settle (ext : string) (run : Invocation) : Async (list ExtractionResult) :=
  match completion run with
  | Normal processed => ret processed
  | Throw e => post_processor_failed ext e (argument_after run)
  end.

(** [config.context ? config.processor.call(config.context, results)
                    : config.processor(results)] *)
Definition invoke (config : PostProcessorContext) (results : list ExtractionResult)
    (h : History) : Invocation :=
  if truthy (context config)
  then processor config (ThisContext (context config)) results h
  else processor config ThisConfig results h.

Definition hash_applyPostProcessor (reg : Registry) (ext : string)
    (results : list ExtractionResult) : Async (list ExtractionResult) :=
  match reg !! ext with
  | None => ret results
  | Some config => fun h => settle ext (invoke config results h) h
  end.

(** ** The format extractors *)

Definition hash_ext (env : Env) (p : string) : string :=
  JsString.toLowerCase (path_extname env p).

Definition extractDocx (env : Env) (filePath : string) : Async (list ExtractionResult) :=
  let fileName := path_basename env filePath in
  try_catch
    (value <- call (CallMammoth filePath)
                (fun h => mammoth_extractRawText env h filePath) ;;;
     ret [content_result TypeText fileName 1 (JsString.trim value)])
    (fun e =>
       ret [error_result fileName 1
              (message_or e "An unknown error occurred while parsing the .docx file.")]).

(** [wb.SheetNames.map((name, index) => ...)], from position [index] on. *)
Fixpoint sheets_to_results (env : Env) (fileName : string) (wb : Workbook)
    (names : list string) (index : N) : Async (list ExtractionResult) :=
  match names with
  | [] => ret []
  | name :: rest =>
      csv <- call (CallSheetToCsv (Sheets wb !! name))
               (fun h => XLSX_sheet_to_csv env h (Sheets wb !! name)) ;;;
      more <- sheets_to_results env fileName wb rest (index + 1) ;;;
      ret (content_result TypeCsv fileName (index + 1) csv :: more)
  end.

Definition extractXlsx (env : Env) (filePath : string) : Async (list ExtractionResult) :=
  let fileName := path_basename env filePath in
  try_catch
    (wb <- call (CallXlsxReadFile filePath)
             (fun h => XLSX_readFile env h filePath) ;;;
     sheets_to_results env fileName wb (SheetNames wb) 0)
    (fun e =>
       ret [error_result fileName 1
              (message_or e "An unknown error occurred while parsing the .xlsx file.")]).

Definition extractPptx (env : Env) (filePath : string) : Async (list ExtractionResult) :=
  let fileName := path_basename env filePath in
  try_catch
    (_ <- call (CallNewPptxParser filePath)
            (fun h => PptxParser_new env h filePath) ;;;
     slides <- call (CallPptxExtractText filePath)
                 (fun h => PptxParser_extractText env h filePath) ;;;
     ret (imap (fun index slide =>
                  content_result TypeText fileName (N.of_nat index + 1)
                    (JsString.join JsString.newline (slide_text slide)))
            slides))
    (fun e =>
       ret [error_result fileName 1
              (message_or e "An unknown error occurred while parsing the .pptx file.")]).

(** ** The PDF extractor *)

(** The event handed to [progressCallback]:
    [{ type, data: { currentPage, totalPages } }]. *)
Record ProgressEvent := {
  event_type : string;
  currentPage : N;
  totalPages : Count
}.

Definition ProgressCallback : Type := ProgressEvent -> History -> Completion unit.

(** The MIME type chosen from an extracted image's extension. *)
Definition mime_type (imageExtension : string) : string :=
  if String.eqb imageExtension "png" then "image/png"
  else if String.eqb imageExtension "jpg" || String.eqb imageExtension "jpeg"
  then "image/jpeg"
  else if String.eqb imageExtension "tif" || String.eqb imageExtension "tiff"
  then "image/tiff"
  else if String.eqb imageExtension "jp2" then "image/jp2"
  else "image/jpeg".

(** The [switch (imageFormat)] that fills [imageOptions]. *)
Definition image_mode (imageFormat : string) : ImageMode :=
  if String.eqb imageFormat "native" then AllFiles
  else if String.eqb imageFormat "png" then PngFile
  else JpegFile.

Section Page.
Variable env : Env.
Variables filePath fileName imageFormat : string.
Variable pageNum : N.

Definition cairo_error_message : string :=
  "pdfToCairo failed for page " +:+ JsString.of_N pageNum
  +:+ ". The PDF may be incompatible or the environment may have an issue with the Poppler binary.".

(** The body of the [try] of the full-page stage. *)
Definition render_full_page (outputPrefix : string)
    (pageResults : list ExtractionResult) : Async (list ExtractionResult) :=
  _ <- call (CallPdfToCairo filePath outputPrefix pageNum)
         (fun h => poppler_pdfToCairo env h filePath outputPrefix pageNum) ;;;
  let jpegPath := outputPrefix +:+ ".jpg" in
  _ <- try_catch
         (call (CallAccess jpegPath) (fun h => fs_access env h jpegPath))
         (fun _ => throw (ErrorObject "pdftocairo failed to create output file.")) ;;;
  imageBuffer <- call (CallReadFile jpegPath) (fun h => fs_readFile env h jpegPath) ;;;
  _ <- call (CallRm jpegPath) (fun h => fs_rm env h jpegPath) ;;;
  if (0 <? length imageBuffer)%nat then
    reEncodedBuffer <- call (CallSharp imageBuffer)
                         (fun h => sharp_jpeg_srgb env h imageBuffer) ;;;
    let base64Image := base64 env reEncodedBuffer in
    ret (pageResults
           ++ [full_page_result fileName pageNum
                 ("data:image/jpeg;base64," +:+ base64Image)])
  else ret pageResults.

(** The block guarded by [if (fullPageImage)]. *)
Definition full_page_stage (pageResults : list ExtractionResult)
  : Async (list ExtractionResult) :=
  _ <- call (CallMkdir (localTmpRoot env)) (fun h => fs_mkdir env h (localTmpRoot env)) ;;;
  hex <- call (CallRandomBytes 8) (fun h => randomBytes_hex env h 8) ;;;
  let outputPrefix :=
    path_join env (localTmpRoot env)
      ("cairo-output-" +:+ hex +:+ "-p" +:+ JsString.of_N pageNum) in
  try_catch
    (render_full_page outputPrefix pageResults)
    (fun cairoError =>
       _ <- console (ConsoleError cairo_error_message) ;;;
       ret (pageResults ++ [error_result fileName pageNum cairo_error_message])).

(** [for (const imageFile of imageFiles) { ... }] *)
Fixpoint collect_images (imageFiles : list string)
    (pageResults : list ExtractionResult) : Async (list ExtractionResult) :=
  match imageFiles with
  | [] => ret pageResults
  | imageFile :: rest =>
      let imagePath := path_join env (localTmpRoot env) imageFile in
      imageBuffer <- call (CallReadFile imagePath)
                       (fun h => fs_readFile env h imagePath) ;;;
      _ <- call (CallRm imagePath) (fun h => fs_rm env h imagePath) ;;;
      if (length imageBuffer =? 0)%nat then
        _ <- console (ConsoleLog ("Skipping empty image file extracted from PDF: "
                                  +:+ imageFile)) ;;;
        collect_images rest pageResults
      else
        let base64Image := base64 env imageBuffer in
        let imageExtension :=
          JsString.toLowerCase (JsString.slice1 (path_extname env imageFile)) in
        collect_images rest
          (pageResults
             ++ [content_result TypeImage fileName pageNum
                   ("data:" +:+ mime_type imageExtension +:+ ";base64," +:+ base64Image)])
  end.

(** The body of the page-level [try], up to and including step 3; its
    value is the page's accumulator [pageResults] as it stands just
    before [results.push(...pageResults)].  [pageResults] is what the
    full-page stage left in the accumulator. *)
Definition text_and_images (pageResults : list ExtractionResult)
  : Async (list ExtractionResult) :=
  text <- call (CallPdfToText filePath pageNum)
            (fun h => poppler_pdfToText env h filePath pageNum) ;;;
  let pageResults :=
    if JsString.is_empty (JsString.trim text) then pageResults
    else pageResults ++ [content_result TypeText fileName pageNum (JsString.trim text)] in
  _ <- call (CallMkdir (localTmpRoot env)) (fun h => fs_mkdir env h (localTmpRoot env)) ;;;
  hex <- call (CallRandomBytes 8) (fun h => randomBytes_hex env h 8) ;;;
  let imagePrefix :=
    path_join env (localTmpRoot env)
      ("pdf-images-" +:+ hex +:+ "-p" +:+ JsString.of_N pageNum) in
  _ <- call (CallPdfImages filePath imagePrefix pageNum (image_mode imageFormat))
         (fun h => poppler_pdfImages env h filePath imagePrefix pageNum
                     (image_mode imageFormat)) ;;;
  files <- call (CallReaddir (localTmpRoot env))
             (fun h => fs_readdir env h (localTmpRoot env)) ;;;
  let imageFiles :=
    List.filter (fun f => JsString.startsWith f (path_basename env imagePrefix)) files in
  pageResults <- collect_images imageFiles pageResults ;;;
  match pageResults with
  | [] => ret [content_result TypeText fileName pageNum ""]
  | _ :: _ => ret pageResults
  end.

(** The [catch (pageError)] of the page. *)
Definition page_error_result (pageError : Thrown) : ExtractionResult :=
  error_result fileName pageNum
    (message_or pageError ("Error processing page " +:+ JsString.of_N pageNum)).

(** [if (progressCallback) { progressCallback({ ... }) }]; the call is
    not awaited. *)
Definition report_progress (progressCallback : option ProgressCallback)
    (pageCount : Count) : Async unit :=
  match progressCallback with
  | Some cb =>
      call (CallProgress pageNum pageCount)
        (cb {| event_type := "embedding_page";
               currentPage := pageNum; totalPages := pageCount |})
  | None => ret tt
  end.

(** The page-level [try { ...; results.push(...pageResults) }
    catch (pageError) { results.push({ ... }) }]. *)
Definition page_try (pageResults results : list ExtractionResult)
  : Async (list ExtractionResult) :=
  try_catch
    (pageResults <- text_and_images pageResults ;;;
     ret (results ++ pageResults))
    (fun pageError => ret (results ++ [page_error_result pageError])).

(** One iteration of the page loop; [results] is the document's
    accumulator. *)
Definition process_page (fullPageImage : bool)
    (progressCallback : option ProgressCallback) (pageCount : Count)
    (results : list ExtractionResult) : Async (list ExtractionResult) :=
  _ <- report_progress progressCallback pageCount ;;;
  pageResults <- (if fullPageImage then full_page_stage [] else ret []) ;;;
  page_try pageResults results.

End Page.

(** [for (let pageNum = 1; pageNum <= pageCount; pageNum++)] for a count
    below 2^53, as the list of the page numbers it visits. *)
Definition page_numbers (pageCount : N) : list N :=
  map N.of_nat (seq 1 (N.to_nat pageCount)).

(** The same loop for a count of at least 2^53, through its first
    [iterations] iterations: [pageNum] counts up to 2^53 and then stays
    there, since [2^53 + 1] rounds to [2^53], and the test
    [pageNum <= pageCount] never fails. *)
Definition endless_page_numbers (iterations : nat) : list N :=
  map (fun i => N.min (N.of_nat i) (2 ^ 53)) (seq 1 iterations).

(** The iterations of the loop over the page numbers [pages]; a throw
    that leaves an iteration leaves the loop. *)
Fixpoint pages_loop (env : Env) (filePath fileName imageFormat : string)
    (fullPageImage : bool) (progressCallback : option ProgressCallback)
    (pageCount : Count) (pages : list N) (results : list ExtractionResult)
  : Async (list ExtractionResult) :=
  match pages with
  | [] => ret results
  | pageNum :: rest =>
      results <- process_page env filePath fileName imageFormat pageNum
                   fullPageImage progressCallback pageCount results ;;;
      pages_loop env filePath fileName imageFormat fullPageImage progressCallback
        pageCount rest results
  end.

(** [pageCountMatch ? parseInt(pageCountMatch[1]) : 0] *)
Definition page_count (info : PdfInfo) : Count :=
  let pageCountMatch :=
    match info with
    | InfoText report => PagesRegex.exec report
    | InfoObject => None
    end in
  match pageCountMatch with
  | Some digits => JsString.parseInt digits
  | None => Safe 0
  end.

Definition extractPdf (env : Env) (filePath : string)
    (options : option PdfExtractionOptions)
    (progressCallback : option ProgressCallback) : Async (list ExtractionResult) :=
  let options := default no_pdf_options options in
  let imageFormat := default "native" (imageFormat options) in
  let fullPageImage := default false (fullPageImage options) in
  let fileName := path_basename env filePath in
  _ <- call CallNewPoppler (Poppler_new env) ;;;
  try_catch
    (info <- call (CallPdfInfo filePath) (fun h => poppler_pdfInfo env h filePath) ;;;
     match page_count info with
     | Safe pageCount =>
         if (pageCount =? 0)%N then
           ret [error_result fileName 1 "Unable to determine PDF page count"]
         else
           pages_loop env filePath fileName imageFormat fullPageImage progressCallback
             (Safe pageCount) (page_numbers pageCount) []
     | Unsafe =>
         _ <- pages_loop env filePath fileName imageFormat fullPageImage
                progressCallback Unsafe (endless_page_numbers (loop_horizon env)) [] ;;;
         unfinished
     end)
    (fun e =>
       ret [error_result fileName 1
              (message_or e "An unknown error occurred while parsing the .pdf file.")]).

(** ** The facade *)

Record ExtractionOptions := {
  extension : option string;
  pdf : option PdfExtractionOptions;
  progressCallback : option ProgressCallback
}.

(** [options?.extension ? options.extension.toLowerCase() : DocSuite.#ext(filePath)] *)
Definition resolved_extension (env : Env) (filePath : string)
    (options : option ExtractionOptions) : string :=
  match options ≫= extension with
  | Some e =>
      if JsString.truthy e then JsString.toLowerCase e else hash_ext env filePath
  | None => hash_ext env filePath
  end.

Definition unsupported_result (env : Env) (filePath ext : string) : ExtractionResult :=
  error_result (path_basename env filePath) 1
    ("DocSuite: unsupported extension " +:+ JsString.dquote +:+ ext +:+ JsString.dquote).

(** The [switch (ext)] of [extract]. *)
Definition dispatch (env : Env) (ext filePath : string)
    (options : option ExtractionOptions) : Async (list ExtractionResult) :=
  if String.eqb ext ".docx" then extractDocx env filePath
  else if String.eqb ext ".xlsx" || String.eqb ext ".xls" then extractXlsx env filePath
  else if String.eqb ext ".pptx" then extractPptx env filePath
  else if String.eqb ext ".pdf"
  then extractPdf env filePath (options ≫= pdf) (options ≫= progressCallback)
  else ret [unsupported_result env filePath ext].

Definition extract (env : Env) (reg : Registry) (filePath : string)
    (options : option ExtractionOptions) : Async (list ExtractionResult) :=
  let ext := resolved_extension env filePath options in
  results <- dispatch env ext filePath options ;;;
  hash_applyPostProcessor reg ext results.

(** ** A concrete environment for the examples *)

Module Sample.

Fixpoint has_slash (p : string) : bool :=
  match p with
  | EmptyString => false
  | String c r => Ascii.eqb c "/" || has_slash r
  end.

(** Stand-ins for Node's [path.basename] and [path.extname]; they agree
    with Node's on ordinary file names such as ["docs/report.PDF"]. *)
Fixpoint basename (p : string) : string :=
  match p with
  | EmptyString => EmptyString
  | String c r =>
      if has_slash r then basename r
      else if Ascii.eqb c "/" then r else p
  end.

Fixpoint from_last_dot (s : string) : option string :=
  match s with
  | EmptyString => None
  | String c r =>
      match from_last_dot r with
      | Some t => Some t
      | None => if Ascii.eqb c "." then Some s else None
      end
  end.

Definition extname (p : string) : string :=
  match basename p with
  | EmptyString => EmptyString
  | String _ r => default EmptyString (from_last_dot r)
  end.

(** A scenario fixes which external calls fail and what the others
    answer. *)
Record Scenario := {
  refuses : Event -> option Thrown;
  docx_text : string;
  workbook : Workbook;
  csv_of : option Worksheet -> string;
  slides : list Slide;
  pdf_info : PdfInfo;
  page_text : N -> string;
  file_bytes : string -> Buffer;
  directory : list string
}.

Definition answer {A} (sc : Scenario) (ev : Event) (a : A) : Completion A :=
  match refuses sc ev with
  | Some e => Throw e
  | None => Normal a
  end.

(** The environment of a scenario.  Its [base64] is a stand-in (the bytes
    as they are); no example looks inside an encoded image. *)
Definition env_of (sc : Scenario) : Env := {|
  path_basename := basename;
  path_extname := extname;
  path_join := fun a b => a +:+ "/" +:+ b;
  localTmpRoot := "/app/.tmp";
  base64 := fun bytes => String.string_of_list_byte bytes;
  mammoth_extractRawText := fun _ p => answer sc (CallMammoth p) (docx_text sc);
  XLSX_readFile := fun _ p => answer sc (CallXlsxReadFile p) (workbook sc);
  XLSX_sheet_to_csv := fun _ s => answer sc (CallSheetToCsv s) (csv_of sc s);
  PptxParser_new := fun _ p => answer sc (CallNewPptxParser p) tt;
  PptxParser_extractText := fun _ p => answer sc (CallPptxExtractText p) (slides sc);
  Poppler_new := fun _ => answer sc CallNewPoppler tt;
  poppler_pdfInfo := fun _ p => answer sc (CallPdfInfo p) (pdf_info sc);
  poppler_pdfToCairo := fun _ p o n => answer sc (CallPdfToCairo p o n) tt;
  poppler_pdfToText := fun _ p n => answer sc (CallPdfToText p n) (page_text sc n);
  poppler_pdfImages := fun _ p o n m => answer sc (CallPdfImages p o n m) tt;
  fs_mkdir := fun _ d => answer sc (CallMkdir d) tt;
  fs_access := fun _ p => answer sc (CallAccess p) tt;
  fs_readFile := fun _ p => answer sc (CallReadFile p) (file_bytes sc p);
  fs_rm := fun _ p => answer sc (CallRm p) tt;
  fs_readdir := fun _ d => answer sc (CallReaddir d) (directory sc);
  sharp_jpeg_srgb := fun _ b => answer sc (CallSharp b) b;
  randomBytes_hex := fun _ n => answer sc (CallRandomBytes n) "00112233aabbccdd";
  loop_horizon := 3
|}.

(** Every call succeeds; a one-sheet workbook, a two-slide deck, a
    one-page PDF with text and no images. *)
Definition calm : Scenario := {|
  refuses := fun _ => None;
  docx_text := "  Hello  ";
  workbook := {| SheetNames := ["Sheet1"];
                 Sheets := {[ "Sheet1" := WorksheetRef 1 ]} |};
  csv_of := fun _ => "a,b";
  slides := [ {| slide_id := "s1"; slide_text := ["Title"; "Body"] |};
              {| slide_id := "s2"; slide_text := [] |} ];
  pdf_info := InfoText "Title: x
Pages:          1
Encrypted: no";
  page_text := fun _ => "page text";
  file_bytes := fun _ => [Byte.x41];
  directory := []
|}.

(** [sc], except that the calls [fails] names now fail. *)
Definition failing (fails : Event -> option Thrown) (sc : Scenario) : Scenario := {|
  refuses := fails;
  docx_text := docx_text sc; workbook := workbook sc; csv_of := csv_of sc;
  slides := slides sc; pdf_info := pdf_info sc; page_text := page_text sc;
  file_bytes := file_bytes sc; directory := directory sc
|}.

End Sample.

(** ** Notions used to state the properties *)

(** The entry [#setPostProcessor] stores for an input. *)
Definition stored_entry (input : PostProcessorInput) : PostProcessorContext :=
  match input with
  | InputFunction f => {| processor := f; context := VUndefined |}
  | InputObject handler ctx => {| processor := handler; context := default VUndefined ctx |}
  end.

(** The text a thrown value contributes to a message, when it has one:
    the [message] of an [Error], [String(v)] of another value. *)
Definition printable (e : Thrown) : option string :=
  match e with
  | ErrorObject m => Some m
  | OtherValue s => Some s
  | Unprintable _ => None
  end.

(** [results] with the [error] of its first record, if any, set. *)
Definition flag_first (msg : string) (results : list ExtractionResult)
  : list ExtractionResult :=
  match results with
  | [] => []
  | first :: rest => set_error first msg :: rest
  end.

Module Processors.

Definition tagged (tag : string) : ExtractionResult :=
  content_result TypeText "seen" 1 tag.

(** A handler that reports the receiver it was called with, like a
    method reading [this]. *)
Definition report_receiver : PostProcessor :=
  fun this results _ =>
    {| argument_after := handed_over results;
       completion :=
         Normal [match this with
                 | ThisContext _ => tagged "called on the registered context"
                 | ThisConfig => tagged "called on the registry entry"
                 end] |}.

Definition redact (r : ExtractionResult) : ExtractionResult :=
  {| type := type r; fileName := fileName r; page := page r;
     contents := Some "REDACTED"; error := error r; isFullPage := isFullPage r |}.

(** [results => { results.forEach(r => { r.contents = 'REDACTED' });
                  throw new Error('boom') }] *)
Definition redact_in_place_then_throw : PostProcessor :=
  fun _ results _ =>
    {| argument_after := handed_over (map redact results);
       completion := Throw (ErrorObject "boom") |}.

(** [() => { throw new Error('Something went wrong in the processor') }],
    the processor of the repository's test script. *)
Definition errorProcessor : PostProcessor :=
  fun _ results _ =>
    {| argument_after := handed_over results;
       completion := Throw (ErrorObject "Something went wrong in the processor") |}.

(** [results => { results.push(extra); throw new Error('late') }] *)
Definition push_then_throw (extra : ExtractionResult) : PostProcessor :=
  fun _ results _ =>
    {| argument_after :=
         handed_over results
         ++ [ {| identity := N.of_nat (length results); fields := extra;
                 error_write := None |} ];
       completion := Throw (ErrorObject "late") |}.

(** [() => []] *)
Definition drop_everything : PostProcessor :=
  fun _ results _ => {| argument_after := handed_over results; completion := Normal [] |}.

(** [() => { throw Object.create(null) }]: the thrown value has no
    [toString], so [String(error)] raises a [TypeError]. *)
Definition throw_bare_object : PostProcessor :=
  fun _ results _ =>
    {| argument_after := handed_over results;
       completion :=
         Throw (Unprintable (ErrorObject "Cannot convert object to primitive value")) |}.

(** [results => { Object.freeze(results[0]); throw new Error('boom') }];
    the [TypeError] carries V8's wording. *)
Definition freeze_first_then_throw : PostProcessor :=
  fun _ results _ =>
    {| argument_after :=
         match handed_over results with
         | [] => []
         | first :: rest =>
             {| identity := identity first; fields := fields first;
                error_write :=
                  Some (ErrorObject "Cannot add property error, object is not extensible") |}
             :: rest
         end;
       completion := Throw (ErrorObject "boom") |}.

(** [results => { results[1] = results[0]; throw new Error('boom') }] *)
Definition alias_first_then_throw : PostProcessor :=
  fun _ results _ =>
    {| argument_after :=
         match handed_over results with
         | first :: _ :: rest => first :: first :: rest
         | short => short
         end;
       completion := Throw (ErrorObject "boom") |}.

Definition two_pages : list ExtractionResult :=
  [content_result TypeText "a.docx" 1 "first"; content_result TypeText "a.docx" 2 "second"].

End Processors.


(** The match of the pattern that starts right after [before]: [Pages:],
    then all the whitespace [ws] that follows, at least one character
    (a line feed is one), then all the digits [ds] that follow, at least
    one. *)
Definition pages_match (report before ws ds after : string) : Prop :=
  report = before +:+ "Pages:" +:+ ws +:+ ds +:+ after
  ∧ ws ≠ "" ∧ JsString.all JsString.is_space ws = true
  ∧ ds ≠ "" ∧ JsString.all JsString.is_digit ds = true
  ∧ match after with
    | EmptyString => True
    | String c _ => JsString.is_digit c = false
    end.

(** [ds] is the run of digits of the first match in [report]: no match
    starts further left. *)
Definition first_pages_match (report ds : string) : Prop :=
  ∃ before ws after : string,
    pages_match report before ws ds after
    ∧ ∀ before' ws' ds' after' : string,
        pages_match report before' ws' ds' after' →
        String.length before ≤ String.length before'.

(** The provisos under which [extractPdf] is known to return: the
    wrapper is built, and the page count is below 2^53. *)
Definition pdf_returns (env : Env) (filePath : string) (h : History) : Prop :=
  Poppler_new env h = Normal tt
  ∧ ∀ info, poppler_pdfInfo env (CallNewPoppler :: h) filePath = Normal info →
            page_count info ≠ Unsafe.



(** The claim's words for the page-count line, as distinct from the
    pattern of the code: a line that holds the literal [Pages:], then
    whitespace in any amount (none included), then the integer [ds]. *)
Definition claimed_pages_line (line ds : string) : Prop :=
  ∃ before ws after : string,
    line = before +:+ "Pages:" +:+ ws +:+ ds +:+ after
    ∧ JsString.all JsString.is_space ws = true
    ∧ ds ≠ "" ∧ JsString.all JsString.is_digit ds = true.


(** A computation that only ever adds events to the history. *)
Definition grows {A} (m : Async A) : Prop :=
  ∀ h, h `suffix_of` fst (m h).

(** A computation whose history always shows the event [ev] on top of
    the history it started from. *)
Definition records {A} (ev : Event) (m : Async A) : Prop :=
  ∀ h, (ev :: h) `suffix_of` fst (m h).

(** A computation that always completes normally. *)
Definition never_throws {A} (m : Async A) : Prop :=
  ∀ h, ∃ h' a, m h = (h', Normal a).

(** A computation that always completes, normally or not. *)
Definition settles {A} (m : Async A) : Prop :=
  ∀ h, ∃ h' c, m h = (h', Settled c).

Module Scenarios.
Import Sample.

Definition with_file_bytes (bytes : string → Buffer) (sc : Scenario) : Scenario := {|
  refuses := refuses sc;
  docx_text := docx_text sc; workbook := workbook sc; csv_of := csv_of sc;
  slides := slides sc; pdf_info := pdf_info sc; page_text := page_text sc;
  file_bytes := bytes; directory := directory sc
|}.

Definition with_workbook (wb : Workbook) (sc : Scenario) : Scenario := {|
  refuses := refuses sc;
  docx_text := docx_text sc; workbook := wb; csv_of := csv_of sc;
  slides := slides sc; pdf_info := pdf_info sc; page_text := page_text sc;
  file_bytes := file_bytes sc; directory := directory sc
|}.


Definition with_pdf_info (info : PdfInfo) (sc : Scenario) : Scenario := {|
  refuses := refuses sc;
  docx_text := docx_text sc; workbook := workbook sc; csv_of := csv_of sc;
  slides := slides sc; pdf_info := info; page_text := page_text sc;
  file_bytes := file_bytes sc; directory := directory sc
|}.

(** [pdftocairo] cannot be run, and the page's content stream is broken. *)
Definition no_cairo_no_text (ev : Event) : option Thrown :=
  match ev with
  | CallPdfToCairo _ _ _ => Some (ErrorObject "spawn pdftocairo ENOENT")
  | CallPdfToText _ _ => Some (ErrorObject "Syntax Error: bad content stream")
  | _ => None
  end.

(** [pdftocairo] ends without an error and without an output file. *)
Definition missing_jpeg (ev : Event) : option Thrown :=
  match ev with
  | CallAccess _ => Some (ErrorObject "ENOENT: no such file or directory")
  | _ => None
  end.

(** The Poppler binaries are not installed: the constructor of the
    Poppler wrapper throws. *)
Definition no_poppler (ev : Event) : option Thrown :=
  match ev with
  | CallNewPoppler =>
      Some (ErrorObject "Unable to find linux Poppler binaries, please pass the installation directory as a parameter to the Poppler instance.")
  | _ => None
  end.

(** Every parser rejects the file. *)
Definition corrupt (ev : Event) : option Thrown :=
  match ev with
  | CallMammoth _ => Some (ErrorObject "Can't find end of central directory")
  | CallXlsxReadFile _ => Some (OtherValue "bad zip")
  | CallNewPptxParser _ => Some (ErrorObject "not a pptx file")
  | CallPdfInfo _ => Some (ErrorObject "Syntax Warning: May not be a PDF file")
  | _ => None
  end.

Definition full_page : option PdfExtractionOptions :=
  Some {| imageFormat := None; fullPageImage := Some true |}.

End Scenarios.

(** ** Notions used to state further properties *)

(** The key under which [setPostProcessor] and [clearPostProcessor] file
    an extension: a leading dot added if missing, then lowercased. *)
Definition registry_key (extension : string) : string :=
  JsString.toLowerCase (with_leading_dot extension).

(** Every key present is its own canonical form: it starts with a dot and
    has no upper-case letter. *)
Definition canonical_keys (reg : Registry) : Prop :=
  ∀ k : string, is_Some (reg !! k) → registry_key k = k.

(** The registries a program can build: [#postProcessors] starts empty and
    is written only through the public setters and clearers. *)
Inductive reachable : Registry → Prop :=
| reach_empty : reachable ∅
| reach_setDocx input reg : reachable reg → reachable (setDocxPostProcessor input reg)
| reach_setXlsx input reg : reachable reg → reachable (setXlsxPostProcessor input reg)
| reach_setPptx input reg : reachable reg → reachable (setPptxPostProcessor input reg)
| reach_setPdf input reg : reachable reg → reachable (setPdfPostProcessor input reg)
| reach_set extension input reg :
    reachable reg → reachable (setPostProcessor extension input reg)
| reach_clear extension reg : reachable reg → reachable (clearPostProcessor extension reg)
| reach_clearAll reg : reachable reg → reachable (clearAllPostProcessors reg).

(** The serialisation calls [extractXlsx] makes for the sheets [names], in
    the order it makes them. *)
Definition sheet_calls (wb : Workbook) (names : list string) : list Event :=
  map (fun name => CallSheetToCsv (Sheets wb !! name)) names.

(** A record is either an error record (no type, no contents, an error)
    or a content record (a type, contents, no error); only an image can
    be flagged as a full-page render. *)
Definition well_formed (r : ExtractionResult) : bool :=
  match type r, contents r, error r, isFullPage r with
  | None, None, Some _, None => true
  | Some _, Some _, None, None => true
  | Some TypeImage, Some _, None, Some true => true
  | _, _, _, _ => false
  end.

(** A well-formed record of page [pg] of the file named [name]. *)
Definition page_record (name : string) (pg : N) (r : ExtractionResult) : Prop :=
  fileName r = name ∧ page r = pg ∧ well_formed r = true.

(** The MIME types the embedded-image stage can announce. *)
Definition image_mime_types : list string :=
  ["image/png"; "image/jpeg"; "image/tiff"; "image/jp2"].

(** A record of an embedded image: a data URI with one of those types,
    never flagged as a full-page render. *)
Definition embedded_image (name : string) (pg : N) (r : ExtractionResult) : Prop :=
  ∃ mime payload : string,
    mime ∈ image_mime_types
    ∧ r = content_result TypeImage name pg ("data:" +:+ mime +:+ ";base64," +:+ payload).

(** What the full-page stage can leave in the page's accumulator: nothing
    (a zero-byte image), its error record, or one full-page JPEG. *)
Definition rendered_page (name : string) (pg : N) (rendered : list ExtractionResult) : Prop :=
  rendered = []
  ∨ rendered = [error_result name pg (cairo_error_message pg)]
  ∨ ∃ payload : string,
      rendered = [full_page_result name pg ("data:image/jpeg;base64," +:+ payload)].

(** The text record of a page, present when the trimmed text is not
    empty. *)
Definition text_record (name : string) (pg : N) (text : string) : list ExtractionResult :=
  if JsString.is_empty (JsString.trim text) then []
  else [content_result TypeText name pg (JsString.trim text)].

(** Step 3 of the page: an empty accumulator is replaced by one empty
    text record. *)
Definition or_blank (name : string) (pg : N) (records : list ExtractionResult)
  : list ExtractionResult :=
  match records with
  | [] => [content_result TypeText name pg ""]
  | _ :: _ => records
  end.

(** The records of the pages [pages], one non-empty block per page, each
    record carrying its page's number and the file name. *)
Definition page_blocks (name : string) (pages : list N)
    (blocks : list (list ExtractionResult)) : Prop :=
  Forall2 (fun pg block => block ≠ [] ∧ Forall (page_record name pg) block) pages blocks.

Definition is_progress (ev : Event) : bool :=
  match ev with CallProgress _ _ => true | _ => false end.

(** The calls only the full-page stage makes. *)
Definition is_render_call (ev : Event) : bool :=
  match ev with
  | CallPdfToCairo _ _ _ | CallAccess _ | CallSharp _ => true
  | _ => false
  end.

(** A computation all of whose new events satisfy [p]. *)
Definition adds {A} (p : Event → bool) (m : Async A) : Prop :=
  ∀ h, ∃ l, fst (m h) = l ++ h ∧ Forall (fun ev => p ev = true) l.

(** The events of the text and embedded-image stages: neither a call of
    the full-page stage nor a progress report. *)
Definition is_page_body_event (ev : Event) : bool :=
  negb (is_render_call ev) && negb (is_progress ev).

(** Reading an extracted image file and removing it at once. *)
Definition read_and_remove (env : Env) (imageFile : string) : list Event :=
  [CallReadFile (path_join env (localTmpRoot env) imageFile);
   CallRm (path_join env (localTmpRoot env) imageFile)].


Module Callbacks.

(** [() => {}] *)
Definition quiet : ProgressCallback := fun _ _ => Normal tt.

(** [event => { if (event.data.currentPage === pg) throw new Error('cancelled') }] *)
Definition cancel_at (pg : N) : ProgressCallback :=
  fun ev _ =>
    if (currentPage ev =? pg)%N then Throw (ErrorObject "cancelled") else Normal tt.

End Callbacks.

(** The record of the embedded image read from the file [imageFile]:
    a data URI of the file's bytes, typed by the file's extension. *)
Definition image_record (env : Env) (name : string) (pg : N)
    (imageFile : string) (bytes : Buffer) : ExtractionResult :=
  {| type := Some TypeImage; fileName := name; page := pg;
     contents :=
       Some ("data:"
             +:+ mime_type (JsString.toLowerCase
                              (JsString.slice1 (path_extname env imageFile)))
             +:+ ";base64," +:+ base64 env bytes);
     error := None; isFullPage := None |}.

(** What is kept of the image files read, each with the bytes it held,
    in the order they were read: nothing for an empty file, the file's
    record for any other. *)
Definition image_records (env : Env) (name : string) (pg : N)
    (reads : list (string * Buffer)) : list ExtractionResult :=
  flat_map (fun read =>
              match snd read with
              | [] => []
              | _ :: _ => [image_record env name pg (fst read) (snd read)]
              end)
    reads.

(** The events of reading those files, oldest first: each file is read
    and removed, and an empty one is then logged as skipped. *)
Definition image_events (env : Env) (reads : list (string * Buffer)) : list Event :=
  flat_map (fun read =>
              read_and_remove env (fst read)
              ++ match snd read with
                 | [] => [ConsoleLog ("Skipping empty image file extracted from PDF: "
                                      +:+ fst read)]
                 | _ :: _ => []
                 end)
    reads.



(** A record as an extractor returns it: well-formed, on a page numbered
    from 1, under the file name [name]. *)
Definition sound_record (name : string) (r : ExtractionResult) : Prop :=
  fileName r = name ∧ (1 ≤ page r)%N ∧ well_formed r = true.

(** * Properties *)

(** ** The sample environment behaves like the source on ordinary inputs *)

Example basename_of_path : Sample.basename "docs/report.PDF" = "report.PDF".
Proof. reflexivity. Qed.

Example extname_of_path : Sample.extname "docs/report.PDF" = ".PDF".
Proof. reflexivity. Qed.

Example extname_of_dotfile : Sample.extname ".gitignore" = "".
Proof. reflexivity. Qed.

Example extract_docx :
  extract (Sample.env_of Sample.calm) ∅ "docs/a.DOCX" None []
  = ([CallMammoth "docs/a.DOCX"],
     Normal [content_result TypeText "a.DOCX" 1 "Hello"]).
Proof. vm_compute. reflexivity. Qed.

Example extract_pdf :
  snd (extract (Sample.env_of Sample.calm) ∅ "docs/a.pdf" None [])
  = Normal [content_result TypeText "a.pdf" 1 "page text"].
Proof. vm_compute. reflexivity. Qed.

Example extract_pptx :
  snd (extract (Sample.env_of Sample.calm) ∅ "a.pptx" None [])
  = Normal [content_result TypeText "a.pptx" 1 ("Title" +:+ JsString.newline +:+ "Body");
            content_result TypeText "a.pptx" 2 ""].
Proof. vm_compute. reflexivity. Qed.

(** ** The registry *)

Lemma hash_setPostProcessor_insert extension input (reg : Registry) :
  hash_setPostProcessor extension input reg = <[extension := stored_entry input]> reg.
Proof. by destruct input. Qed.

Lemma lookup_hash_setPostProcessor extension input (reg : Registry) :
  hash_setPostProcessor extension input reg !! extension = Some (stored_entry input).
Proof. rewrite hash_setPostProcessor_insert. apply lookup_insert_eq. Qed.

Lemma lookup_hash_setPostProcessor_ne extension k input (reg : Registry) :
  extension ≠ k → hash_setPostProcessor extension input reg !! k = reg !! k.
Proof. intros. rewrite hash_setPostProcessor_insert. by apply lookup_insert_ne. Qed.

Lemma applyPostProcessor_registered (reg : Registry) ext config results h :
  reg !! ext = Some config →
  hash_applyPostProcessor reg ext results h = settle ext (invoke config results h) h.
Proof. intros Hreg. unfold hash_applyPostProcessor. by rewrite Hreg. Qed.

Lemma applyPostProcessor_unregistered (reg : Registry) ext results h :
  reg !! ext = None → hash_applyPostProcessor reg ext results h = (h, Normal results).
Proof. intros Hreg. unfold hash_applyPostProcessor. by rewrite Hreg. Qed.

Lemma toLowerCase_dot_xlsx : JsString.toLowerCase (with_leading_dot ".xlsx") = ".xlsx".
Proof. reflexivity. Qed.

(** C10. [setXlsxPostProcessor p] stores an entry for [p] under [".xlsx"]
    and another under [".xls"]; after [clearPostProcessor ".xlsx"] the
    [".xlsx"] entry is gone, the [".xls"] entry still holds [p], every
    key other than [".xlsx"] reads as before, and [extract] on a path
    whose extension is [".xls"] still hands the spreadsheet results to
    [p].  In general [clearPostProcessor] changes no entry but the one
    it names. *)
Theorem C10_clearing_xlsx_keeps_xls (input : PostProcessorInput) (reg : Registry) :
  let reg1 := setXlsxPostProcessor input reg in
  let reg2 := clearPostProcessor ".xlsx" reg1 in
  reg1 !! ".xlsx" = Some (stored_entry input)
  ∧ reg1 !! ".xls" = Some (stored_entry input)
  ∧ reg2 !! ".xlsx" = None
  ∧ reg2 !! ".xls" = Some (stored_entry input)
  ∧ (∀ k : string, k ≠ ".xlsx" → reg2 !! k = reg1 !! k)
  ∧ (∀ env filePath h,
       hash_ext env filePath = ".xls" →
       extract env reg2 filePath None h
       = (results <- extractXlsx env filePath ;;;
          fun h' => settle ".xls" (invoke (stored_entry input) results h') h') h)
  ∧ (∀ (extension k : string) (r : Registry),
       k ≠ JsString.toLowerCase (with_leading_dot extension) →
       clearPostProcessor extension r !! k = r !! k).
Proof.
  intros reg1 reg2.
  assert (H1 : reg1 !! ".xlsx" = Some (stored_entry input)).
  { unfold reg1, setXlsxPostProcessor.
    rewrite lookup_hash_setPostProcessor_ne by done.
    apply lookup_hash_setPostProcessor. }
  assert (H2 : reg1 !! ".xls" = Some (stored_entry input)).
  { apply lookup_hash_setPostProcessor. }
  assert (H3 : ∀ k : string, k ≠ ".xlsx" → reg2 !! k = reg1 !! k).
  { intros k Hk. unfold reg2, clearPostProcessor. rewrite toLowerCase_dot_xlsx.
    by apply lookup_delete_ne. }
  assert (H4 : reg2 !! ".xls" = Some (stored_entry input)).
  { rewrite H3 by done. exact H2. }
  repeat split; try done.
  - unfold reg2, clearPostProcessor. rewrite toLowerCase_dot_xlsx.
    apply lookup_delete_eq.
  - intros env filePath h Hext.
    unfold extract, resolved_extension. simpl. rewrite Hext.
    unfold dispatch. simpl. unfold bind.
    destruct (extractXlsx env filePath h) as [h' [[results|e]|]]; [|done..].
    by apply applyPostProcessor_registered.
  - intros extension k r Hk. unfold clearPostProcessor.
    by apply lookup_delete_ne.
Qed.

Lemma C10_witness :
  let input := InputFunction Processors.report_receiver in
  let reg1 :=
    setXlsxPostProcessor input
      (setPdfPostProcessor (InputFunction Processors.errorProcessor) ∅) in
  let reg2 := clearPostProcessor ".xlsx" reg1 in
  reg2 !! ".xlsx" = None
  ∧ reg2 !! ".xls" = Some (stored_entry input)
  ∧ reg2 !! ".pdf" = reg1 !! ".pdf"
  ∧ snd (extract (Sample.env_of Sample.calm) reg2 "docs/book.XLS" None [])
    = Normal [Processors.tagged "called on the registry entry"]
  ∧ clearPostProcessor "XLSX" reg1 !! ".xls" = reg1 !! ".xls".
Proof.
  intros input reg1 reg2.
  destruct (C10_clearing_xlsx_keeps_xls input
              (setPdfPostProcessor (InputFunction Processors.errorProcessor) ∅))
    as (_ & _ & Hgone & Hkept & Hframe & Hextract & Hclear).
  split; [exact Hgone|]. split; [exact Hkept|].
  split; [apply Hframe; discriminate|].
  split.
  - unfold reg2, reg1.
    rewrite (Hextract (Sample.env_of Sample.calm) "docs/book.XLS" [] eq_refl).
    vm_compute. reflexivity.
  - apply Hclear. discriminate.
Defined.

(** ** Invoking a processor *)

(** C8, as the code has it.  A processor registered as
    [{ handler, context }] is called with the registered context as its
    receiver exactly when that context is truthy.  For a context that is
    absent, or present but falsy ([0], the empty string, [false], [null],
    [NaN]), and for a processor registered as a plain function, the call
    is [config.processor(results)]: the registered context is not the
    receiver. *)
Theorem C8_context_is_receiver_when_truthy
    (ext : string) (handler : PostProcessor) (reg : Registry)
    (results : list ExtractionResult) (h : History) :
  (∀ c : JsValue,
     truthy c = true →
     hash_applyPostProcessor
       (hash_setPostProcessor ext (InputObject handler (Some c)) reg) ext results h
     = settle ext (handler (ThisContext c) results h) h)
  ∧ (∀ c : JsValue,
       truthy c = false →
       hash_applyPostProcessor
         (hash_setPostProcessor ext (InputObject handler (Some c)) reg) ext results h
       = settle ext (handler ThisConfig results h) h)
  ∧ hash_applyPostProcessor
      (hash_setPostProcessor ext (InputObject handler None) reg) ext results h
    = settle ext (handler ThisConfig results h) h
  ∧ hash_applyPostProcessor
      (hash_setPostProcessor ext (InputFunction handler) reg) ext results h
    = settle ext (handler ThisConfig results h) h.
Proof.
  repeat split; intros;
    erewrite applyPostProcessor_registered
      by apply lookup_hash_setPostProcessor;
    unfold invoke; simpl.
  - by rewrite H.
  - by rewrite H.
  - done.
  - done.
Qed.

Lemma C8_witness :
  snd (hash_applyPostProcessor
         (setPdfPostProcessor
            (InputObject Processors.report_receiver (Some (VObject 7))) ∅)
         ".pdf" [] [])
  = Normal [Processors.tagged "called on the registered context"]
  ∧ snd (hash_applyPostProcessor
           (setPdfPostProcessor
              (InputObject Processors.report_receiver (Some (VString ""))) ∅)
           ".pdf" [] [])
    = Normal [Processors.tagged "called on the registry entry"].
Proof.
  destruct (C8_context_is_receiver_when_truthy ".pdf" Processors.report_receiver ∅ [] [])
    as (Hbound & Hfalsy & _ & _).
  split.
  - unfold setPdfPostProcessor. rewrite (Hbound (VObject 7) eq_refl). reflexivity.
  - unfold setPdfPostProcessor. rewrite (Hfalsy (VString "") eq_refl). reflexivity.
Defined.

(** C8 as stated fails for a present but falsy context: registered with
    the context [0], the handler is called on the registry entry, which
    is not what a call with receiver [0] yields. *)
Lemma C8_falsy_context_is_not_the_receiver :
  let reg :=
    setDocxPostProcessor (InputObject Processors.report_receiver (Some (VNumber 0))) ∅ in
  snd (hash_applyPostProcessor reg ".docx" [] [])
  = Normal [Processors.tagged "called on the registry entry"]
  ∧ snd (hash_applyPostProcessor reg ".docx" [] [])
    ≠ snd (settle ".docx" (Processors.report_receiver (ThisContext (VNumber 0)) [] []) []).
Proof. split; [vm_compute; reflexivity | vm_compute; discriminate]. Qed.

Lemma fields_assign_error (target : N) (msg : string) (elements : list Element) :
  map fields (assign_error target msg elements)
  = map (fun el =>
           if (identity el =? target)%N then set_error (fields el) msg else fields el)
      elements.
Proof.
  unfold assign_error. rewrite map_map. apply map_ext.
  intros el. by destruct (identity el =? target)%N.
Qed.

(** An object of the array as handed over is written at its own
    position only. *)
Lemma assign_error_handed_over (target next : N) (msg : string)
    (results : list ExtractionResult) :
  (target < next)%N →
  map fields (assign_error target msg (handed_over_from next results)) = results.
Proof.
  revert next. induction results as [|r rest IH]; intros next Hlt; [done|].
  simpl. assert (Hne : (next =? target)%N = false) by (apply N.eqb_neq; lia).
  rewrite Hne. f_equal. apply IH. lia.
Qed.

Lemma assign_error_first_handed_over (msg : string) (results : list ExtractionResult) :
  map fields
    (match handed_over results with
     | [] => []
     | first :: _ => assign_error (identity first) msg (handed_over results)
     end)
  = flag_first msg results.
Proof.
  destruct results as [|r rest]; [done|].
  unfold handed_over. simpl. f_equal. by apply assign_error_handed_over.
Qed.

(** What the [catch] block does once the failure has a text. *)
Lemma post_processor_failed_printable ext e m (left : list Element) h :
  printable e = Some m →
  post_processor_failed ext e left h
  = (ConsoleError ("Post-processor for " +:+ ext +:+ " failed:") :: h,
     match left with
     | [] => Settled (Normal [])
     | first :: _ =>
         match error_write first with
         | Some raised => Settled (Throw raised)
         | None =>
             Settled (Normal (map fields
                       (assign_error (identity first) ("Post-processor error: " +:+ m)
                          left)))
         end
     end).
Proof.
  intros Hm. unfold post_processor_failed, bind, console.
  destruct left as [|first rest]; [done|].
  destruct e; simpl in Hm; simplify_eq; simpl; by destruct (error_write first).
Qed.

(** C3, as the code has it.  When the registered processor throws (or
    its promise rejects) a value that is an [Error] with message [m], or
    another value whose string conversion is [m], [#applyPostProcessor]
    logs the failure and returns the array it handed to the processor, in
    the state the processor left it.  If that array is empty it is
    returned as it is.  If it is non-empty and its first element accepts
    the assignment of [error] (an ordinary object: not frozen, not a
    non-object), the [error] of that object is overwritten with
    ["Post-processor error: " ++ m], which shows at every position of the
    array that holds this same object, and nothing else is touched.  So
    whenever the processor did not change its argument, the result is
    the pre-processing sequence with only the first record's [error]
    replaced. *)
Theorem C3_failed_processor_returns_its_argument
    (reg : Registry) (ext : string) (config : PostProcessorContext)
    (results : list ExtractionResult) (h : History) (e : Thrown) (m : string) :
  reg !! ext = Some config →
  completion (invoke config results h) = Throw e →
  printable e = Some m →
  let left := argument_after (invoke config results h) in
  let logged := ConsoleError ("Post-processor for " +:+ ext +:+ " failed:") :: h in
  let flagged (r : ExtractionResult) :=
    {| type := type r; fileName := fileName r; page := page r;
       contents := contents r; error := Some ("Post-processor error: " +:+ m);
       isFullPage := isFullPage r |} in
  (left = [] → hash_applyPostProcessor reg ext results h = (logged, Normal []))
  ∧ (∀ first rest,
       left = first :: rest → error_write first = None →
       hash_applyPostProcessor reg ext results h
       = (logged,
          Normal (map (fun el =>
                         if (identity el =? identity first)%N
                         then flagged (fields el) else fields el)
                    left)))
  ∧ (left = handed_over results →
     hash_applyPostProcessor reg ext results h
     = (logged,
        Normal (match results with
                | [] => []
                | first :: rest => flagged first :: rest
                end))).
Proof.
  intros Hreg Hthrow Hm left logged flagged.
  assert (Hrun : hash_applyPostProcessor reg ext results h
                 = post_processor_failed ext e left h).
  { rewrite (applyPostProcessor_registered _ _ _ _ _ Hreg).
    unfold settle. by rewrite Hthrow. }
  rewrite Hrun, (post_processor_failed_printable _ _ _ _ _ Hm). fold logged.
  split; [|split].
  - by intros ->.
  - intros first rest -> Hwrite. rewrite Hwrite. by rewrite fields_assign_error.
  - intros ->. do 2 f_equal.
    pose proof (assign_error_first_handed_over ("Post-processor error: " +:+ m) results)
      as Hflag.
    destruct results as [|r rest]; [done|].
    unfold handed_over in *. simpl in *. by rewrite Hflag.
Qed.

Lemma C3_witness :
  snd (hash_applyPostProcessor
         (setDocxPostProcessor (InputFunction Processors.errorProcessor) ∅)
         ".docx" Processors.two_pages [])
  = Normal [ {| type := Some TypeText; fileName := "a.docx"; page := 1;
                contents := Some "first";
                error := Some "Post-processor error: Something went wrong in the processor";
                isFullPage := None |};
             content_result TypeText "a.docx" 2 "second" ].
Proof.
  pose proof (C3_failed_processor_returns_its_argument
                (setDocxPostProcessor (InputFunction Processors.errorProcessor) ∅)
                ".docx" (stored_entry (InputFunction Processors.errorProcessor))
                Processors.two_pages []
                (ErrorObject "Something went wrong in the processor")
                "Something went wrong in the processor"
                eq_refl eq_refl eq_refl) as (_ & _ & Hsame).
  rewrite (Hsame eq_refl). reflexivity.
Defined.

(** One object left at two positions: the message shows at both. *)
Example a_record_left_twice_is_flagged_twice :
  snd (hash_applyPostProcessor
         (setDocxPostProcessor (InputFunction Processors.alias_first_then_throw) ∅)
         ".docx" Processors.two_pages [])
  = Normal [set_error (content_result TypeText "a.docx" 1 "first")
              "Post-processor error: boom";
            set_error (content_result TypeText "a.docx" 1 "first")
              "Post-processor error: boom"].
Proof. vm_compute. reflexivity. Qed.

(** A frozen first record: the assignment in the [catch] block raises,
    and [#applyPostProcessor] completes abruptly with that [TypeError]. *)
Example a_frozen_first_record_makes_the_catch_block_throw :
  hash_applyPostProcessor
    (setDocxPostProcessor (InputFunction Processors.freeze_first_then_throw) ∅)
    ".docx" Processors.two_pages []
  = ([ConsoleError "Post-processor for .docx failed:"],
     Throw (ErrorObject "Cannot add property error, object is not extensible")).
Proof. vm_compute. reflexivity. Qed.

(** C3 as stated fails for a processor that works in place: the records
    it rewrote before throwing stay rewritten in the returned sequence,
    which therefore is not the pre-processing sequence with only the
    first [error] changed. *)
Lemma C3_in_place_changes_survive :
  let reg :=
    setDocxPostProcessor (InputFunction Processors.redact_in_place_then_throw) ∅ in
  snd (hash_applyPostProcessor reg ".docx" Processors.two_pages [])
  = Normal [ {| type := Some TypeText; fileName := "a.docx"; page := 1;
                contents := Some "REDACTED";
                error := Some "Post-processor error: boom";
                isFullPage := None |};
             content_result TypeText "a.docx" 2 "REDACTED" ]
  ∧ snd (hash_applyPostProcessor reg ".docx" Processors.two_pages [])
    ≠ Normal (flag_first "Post-processor error: boom" Processors.two_pages).
Proof. split; [vm_compute; reflexivity | vm_compute; discriminate]. Qed.

(** The same for an empty sequence: a processor that pushes a record
    before throwing gets that record back with the error attached. *)
Lemma empty_results_can_come_back_non_empty :
  let extra := content_result TypeText "x" 9 "pushed" in
  snd (hash_applyPostProcessor
         (setDocxPostProcessor (InputFunction (Processors.push_then_throw extra)) ∅)
         ".docx" [] [])
  = Normal [set_error extra "Post-processor error: late"].
Proof. vm_compute. reflexivity. Qed.

(** ** Resolving the extension and dispatching *)

Lemma lower_char_dot (c : ascii) : JsString.lower_char c = "."%char → c = "."%char.
Proof.
  destruct c as [[] [] [] [] [] [] [] []]; vm_compute; intros H;
    first [reflexivity | discriminate H].
Qed.

Lemma toLowerCase_without_dot (e rest : string) :
  e ≠ "" → JsString.startsWith e "." = false →
  String.eqb (JsString.toLowerCase e) (String "." rest) = false.
Proof.
  intros Hne Hdot. destruct e as [|c e]; [done|].
  apply String.eqb_neq. simpl. intros Heq.
  injection Heq as Hc _. apply lower_char_dot in Hc. subst c.
  vm_compute in Hdot. discriminate Hdot.
Qed.

Lemma resolved_extension_override env filePath (e : string) pdfOpts cb :
  e ≠ "" →
  resolved_extension env filePath
    (Some {| extension := Some e; pdf := pdfOpts; progressCallback := cb |})
  = JsString.toLowerCase e.
Proof. intros Hne. unfold resolved_extension. simpl. by destruct e. Qed.

Lemma dispatch_unsupported env ext filePath options h :
  ext ≠ ".docx" → ext ≠ ".xlsx" → ext ≠ ".xls" → ext ≠ ".pptx" → ext ≠ ".pdf" →
  dispatch env ext filePath options h = (h, Normal [unsupported_result env filePath ext]).
Proof.
  intros H1 H2 H3 H4 H5. unfold dispatch.
  apply String.eqb_neq in H1, H2, H3, H4, H5.
  by rewrite H1, H2, H3, H4, H5.
Qed.

(** C4, as the code has it.  A non-empty [options.extension] is
    lowercased and then used exactly as given, for the dispatch and for
    the registry lookup alike, whatever the path's own extension; no
    leading dot is added.  So an override [".PDF"] or [".pdf"] runs the
    PDF extractor and looks up [".pdf"], while an override without a
    leading dot (["PDF"], ["pdf"]) matches no format: the result is the
    unsupported-extension record, looked up under the dotless key. *)
Theorem C4_override_is_lowercased_and_used_as_given
    (env : Env) (reg : Registry) (filePath e : string)
    (pdfOpts : option PdfExtractionOptions) (cb : option ProgressCallback)
    (h : History) :
  e ≠ "" →
  let options := Some {| extension := Some e; pdf := pdfOpts; progressCallback := cb |} in
  let ext := JsString.toLowerCase e in
  resolved_extension env filePath options = ext
  ∧ extract env reg filePath options h
    = (results <- dispatch env ext filePath options ;;;
       hash_applyPostProcessor reg ext results) h
  ∧ (ext = ".pdf" →
     extract env reg filePath options h
     = (results <- extractPdf env filePath pdfOpts cb ;;;
        hash_applyPostProcessor reg ".pdf" results) h)
  ∧ (JsString.startsWith e "." = false →
     extract env reg filePath options h
     = hash_applyPostProcessor reg ext [unsupported_result env filePath ext] h).
Proof.
  intros Hne options ext.
  assert (Hext : resolved_extension env filePath options = ext)
    by by apply resolved_extension_override.
  assert (Hrun : extract env reg filePath options h
    = (results <- dispatch env ext filePath options ;;;
       hash_applyPostProcessor reg ext results) h).
  { unfold extract. by rewrite Hext. }
  repeat split; [done | done | |].
  - intros Hpdf. rewrite Hrun, Hpdf. reflexivity.
  - intros Hdot. rewrite Hrun. unfold bind, dispatch.
    rewrite !(toLowerCase_without_dot e _ Hne Hdot). reflexivity.
Qed.

Lemma C4_witness :
  snd (extract (Sample.env_of Sample.calm) ∅ "upload.bin"
         (Some {| extension := Some ".PDF"; pdf := None; progressCallback := None |}) [])
  = Normal [content_result TypeText "upload.bin" 1 "page text"]
  ∧ extract (Sample.env_of Sample.calm) ∅ "upload.bin"
      (Some {| extension := Some "docx"; pdf := None; progressCallback := None |}) []
    = ([], Normal [unsupported_result (Sample.env_of Sample.calm) "upload.bin" "docx"]).
Proof.
  split.
  - destruct (C4_override_is_lowercased_and_used_as_given
                (Sample.env_of Sample.calm) ∅ "upload.bin" ".PDF" None None [])
      as (_ & _ & Hpdf & _); [discriminate|].
    rewrite (Hpdf eq_refl). vm_compute. reflexivity.
  - destruct (C4_override_is_lowercased_and_used_as_given
                (Sample.env_of Sample.calm) ∅ "upload.bin" "docx" None None [])
      as (_ & _ & _ & Hbare); [discriminate|].
    rewrite (Hbare eq_refl). reflexivity.
Defined.

(** C4 as stated fails for an override without a leading dot: with
    ["PDF"] on a PDF file, and a processor registered for ["pdf"] (which
    the registry keeps under [".pdf"]), the PDF extractor is not called
    (the history stays empty), the result is the unsupported-extension
    record for ["pdf"], and the processor is not applied. *)
Lemma C4_override_without_dot_is_not_dispatched :
  let reg := setPostProcessor "pdf" (InputFunction Processors.drop_everything) ∅ in
  let env := Sample.env_of Sample.calm in
  reg !! ".pdf" = Some (stored_entry (InputFunction Processors.drop_everything))
  ∧ extract env reg "docs/a.pdf"
      (Some {| extension := Some "PDF"; pdf := None; progressCallback := None |}) []
    = ([], Normal [error_result "a.pdf" 1
                     ("DocSuite: unsupported extension " +:+ JsString.dquote
                      +:+ "pdf" +:+ JsString.dquote)])
  ∧ snd (extract env reg "docs/a.pdf" None []) = Normal [].
Proof. repeat split; vm_compute; reflexivity. Qed.

(** C7.  When the resolved extension is none of [.docx], [.xlsx], [.xls],
    [.pptx], [.pdf] (the empty extension included), the [switch] of
    [extract] makes no external call at all and yields exactly one
    record: [type] null, [fileName] the base name of the path, [page] 1
    and the error [DocSuite: unsupported extension "<ext>"]; [extract]
    then runs the post-processor step on that single record, under the
    same resolved extension. *)
Theorem C7_unsupported_extension
    (env : Env) (reg : Registry) (filePath : string)
    (options : option ExtractionOptions) (h : History) :
  let ext := resolved_extension env filePath options in
  let synthetic :=
    {| type := None; fileName := path_basename env filePath; page := 1;
       contents := None;
       error := Some ("DocSuite: unsupported extension " +:+ JsString.dquote
                      +:+ ext +:+ JsString.dquote);
       isFullPage := None |} in
  ext ≠ ".docx" → ext ≠ ".xlsx" → ext ≠ ".xls" → ext ≠ ".pptx" → ext ≠ ".pdf" →
  dispatch env ext filePath options h = (h, Normal [synthetic])
  ∧ extract env reg filePath options h
    = hash_applyPostProcessor reg ext [synthetic] h.
Proof.
  intros ext synthetic H1 H2 H3 H4 H5.
  pose proof (dispatch_unsupported env ext filePath options h H1 H2 H3 H4 H5) as Hd.
  split; [exact Hd|].
  unfold extract, bind. fold ext. by rewrite Hd.
Qed.

Lemma C7_witness :
  extract (Sample.env_of Sample.calm) ∅ "docs/README" None []
  = ([], Normal [error_result "README" 1
                   ("DocSuite: unsupported extension " +:+ JsString.dquote
                    +:+ "" +:+ JsString.dquote)])
  ∧ snd (extract (Sample.env_of Sample.calm)
           (setPostProcessor "TXT" (InputFunction Processors.errorProcessor) ∅)
           "docs/notes.TXT" None [])
    = Normal [error_result "notes.TXT" 1
                "Post-processor error: Something went wrong in the processor"].
Proof.
  split.
  - destruct (C7_unsupported_extension (Sample.env_of Sample.calm) ∅
                "docs/README" None []) as [_ Hrun]; try discriminate.
    rewrite Hrun. reflexivity.
  - destruct (C7_unsupported_extension (Sample.env_of Sample.calm)
                (setPostProcessor "TXT" (InputFunction Processors.errorProcessor) ∅)
                "docs/notes.TXT" None []) as [_ Hrun]; try discriminate.
    rewrite Hrun. vm_compute. reflexivity.
Defined.

(** ** The page-count pattern *)

Section StringFacts.
Import JsString.

Lemma append_cons (x : ascii) (a b : string) :
  String x a +:+ b = String x (a +:+ b).
Proof. reflexivity. Qed.

Lemma append_assoc (a b c : string) : (a +:+ b) +:+ c = a +:+ b +:+ c.
Proof.
  induction a as [|x a IH]; [done|].
  by rewrite !append_cons, IH.
Qed.

Lemma strip_prefix_Some (p s r : string) :
  strip_prefix p s = Some r → s = p +:+ r.
Proof.
  revert s. induction p as [|a p IH]; intros s H; simpl in *.
  - by inversion H.
  - destruct s as [|b s]; [done|].
    destruct (Ascii.eqb a b) eqn:Hab; [|done].
    apply Ascii.eqb_eq in Hab. subst b. rewrite append_cons. f_equal. by apply IH.
Qed.

Lemma strip_prefix_append (p r : string) : strip_prefix p (p +:+ r) = Some r.
Proof.
  induction p as [|a p IH]; [done|].
  rewrite append_cons. simpl. by rewrite Ascii.eqb_refl.
Qed.

Lemma span_spec (f : ascii → bool) (s a b : string) :
  span f s = (a, b) → s = a +:+ b ∧ all f a = true.
Proof.
  revert a b. induction s as [|c s IH]; intros a b H; simpl in H.
  - by inversion H.
  - destruct (f c) eqn:Hc.
    + destruct (span f s) as [a' b'] eqn:Hs. inversion H; subst.
      destruct (IH a' b eq_refl) as [-> Hall].
      split; [done|]. simpl. by rewrite Hc.
    + by inversion H.
Qed.



Lemma digit_is_not_space (c : ascii) : is_digit c = true → is_space c = false.
Proof.
  unfold is_digit, is_space. intros H.
  apply andb_true_iff in H as [H1 H2].
  apply N.leb_le in H1, H2.
  repeat (apply orb_false_iff; split); try apply andb_false_iff.
  - right. apply N.leb_gt. lia.
  - apply N.eqb_neq. lia.
  - apply N.eqb_neq. lia.
Qed.

Lemma is_empty_false (s : string) : is_empty s = false ↔ s ≠ "".
Proof. by destruct s. Qed.

End StringFacts.

Section PagesRegexFacts.
Import JsString PagesRegex.


Lemma exec_unfold (s : string) :
  exec s = match match_here s with
           | Some ds => Some ds
           | None => match s with
                     | EmptyString => None
                     | String _ r => exec r
                     end
           end.
Proof. by destruct s. Qed.





Lemma span_rest (f : ascii → bool) (s a b : string) :
  span f s = (a, b) →
  match b with EmptyString => True | String c _ => f c = false end.
Proof.
  revert a b. induction s as [|c s IH]; intros a b H; simpl in H.
  - by inversion H.
  - destruct (f c) eqn:Hc.
    + destruct (span f s) as [a' b'] eqn:Hs. inversion H; subst. by eapply IH.
    + by inversion H.
Qed.

Lemma span_exact (f : ascii → bool) (a b : string) :
  all f a = true →
  match b with EmptyString => True | String c _ => f c = false end →
  span f (a +:+ b) = (a, b).
Proof.
  intros Hall Hb. induction a as [|x a IH].
  - destruct b as [|c b]; [done|]. simpl. by rewrite Hb.
  - simpl in Hall. apply andb_true_iff in Hall as [Hx Hall].
    rewrite append_cons. simpl. by rewrite Hx, IH.
Qed.

(** An attempt at the start of [s] succeeds exactly when a match starts
    there, and captures that match's digits. *)
Lemma match_here_Some (s ds : string) :
  match_here s = Some ds ↔ ∃ ws after, pages_match s "" ws ds after.
Proof.
  unfold match_here, pages_match. split.
  - intros H.
    destruct (strip_prefix "Pages:" s) as [r|] eqn:Hp; [|done].
    apply strip_prefix_Some in Hp.
    destruct (span is_space r) as [ws r'] eqn:Hws.
    destruct (is_empty ws) eqn:Hwe; [done|].
    destruct (span is_digit r') as [ds' after] eqn:Hds.
    destruct (is_empty ds') eqn:Hde; [done|].
    inversion H; subst ds'.
    pose proof (span_rest _ _ _ _ Hds) as Hrest.
    apply span_spec in Hws as [-> Hsp]. apply span_spec in Hds as [-> Hdg].
    exists ws, after. split; [exact Hp|].
    by rewrite <- !is_empty_false.
  - intros (ws & after & -> & Hws & Hsp & Hds & Hdg & Hrest).
    change ("" +:+ "Pages:" +:+ ws +:+ ds +:+ after)
      with ("Pages:" +:+ ws +:+ ds +:+ after).
    rewrite strip_prefix_append.
    rewrite (span_exact is_space ws (ds +:+ after) Hsp).
    + apply is_empty_false in Hws. rewrite Hws.
      rewrite (span_exact is_digit ds after Hdg Hrest).
      apply is_empty_false in Hds. by rewrite Hds.
    + destruct ds as [|d ds]; [done|]. rewrite append_cons.
      simpl in Hdg. apply andb_true_iff in Hdg as [Hd _].
      by apply digit_is_not_space.
Qed.

Lemma pages_match_cons (c : ascii) (report before ws ds after : string) :
  pages_match (String c report) (String c before) ws ds after
  ↔ pages_match report before ws ds after.
Proof.
  unfold pages_match. rewrite append_cons. split.
  - intros (Heq & H). split; [by injection Heq|done].
  - intros (-> & H). done.
Qed.

(** The pattern's result is the run of digits of the leftmost match. *)
Lemma exec_Some (report ds : string) :
  exec report = Some ds ↔ first_pages_match report ds.
Proof.
  split.
  - revert ds. induction report as [|c report IH]; intros ds H.
    + done.
    + rewrite exec_unfold in H.
      destruct (match_here (String c report)) as [ds'|] eqn:Hm.
      * inversion H; subst ds'.
        apply match_here_Some in Hm as (ws & after & Hmatch).
        exists "", ws, after. split; [done|]. intros; simpl; lia.
      * destruct (IH ds H) as (before & ws & after & Hmatch & Hfirst).
        exists (String c before), ws, after.
        split; [by apply (proj2 (pages_match_cons c _ _ _ _ _))|].
        intros [|c' before'] ws' ds' after' Hother.
        -- assert (Hsome : match_here (String c report) = Some ds')
             by (apply match_here_Some; by exists ws', after').
           congruence.
        -- assert (c' = c) as -> by (destruct Hother as [Heq _]; by injection Heq).
           apply (proj1 (pages_match_cons _ _ _ _ _ _)) in Hother.
           apply Hfirst in Hother. simpl. lia.
  - intros (before & ws & after & Hmatch & Hfirst).
    revert report Hmatch Hfirst. induction before as [|c before IH];
      intros report Hmatch Hfirst.
    + assert (Hsome : match_here report = Some ds)
        by (apply match_here_Some; by exists ws, after).
      by rewrite exec_unfold, Hsome.
    + destruct report as [|c' report]; [by destruct Hmatch|].
      assert (c' = c) as -> by (destruct Hmatch as [Heq _]; by injection Heq).
      rewrite exec_unfold.
      destruct (match_here (String c report)) as [ds'|] eqn:Hm.
      * apply match_here_Some in Hm as (ws' & after' & Hother).
        apply Hfirst in Hother. simpl in Hother. lia.
      * apply IH; [by apply (proj1 (pages_match_cons c _ _ _ _ _))|].
        intros before' ws' ds' after' Hother.
        apply (proj2 (pages_match_cons c _ _ _ _ _)) in Hother.
        apply Hfirst in Hother. simpl in Hother. lia.
Qed.

Lemma first_pages_match_unique (report ds ds' : string) :
  first_pages_match report ds → first_pages_match report ds' → ds = ds'.
Proof. rewrite <- !exec_Some. congruence. Qed.

End PagesRegexFacts.

(** ** Reading the digits *)






(** ** Asynchronous computations: completions and histories *)

Section AsyncFacts.
Context {A B : Type}.

Lemma bind_Normal (m : Async A) (k : A → Async B) h h' b :
  bind m k h = (h', Normal b) →
  ∃ h1 a, m h = (h1, Normal a) ∧ k a h1 = (h', Normal b).
Proof.
  unfold bind. destruct (m h) as [h1 [[a|e]|]]; intros H; [|done..].
  by exists h1, a.
Qed.

Lemma bind_Throw (m : Async A) (k : A → Async B) h h' e :
  bind m k h = (h', Throw e) →
  m h = (h', Throw e) ∨ ∃ h1 a, m h = (h1, Normal a) ∧ k a h1 = (h', Throw e).
Proof.
  unfold bind. destruct (m h) as [h1 [[a|e']|]]; intros H.
  - right. by exists h1, a.
  - left. by simplify_eq.
  - done.
Qed.

Lemma bind_of_Normal (m : Async A) (k : A → Async B) h h1 a :
  m h = (h1, Normal a) → bind m k h = k a h1.
Proof. unfold bind. by intros ->. Qed.

Lemma bind_of_Throw (m : Async A) (k : A → Async B) h h1 e :
  m h = (h1, Throw e) → bind m k h = (h1, Throw e).
Proof. unfold bind. by intros ->. Qed.

Lemma try_catch_of_Normal (m : Async A) handler h h1 a :
  m h = (h1, Normal a) → try_catch m handler h = (h1, Normal a).
Proof. unfold try_catch. by intros ->. Qed.

Lemma try_catch_of_Throw (m : Async A) handler h h1 e :
  m h = (h1, Throw e) → try_catch m handler h = handler e h1.
Proof. unfold try_catch. by intros ->. Qed.

(** A [try] whose body completes and whose handler cannot throw cannot
    throw. *)
Lemma try_catch_never_throws (m : Async A) handler :
  settles m → (∀ e, never_throws (handler e)) → never_throws (try_catch m handler).
Proof.
  intros Hm Hh h. unfold try_catch. destruct (Hm h) as (h1 & [a|e] & ->).
  - by exists h1, a.
  - apply Hh.
Qed.

Lemma try_catch_Normal (m : Async A) handler h h' a :
  try_catch m handler h = (h', Normal a) →
  m h = (h', Normal a) ∨ ∃ h1 e, m h = (h1, Throw e) ∧ handler e h1 = (h', Normal a).
Proof.
  unfold try_catch. destruct (m h) as [h1 [[a'|e]|]]; intros H.
  - left. done.
  - right. by exists h1, e.
  - done.
Qed.


Lemma settles_ret (a : A) : settles (ret a).
Proof. intros h. by eexists _, _. Qed.

Lemma settles_throw (e : Thrown) : settles (@throw A e).
Proof. intros h. by eexists _, _. Qed.

Lemma settles_call ev (answer : History → Completion A) : settles (call ev answer).
Proof. intros h. by eexists _, _. Qed.

Lemma settles_bind (m : Async A) (k : A → Async B) :
  settles m → (∀ a, settles (k a)) → settles (bind m k).
Proof.
  intros Hm Hk h. unfold bind. destruct (Hm h) as (h1 & [a|e] & ->).
  - apply Hk.
  - by eexists _, _.
Qed.

Lemma settles_try_catch (m : Async A) handler :
  settles m → (∀ e, settles (handler e)) → settles (try_catch m handler).
Proof.
  intros Hm Hh h. unfold try_catch. destruct (Hm h) as (h1 & [a|e] & ->).
  - by eexists _, _.
  - apply Hh.
Qed.



Lemma ret_never_throws (a : A) : never_throws (ret a).
Proof. intros h. by exists h, a. Qed.

Lemma grows_ret (a : A) : grows (ret a).
Proof. intros h. simpl. reflexivity. Qed.

Lemma grows_throw (e : Thrown) : grows (@throw A e).
Proof. intros h. simpl. reflexivity. Qed.

Lemma grows_call ev (answer : History → Completion A) : grows (call ev answer).
Proof. intros h. simpl. by apply suffix_cons_r. Qed.

Lemma grows_bind (m : Async A) (k : A → Async B) :
  grows m → (∀ a, grows (k a)) → grows (bind m k).
Proof.
  intros Hm Hk h. unfold bind. specialize (Hm h).
  destruct (m h) as [h1 [[a|e]|]]; simpl in *; [|done..].
  etrans; [exact Hm | apply Hk].
Qed.

Lemma grows_try_catch (m : Async A) handler :
  grows m → (∀ e, grows (handler e)) → grows (try_catch m handler).
Proof.
  intros Hm Hh h. unfold try_catch. specialize (Hm h).
  destruct (m h) as [h1 [[a|e]|]]; simpl in *; [done| |done].
  etrans; [exact Hm | apply Hh].
Qed.





End AsyncFacts.

Lemma grows_console ev : grows (console ev).
Proof. intros h. simpl. by apply suffix_cons_r. Qed.

Lemma settles_console ev : settles (console ev).
Proof. intros h. by eexists _, _. Qed.

Create HintDb grows.
#[local] Hint Resolve grows_ret grows_throw grows_call grows_console : grows.

Create HintDb settles.
#[local] Hint Resolve settles_ret settles_throw settles_call settles_console : settles.

(** ** The PDF page pipeline *)

Ltac grows_step :=
  first
    [ apply grows_bind; [|intros]
    | apply grows_try_catch; [|intros]
    | match goal with
      | |- grows (if ?b then _ else _) => destruct b
      | |- grows (match ?x with _ => _ end) => destruct x
      end
    | solve [auto with grows] ].

Ltac settles_step :=
  first
    [ apply settles_bind; [|intros]
    | apply settles_try_catch; [|intros]
    | match goal with
      | |- settles (if ?b then _ else _) => destruct b
      | |- settles (match ?x with _ => _ end) => destruct x
      end
    | solve [auto with settles] ].

Section PageFacts.
Variable env : Env.
Variables filePath fileName imageFormat : string.
Variable pageNum : N.

Lemma settles_collect_images imageFiles pageResults :
  settles (collect_images env fileName pageNum imageFiles pageResults).
Proof.
  revert pageResults. induction imageFiles as [|f rest IH]; intros pr; simpl.
  - auto with settles.
  - repeat first [apply IH | settles_step].
Qed.

Lemma settles_text_and_images pageResults :
  settles (text_and_images env filePath fileName imageFormat pageNum pageResults).
Proof.
  unfold text_and_images. repeat first [apply settles_collect_images | settles_step].
Qed.

Lemma settles_render_full_page outputPrefix pageResults :
  settles (render_full_page env filePath fileName pageNum outputPrefix pageResults).
Proof. unfold render_full_page. repeat settles_step. Qed.

Lemma settles_full_page_stage pageResults :
  settles (full_page_stage env filePath fileName pageNum pageResults).
Proof.
  unfold full_page_stage. repeat first [apply settles_render_full_page | settles_step].
Qed.

Lemma grows_collect_images imageFiles pageResults :
  grows (collect_images env fileName pageNum imageFiles pageResults).
Proof.
  revert pageResults. induction imageFiles as [|f rest IH]; intros pr; simpl.
  - auto with grows.
  - repeat first [apply IH | grows_step].
Qed.

Lemma grows_text_and_images pageResults :
  grows (text_and_images env filePath fileName imageFormat pageNum pageResults).
Proof.
  unfold text_and_images. repeat first [apply grows_collect_images | grows_step].
Qed.

Lemma grows_page_try pageResults results :
  grows (page_try env filePath fileName imageFormat pageNum pageResults results).
Proof.
  unfold page_try. repeat first [apply grows_text_and_images | grows_step].
Qed.


(** Step 3 of the page: what is pushed for a page is never empty. *)
Lemma text_and_images_non_empty pageResults h h' pushed :
  text_and_images env filePath fileName imageFormat pageNum pageResults h
  = (h', Normal pushed) →
  pushed ≠ [].
Proof.
  unfold text_and_images. intros H.
  repeat (apply bind_Normal in H as (? & ? & _ & H); cbv beta zeta in H).
  match type of H with
  | match ?l with _ => _ end _ = _ => destruct l
  end; unfold ret in H; by simplify_eq.
Qed.

(** The page-level [try] never throws, and always adds to [results]. *)
Lemma page_try_appends pageResults results h :
  ∃ h' added,
    page_try env filePath fileName imageFormat pageNum pageResults results h
    = (h', Normal (results ++ added))
    ∧ added ≠ [].
Proof.
  unfold page_try, try_catch.
  destruct (bind (text_and_images _ _ _ _ _ _) _ h) as [h' [[rs|e]|]] eqn:H.
  - apply bind_Normal in H as (h1 & pushed & Ht & Hr).
    unfold ret in Hr. simplify_eq.
    exists h', pushed. split; [done|].
    by eapply text_and_images_non_empty.
  - by exists h', [page_error_result fileName pageNum e].
  - exfalso. unfold bind in H.
    destruct (settles_text_and_images pageResults h) as (h1 & [pushed|e] & Ht);
      rewrite Ht in H; by unfold ret in H.
Qed.

(** When the text stage or the embedded-image stage throws, the page
    contributes the page-level error record and nothing else. *)
Lemma page_try_of_Throw pageResults results h h' e :
  text_and_images env filePath fileName imageFormat pageNum pageResults h
  = (h', Throw e) →
  page_try env filePath fileName imageFormat pageNum pageResults results h
  = (h', Normal (results ++ [page_error_result fileName pageNum e])).
Proof.
  intros Ht. unfold page_try.
  erewrite try_catch_of_Throw; [reflexivity|].
  by apply bind_of_Throw.
Qed.

(** Once its scratch directory and prefix exist, the full-page stage is
    the guarded render. *)
Lemma full_page_stage_after_setup pageResults h hex :
  fs_mkdir env h (localTmpRoot env) = Normal tt →
  randomBytes_hex env (CallMkdir (localTmpRoot env) :: h) 8 = Normal hex →
  full_page_stage env filePath fileName pageNum pageResults h
  = try_catch
      (render_full_page env filePath fileName pageNum
         (path_join env (localTmpRoot env)
            ("cairo-output-" +:+ hex +:+ "-p" +:+ JsString.of_N pageNum))
         pageResults)
      (fun _ =>
         _ <- console (ConsoleError (cairo_error_message pageNum)) ;;;
         ret (pageResults
                ++ [error_result fileName pageNum (cairo_error_message pageNum)]))
      (CallRandomBytes 8 :: CallMkdir (localTmpRoot env) :: h).
Proof.
  intros Hmk Hrnd. unfold full_page_stage, bind at 1, call at 1. rewrite Hmk.
  unfold bind at 1, call at 1. by rewrite Hrnd.
Qed.


End PageFacts.


(** C9.  On a page whose full-page stage has completed, leaving
    [pageResults] in the page's accumulator (an image, an error record,
    or nothing), a throw from the text stage or the embedded-image stage
    makes the page contribute exactly one record to [results], the
    page-level error record; nothing of [pageResults] is appended. *)
Theorem C9_page_error_replaces_the_page_accumulator
    (env : Env) (filePath fileName imageFormat : string) (pageNum : N) (pageCount : Count)
    (cb : option ProgressCallback)
    (results pageResults : list ExtractionResult)
    (h h0 h1 h2 : History) (e : Thrown) :
  report_progress pageNum cb pageCount h = (h0, Normal tt) →
  full_page_stage env filePath fileName pageNum [] h0 = (h1, Normal pageResults) →
  text_and_images env filePath fileName imageFormat pageNum pageResults h1
  = (h2, Throw e) →
  process_page env filePath fileName imageFormat pageNum true cb pageCount results h
  = (h2,
     Normal (results
               ++ [ {| type := None; fileName := fileName; page := pageNum;
                       contents := None;
                       error := Some (message_or e
                                        ("Error processing page "
                                         +:+ JsString.of_N pageNum));
                       isFullPage := None |} ])).
Proof.
  intros Hprogress Hfull Htext. unfold process_page.
  rewrite (bind_of_Normal _ _ _ _ _ Hprogress).
  rewrite (bind_of_Normal _ _ _ _ _ Hfull).
  by apply page_try_of_Throw.
Qed.

Lemma C9_witness :
  let env := Sample.env_of (Sample.failing Scenarios.no_cairo_no_text Sample.calm) in
  snd (full_page_stage env "a.pdf" "a.pdf" 1 [] [])
  = Normal [error_result "a.pdf" 1 (cairo_error_message 1)]
  ∧ snd (process_page env "a.pdf" "a.pdf" "native" 1 true None 1 [] [])
    = Normal [error_result "a.pdf" 1 "Syntax Error: bad content stream"].
Proof.
  intros env. split; [vm_compute; reflexivity|].
  eassert (Hpage : process_page env "a.pdf" "a.pdf" "native" 1 true None 1 [] [] = _).
  { eapply (C9_page_error_replaces_the_page_accumulator
              env "a.pdf" "a.pdf" "native" 1 1 None []).
    - reflexivity.
    - vm_compute. reflexivity.
    - vm_compute. reflexivity. }
  rewrite Hpage. reflexivity.
Defined.




(** ** The page loop and [extractPdf] *)

Section PdfFacts.
Variable env : Env.
Variables filePath fileName imageFormat : string.
Variable fullPageImage : bool.
Variable cb : option ProgressCallback.
Variable pageCount : Count.

Lemma settles_process_page pageNum results :
  settles (process_page env filePath fileName imageFormat pageNum fullPageImage cb
             pageCount results).
Proof.
  unfold process_page, report_progress, page_try.
  repeat first [apply settles_full_page_stage | apply settles_text_and_images
               | settles_step].
Qed.

Lemma settles_pages_loop pages results :
  settles (pages_loop env filePath fileName imageFormat fullPageImage cb pageCount
             pages results).
Proof.
  revert results. induction pages as [|pageNum rest IH]; intros results; simpl.
  - auto with settles.
  - apply settles_bind; [apply settles_process_page | intros; apply IH].
Qed.

Lemma process_page_appends pageNum results h h' results' :
  process_page env filePath fileName imageFormat pageNum fullPageImage cb pageCount
    results h = (h', Normal results') →
  ∃ added, results' = results ++ added ∧ added ≠ [].
Proof.
  unfold process_page. intros H.
  apply bind_Normal in H as (h0 & [] & _ & H).
  apply bind_Normal in H as (h1 & pageResults & _ & H).
  destruct (page_try_appends env filePath fileName imageFormat pageNum
              pageResults results h1) as (h'' & added & Hp & Hne).
  rewrite Hp in H. simplify_eq. by exists added.
Qed.

Lemma pages_loop_appends pages results h h' results' :
  pages_loop env filePath fileName imageFormat fullPageImage cb pageCount pages
    results h = (h', Normal results') →
  ∃ added, results' = results ++ added ∧ (pages ≠ [] → added ≠ []).
Proof.
  revert results h. induction pages as [|pageNum rest IH]; intros results h H.
  - simpl in H. unfold ret in H. simplify_eq.
    exists []. by rewrite app_nil_r.
  - simpl in H. apply bind_Normal in H as (h1 & r1 & Hpage & Hrest).
    apply process_page_appends in Hpage as (a1 & -> & Hne).
    apply IH in Hrest as (a2 & -> & _).
    exists (a1 ++ a2). rewrite app_assoc. split; [done|].
    intros _. by destruct a1.
Qed.

End PdfFacts.

Lemma page_numbers_non_empty (pageCount : N) : pageCount ≠ 0%N → page_numbers pageCount ≠ [].
Proof.
  intros Hne. unfold page_numbers.
  destruct (N.to_nat pageCount) as [|n] eqn:Hn; [lia|done].
Qed.

Example page_numbers_3 : page_numbers 3 = [1; 2; 3]%N.
Proof. reflexivity. Qed.

Example endless_page_numbers_3 : endless_page_numbers 3 = [1; 2; 3]%N.
Proof. reflexivity. Qed.

(** From 2^53 on the page number no longer moves. *)
Lemma endless_page_numbers_stall (iterations i : nat) (pg : N) :
  endless_page_numbers iterations !! i = Some pg →
  pg = N.min (N.of_nat i + 1) (2 ^ 53).
Proof.
  unfold endless_page_numbers.
  change (map ?f ?l) with (f <$> l).
  intros H. apply list_lookup_fmap_Some in H as (k & -> & Hk).
  apply lookup_seq in Hk as [-> _]. f_equal. lia.
Qed.

(** [extractPdf] builds the Poppler wrapper before its [try]: when the
    constructor throws, [extractPdf] throws. *)
Lemma extractPdf_constructor_throws env filePath options cb h e :
  Poppler_new env h = Throw e →
  extractPdf env filePath options cb h = (CallNewPoppler :: h, Throw e).
Proof. intros Hnew. unfold extractPdf, bind at 1, call at 1. by rewrite Hnew. Qed.

(** A report that gives no page count, or the count 0. *)
Lemma extractPdf_undetermined env filePath options cb h info :
  Poppler_new env h = Normal tt →
  poppler_pdfInfo env (CallNewPoppler :: h) filePath = Normal info →
  page_count info = Safe 0 →
  extractPdf env filePath options cb h
  = (CallPdfInfo filePath :: CallNewPoppler :: h,
     Normal [error_result (path_basename env filePath) 1
               "Unable to determine PDF page count"]).
Proof.
  intros Hnew Hinfo Hcount. unfold extractPdf, bind at 1, call at 1. rewrite Hnew.
  unfold try_catch, bind at 1, call at 1. rewrite Hinfo.
  cbv zeta. by rewrite Hcount.
Qed.

(** A count of [n] pages, not zero and below 2^53: [extractPdf] is the
    guarded page loop over the pages 1 to [n]. *)
Lemma extractPdf_counted env filePath options cb h info (n : N) :
  Poppler_new env h = Normal tt →
  poppler_pdfInfo env (CallNewPoppler :: h) filePath = Normal info →
  page_count info = Safe n → n ≠ 0%N →
  extractPdf env filePath options cb h
  = try_catch
      (pages_loop env filePath (path_basename env filePath)
         (default "native" (imageFormat (default no_pdf_options options)))
         (default false (fullPageImage (default no_pdf_options options)))
         cb n (page_numbers n) [])
      (fun e =>
         ret [error_result (path_basename env filePath) 1
                (message_or e "An unknown error occurred while parsing the .pdf file.")])
      (CallPdfInfo filePath :: CallNewPoppler :: h).
Proof.
  intros Hnew Hinfo Hcount Hn. unfold extractPdf, bind at 1, call at 1. rewrite Hnew.
  unfold try_catch, bind at 1, call at 1. rewrite Hinfo.
  cbv zeta. rewrite Hcount. apply N.eqb_neq in Hn. by rewrite Hn.
Qed.

(** A count of at least 2^53: the loop is observed for [loop_horizon]
    iterations; unless one of them aborts it, the run is unfinished. *)
Lemma extractPdf_endless env filePath options cb h info :
  Poppler_new env h = Normal tt →
  poppler_pdfInfo env (CallNewPoppler :: h) filePath = Normal info →
  page_count info = Unsafe →
  extractPdf env filePath options cb h
  = try_catch
      (_ <- pages_loop env filePath (path_basename env filePath)
              (default "native" (imageFormat (default no_pdf_options options)))
              (default false (fullPageImage (default no_pdf_options options)))
              cb Unsafe (endless_page_numbers (loop_horizon env)) [] ;;;
       unfinished)
      (fun e =>
         ret [error_result (path_basename env filePath) 1
                (message_or e "An unknown error occurred while parsing the .pdf file.")])
      (CallPdfInfo filePath :: CallNewPoppler :: h).
Proof.
  intros Hnew Hinfo Hcount. unfold extractPdf, bind at 1, call at 1. rewrite Hnew.
  unfold try_catch, bind at 1, call at 1. rewrite Hinfo.
  cbv zeta. by rewrite Hcount.
Qed.

Lemma extractPdf_rejected env filePath options cb h e :
  Poppler_new env h = Normal tt →
  poppler_pdfInfo env (CallNewPoppler :: h) filePath = Throw e →
  extractPdf env filePath options cb h
  = (CallPdfInfo filePath :: CallNewPoppler :: h,
     Normal [error_result (path_basename env filePath) 1
               (message_or e "An unknown error occurred while parsing the .pdf file.")]).
Proof.
  intros Hnew He. unfold extractPdf, bind at 1, call at 1. rewrite Hnew.
  unfold try_catch, bind at 1, call at 1. by rewrite He.
Qed.

(** Past the constructor nothing escapes [extractPdf]. *)
Lemma extractPdf_past_the_constructor env filePath options cb h e :
  Poppler_new env h = Normal tt →
  snd (extractPdf env filePath options cb h) ≠ Throw e.
Proof.
  intros Hnew. unfold extractPdf, bind at 1, call at 1. rewrite Hnew.
  unfold try_catch.
  match goal with
  | |- context [bind ?m ?k (CallNewPoppler :: h)] =>
      destruct (bind m k (CallNewPoppler :: h)) as [h' [[results|e']|]]
  end; done.
Qed.

(** Past the constructor, and unless the page count is 2^53 or more,
    [extractPdf] returns, and returns at least one record. *)
Lemma extractPdf_returns_non_empty env filePath options cb h :
  Poppler_new env h = Normal tt →
  (∀ info, poppler_pdfInfo env (CallNewPoppler :: h) filePath = Normal info →
           page_count info ≠ Unsafe) →
  ∃ h' results,
    extractPdf env filePath options cb h = (h', Normal results) ∧ results ≠ [].
Proof.
  intros Hnew Hsafe.
  destruct (poppler_pdfInfo env (CallNewPoppler :: h) filePath) as [info|e] eqn:Hinfo.
  - specialize (Hsafe info eq_refl).
    destruct (page_count info) as [n|] eqn:Hcount; [|done].
    destruct (decide (n = 0%N)) as [->|Hn].
    + rewrite (extractPdf_undetermined _ _ _ _ _ _ Hnew Hinfo Hcount). by eexists _, _.
    + rewrite (extractPdf_counted _ _ _ _ _ _ _ Hnew Hinfo Hcount Hn).
      unfold try_catch.
      match goal with
      | |- context [pages_loop ?e ?f ?nm ?fmt ?full ?c ?pc ?pages ?rs ?h0] =>
          destruct (settles_pages_loop e f nm fmt full c pc pages rs h0)
            as (h' & [results|e'] & Hloop)
      end; rewrite Hloop.
      * exists h', results. split; [done|].
        apply pages_loop_appends in Hloop as (added & -> & Hne).
        apply Hne. by apply page_numbers_non_empty.
      * by eexists _, _.
  - rewrite (extractPdf_rejected _ _ _ _ _ _ Hnew Hinfo). by eexists _, _.
Qed.

Lemma extractPdf_non_empty env filePath options cb h h' results :
  extractPdf env filePath options cb h = (h', Normal results) → results ≠ [].
Proof.
  unfold extractPdf. intros H.
  apply bind_Normal in H as (h0 & [] & _ & H).
  apply try_catch_Normal in H as [H|(h1 & e & _ & H)].
  - apply bind_Normal in H as (h1 & info & _ & H). cbv beta zeta in H.
    destruct (page_count info) as [n|].
    + destruct (n =? 0)%N eqn:Hn.
      * unfold ret in H. by simplify_eq.
      * apply N.eqb_neq in Hn.
        apply pages_loop_appends in H as (added & -> & Hne).
        apply Hne. by apply page_numbers_non_empty.
    + apply bind_Normal in H as (h2 & rs & _ & H). by unfold unfinished in H.
  - unfold ret in H. by simplify_eq.
Qed.

(** ** The page count *)








(** The pattern asks for whitespace after the colon: a report that has
    none there gives no count, whatever its digits. *)
Example a_count_without_whitespace_is_not_read :
  let report := "Pages:7" in
  claimed_pages_line report "7"
  ∧ extractPdf (Sample.env_of (Scenarios.with_pdf_info (InfoText report) Sample.calm))
      "docs/a.pdf" None None []
    = ([CallPdfInfo "docs/a.pdf"; CallNewPoppler],
       Normal [error_result "a.pdf" 1 "Unable to determine PDF page count"]).
Proof.
  split; [|vm_compute; reflexivity].
  exists "", "", "". repeat split. discriminate.
Qed.

(** ** The other extractors *)

Section ExtractorFacts.
Variable env : Env.
Variable filePath : string.

Lemma extractDocx_one_record h :
  ∃ h' r, extractDocx env filePath h = (h', Normal [r]).
Proof.
  unfold extractDocx, try_catch, bind, call, ret.
  destruct (mammoth_extractRawText env h filePath); by eexists _, _.
Qed.


Lemma sheets_to_results_length fileName wb names index h h' results :
  sheets_to_results env fileName wb names index h = (h', Normal results) →
  length results = length names.
Proof.
  revert index h results. induction names as [|name rest IH]; intros index h results H.
  - simpl in H. unfold ret in H. by simplify_eq.
  - simpl in H. apply bind_Normal in H as (h1 & csv & _ & H).
    apply bind_Normal in H as (h2 & more & Hmore & H).
    unfold ret in H. simplify_eq. simpl. f_equal. by eapply IH.
Qed.

Lemma settles_sheets_to_results fileName wb names index :
  settles (sheets_to_results env fileName wb names index).
Proof.
  revert index. induction names as [|name rest IH]; intros index; simpl.
  - auto with settles.
  - repeat first [apply IH | settles_step].
Qed.

Lemma extractXlsx_never_throws : never_throws (extractXlsx env filePath).
Proof.
  apply try_catch_never_throws; [|intros e; apply ret_never_throws].
  repeat first [apply settles_sheets_to_results | settles_step].
Qed.

Lemma extractXlsx_rejected h e :
  XLSX_readFile env h filePath = Throw e →
  extractXlsx env filePath h
  = (CallXlsxReadFile filePath :: h,
     Normal [error_result (path_basename env filePath) 1
               (message_or e "An unknown error occurred while parsing the .xlsx file.")]).
Proof. intros He. unfold extractXlsx, try_catch, bind, call. by rewrite He. Qed.

(** One record per declared sheet, or the single top-level error when a
    sheet fails to serialise. *)
Lemma extractXlsx_opened h wb :
  XLSX_readFile env h filePath = Normal wb →
  ∃ h' results,
    extractXlsx env filePath h = (h', Normal results)
    ∧ (length results = length (SheetNames wb)
       ∨ ∃ e, results
              = [error_result (path_basename env filePath) 1
                   (message_or e "An unknown error occurred while parsing the .xlsx file.")]).
Proof.
  intros Hwb. unfold extractXlsx, try_catch, bind at 1, call at 1. rewrite Hwb.
  destruct (settles_sheets_to_results (path_basename env filePath) wb (SheetNames wb) 0
              (CallXlsxReadFile filePath :: h)) as (h' & [results|e] & Hs); rewrite Hs.
  - exists h', results. split; [done|]. left. by eapply sheets_to_results_length.
  - eexists _, _. split; [reflexivity|]. right. by exists e.
Qed.

Lemma extractXlsx_no_sheets h wb :
  XLSX_readFile env h filePath = Normal wb → SheetNames wb = [] →
  extractXlsx env filePath h = (CallXlsxReadFile filePath :: h, Normal []).
Proof.
  intros Hwb Hnames. unfold extractXlsx, try_catch, bind at 1, call at 1.
  by rewrite Hwb, Hnames.
Qed.

Lemma extractPptx_never_throws : never_throws (extractPptx env filePath).
Proof.
  apply try_catch_never_throws; [|intros e; apply ret_never_throws].
  repeat settles_step.
Qed.

Lemma extractPptx_rejected h e :
  PptxParser_new env h filePath = Throw e →
  extractPptx env filePath h
  = (CallNewPptxParser filePath :: h,
     Normal [error_result (path_basename env filePath) 1
               (message_or e "An unknown error occurred while parsing the .pptx file.")]).
Proof. intros He. unfold extractPptx, try_catch, bind, call. by rewrite He. Qed.

Lemma extractPptx_opened h slides :
  PptxParser_new env h filePath = Normal tt →
  PptxParser_extractText env (CallNewPptxParser filePath :: h) filePath = Normal slides →
  ∃ results,
    extractPptx env filePath h
    = (CallPptxExtractText filePath :: CallNewPptxParser filePath :: h, Normal results)
    ∧ length results = length slides.
Proof.
  intros Hnew Hslides. unfold extractPptx, try_catch, bind, call, ret.
  rewrite Hnew, Hslides. eexists. split; [reflexivity|]. by rewrite length_imap.
Qed.

End ExtractorFacts.


(** ** The facade *)

Section ExtractorResults.
Variable env : Env.
Variable filePath : string.

(** [extractXlsx] returns, and returns nothing exactly for a workbook
    that opens with an empty sheet list. *)
Lemma extractXlsx_result h :
  ∃ h' results,
    extractXlsx env filePath h = (h', Normal results)
    ∧ (results = []
       ↔ ∃ wb, XLSX_readFile env h filePath = Normal wb ∧ SheetNames wb = []).
Proof.
  destruct (XLSX_readFile env h filePath) as [wb|e] eqn:Hwb.
  - destruct (extractXlsx_opened env filePath h wb Hwb) as (h' & results & Hrun & Hlen).
    exists h', results. split; [done|]. split.
    + intros ->. exists wb. split; [done|].
      destruct Hlen as [Hlen|[e He]]; [|done].
      by destruct (SheetNames wb).
    + intros (wb' & Heq & Hnames). simplify_eq.
      rewrite (extractXlsx_no_sheets env filePath h wb' Hwb Hnames) in Hrun.
      by simplify_eq.
  - rewrite (extractXlsx_rejected env filePath h e Hwb). eexists _, _.
    split; [reflexivity|]. split; [done|]. by intros (wb & Heq & _).
Qed.

(** [extractPptx] returns, and returns nothing exactly for a deck that
    opens without a slide. *)
Lemma extractPptx_result h :
  ∃ h' results,
    extractPptx env filePath h = (h', Normal results)
    ∧ (results = []
       ↔ PptxParser_new env h filePath = Normal tt
         ∧ PptxParser_extractText env (CallNewPptxParser filePath :: h) filePath
           = Normal []).
Proof.
  destruct (PptxParser_new env h filePath) as [[]|e] eqn:Hnew.
  - destruct (PptxParser_extractText env (CallNewPptxParser filePath :: h) filePath)
      as [slides|e] eqn:Hslides.
    + destruct (extractPptx_opened env filePath h slides Hnew Hslides)
        as (results & Hrun & Hlen).
      eexists _, results. split; [exact Hrun|]. split.
      * intros ->. split; [done|]. by destruct slides.
      * intros [_ Heq]. simplify_eq. by destruct results.
    + unfold extractPptx, try_catch, bind, call. rewrite Hnew, Hslides.
      eexists _, _. split; [reflexivity|]. split; [done|]. by intros [_ ?].
  - rewrite (extractPptx_rejected env filePath h e Hnew). eexists _, _.
    split; [reflexivity|]. split; [done|]. by intros [? _].
Qed.

End ExtractorResults.

(** The [switch] of [extract] throws only through [extractPdf]'s
    constructor call. *)
Lemma dispatch_Throw env ext filePath options h h' e :
  dispatch env ext filePath options h = (h', Throw e) →
  ext = ".pdf" ∧ Poppler_new env h = Throw e.
Proof.
  unfold dispatch.
  destruct (String.eqb ext ".docx") eqn:E1.
  { destruct (extractDocx_one_record env filePath h) as (h1 & r & ->). done. }
  destruct (String.eqb ext ".xlsx" || String.eqb ext ".xls") eqn:E2.
  { destruct (extractXlsx_never_throws env filePath h) as (h1 & rs & ->). done. }
  destruct (String.eqb ext ".pptx") eqn:E4.
  { destruct (extractPptx_never_throws env filePath h) as (h1 & rs & ->). done. }
  destruct (String.eqb ext ".pdf") eqn:E5; [|done].
  apply String.eqb_eq in E5. intros Hrun. split; [done|].
  destruct (Poppler_new env h) as [[]|e'] eqn:Hnew.
  - exfalso. eapply extractPdf_past_the_constructor; [exact Hnew|].
    by rewrite Hrun.
  - rewrite (extractPdf_constructor_throws _ _ _ _ _ _ Hnew) in Hrun. by simplify_eq.
Qed.

(** Under these provisos the [switch] returns, and returns nothing only
    for a workbook without sheets and for a deck without slides. *)
Lemma dispatch_settles env ext filePath options h :
  (ext = ".pdf" → pdf_returns env filePath h) →
  ∃ h' results,
    dispatch env ext filePath options h = (h', Normal results)
    ∧ (results = []
       ↔ ((ext = ".xlsx" ∨ ext = ".xls")
          ∧ ∃ wb, XLSX_readFile env h filePath = Normal wb ∧ SheetNames wb = [])
         ∨ (ext = ".pptx"
            ∧ PptxParser_new env h filePath = Normal tt
            ∧ PptxParser_extractText env (CallNewPptxParser filePath :: h) filePath
              = Normal [])).
Proof.
  intros Hpdf. unfold dispatch.
  destruct (String.eqb_spec ext ".docx") as [->|E1].
  { destruct (extractDocx_one_record env filePath h) as (h' & r & ->).
    exists h', [r]. split; [done|]. split; [done|].
    intros [[[?|?] _]|[? _]]; done. }
  destruct (String.eqb_spec ext ".xlsx") as [->|E2].
  { simpl. destruct (extractXlsx_result env filePath h) as (h' & rs & -> & Hiff).
    exists h', rs. split; [done|]. rewrite Hiff. split; [by left; split; [left|]|].
    intros [[_ ?]|[? _]]; done. }
  destruct (String.eqb_spec ext ".xls") as [->|E3].
  { simpl. destruct (extractXlsx_result env filePath h) as (h' & rs & -> & Hiff).
    exists h', rs. split; [done|]. rewrite Hiff. split; [by left; split; [right|]|].
    intros [[_ ?]|[? _]]; done. }
  simpl. destruct (String.eqb_spec ext ".pptx") as [->|E4].
  { destruct (extractPptx_result env filePath h) as (h' & rs & -> & Hiff).
    exists h', rs. split; [done|]. rewrite Hiff. split; [by right|].
    intros [[[?|?] _]|[_ ?]]; done. }
  destruct (String.eqb_spec ext ".pdf") as [->|E5].
  { destruct (Hpdf eq_refl) as [Hnew Hsafe].
    destruct (extractPdf_returns_non_empty env filePath (options ≫= pdf)
                (options ≫= progressCallback) h Hnew Hsafe) as (h' & rs & -> & Hne).
    exists h', rs. split; [done|]. split; [done|].
    intros [[[?|?] _]|[? _]]; done. }
  eexists _, _. split; [reflexivity|]. split; [done|].
  intros [[[?|?] _]|[? _]]; done.
Qed.

(** [extract] settles normally whenever [extractPdf] returns and the
    registered processor, if it fails, fails with a value that has a
    message and leaves a first record that can be written. *)
Lemma extract_settles env (reg : Registry) filePath options h :
  let ext := resolved_extension env filePath options in
  (ext = ".pdf" → pdf_returns env filePath h) →
  (∀ config results h' e,
     reg !! ext = Some config →
     completion (invoke config results h') = Throw e →
     is_Some (printable e)
     ∧ ∀ first rest,
         argument_after (invoke config results h') = first :: rest →
         error_write first = None) →
  ∃ h' results, extract env reg filePath options h = (h', Normal results).
Proof.
  intros ext Hpdf Hproc. unfold extract. fold ext.
  destruct (dispatch_settles env ext filePath options h Hpdf) as (h1 & rs & Hd & _).
  rewrite (bind_of_Normal _ _ _ _ _ Hd).
  unfold hash_applyPostProcessor.
  destruct (reg !! ext) as [config|] eqn:Hreg; [|by eexists _, _].
  unfold settle.
  destruct (completion (invoke config rs h1)) as [processed|e] eqn:Hc;
    [by eexists _, _|].
  destruct (Hproc config rs h1 e eq_refl Hc) as [[m Hm] Hwrite].
  rewrite (post_processor_failed_printable _ _ _ _ _ Hm).
  destruct (argument_after (invoke config rs h1)) as [|first rest]; [by eexists _, _|].
  rewrite (Hwrite first rest eq_refl). by eexists _, _.
Qed.




(** A registered processor that returns the empty sequence empties the
    result of [extract] for any format. *)
Example processor_can_empty_the_result :
  snd (extract (Sample.env_of Sample.calm)
         (setDocxPostProcessor (InputFunction Processors.drop_everything) ∅)
         "docs/a.docx" None [])
  = Normal [].
Proof. vm_compute. reflexivity. Qed.

(** C2.  [extract] on a PDF in an environment where constructing the
    Poppler wrapper throws (the binaries are missing): the constructor
    call stands before the [try] of [extractPdf], so the failure is not
    turned into an error record; [extract] completes abruptly with it. *)
Theorem C2_extract_rejects_when_the_Poppler_constructor_throws :
  extract (Sample.env_of (Sample.failing Scenarios.no_poppler Sample.calm)) ∅
    "docs/a.pdf" None []
  = ([CallNewPoppler],
     Throw (ErrorObject "Unable to find linux Poppler binaries, please pass the installation directory as a parameter to the Poppler instance.")).
Proof. vm_compute. reflexivity. Qed.

(** The same in general: whatever the environment, a throwing
    constructor makes [extract] throw for the [.pdf] extension. *)
Lemma extract_rejects_with_the_Poppler_constructor env reg filePath options h e :
  resolved_extension env filePath options = ".pdf" →
  Poppler_new env h = Throw e →
  extract env reg filePath options h = (CallNewPoppler :: h, Throw e).
Proof.
  intros Hext Hnew. unfold extract. rewrite Hext. unfold dispatch. simpl.
  erewrite bind_of_Throw; [reflexivity|].
  by apply extractPdf_constructor_throws.
Qed.

(** The slide-deck extractor, by contrast, builds its parser inside its
    [try]: a throwing constructor becomes an error record. *)
Example extractPptx_catches_its_constructor :
  snd (extract (Sample.env_of (Sample.failing Scenarios.corrupt Sample.calm)) ∅
         "docs/a.pptx" None [])
  = Normal [error_result "a.pptx" 1 "not a pptx file"].
Proof. vm_compute. reflexivity. Qed.

(** The [catch] block of [#applyPostProcessor] can throw as well: a
    processor that throws a value without a string conversion makes
    [extract] complete abruptly with the conversion's [TypeError]. *)
Example extract_rejects_on_an_unprintable_failure :
  snd (extract (Sample.env_of Sample.calm)
         (setDocxPostProcessor (InputFunction Processors.throw_bare_object) ∅)
         "docs/a.docx" None [])
  = Throw (ErrorObject "Cannot convert object to primitive value").
Proof. vm_compute. reflexivity. Qed.

(** A failure while creating the scratch directory of the full-page
    stage is outside that stage's [try]: it ends the whole document with
    the single top-level error record. *)
Example full_page_setup_failure_ends_the_document :
  snd (extractPdf
         (Sample.env_of
            (Sample.failing
               (fun ev => match ev with
                          | CallMkdir _ => Some (ErrorObject "EACCES: permission denied")
                          | _ => None
                          end)
               Sample.calm))
         "docs/a.pdf" Scenarios.full_page None [])
  = Normal [error_result "a.pdf" 1 "EACCES: permission denied"].
Proof. vm_compute. reflexivity. Qed.

(** * Further properties of the code *)

(** ** Registry keys *)

Lemma lower_char_idempotent (c : ascii) :
  JsString.lower_char (JsString.lower_char c) = JsString.lower_char c.
Proof. destruct c as [[] [] [] [] [] [] [] []]; vm_compute; reflexivity. Qed.

Lemma toLowerCase_idempotent (s : string) :
  JsString.toLowerCase (JsString.toLowerCase s) = JsString.toLowerCase s.
Proof.
  induction s as [|c s IH]; [done|].
  simpl. by rewrite lower_char_idempotent, IH.
Qed.

Lemma startsWith_dot_toLowerCase (s : string) :
  JsString.startsWith (JsString.toLowerCase s) "." = JsString.startsWith s ".".
Proof.
  destruct s as [|c s]; [done|].
  destruct c as [[] [] [] [] [] [] [] []]; reflexivity.
Qed.

Lemma with_leading_dot_dotted (s : string) :
  JsString.startsWith (with_leading_dot s) "." = true.
Proof.
  unfold with_leading_dot. by destruct (JsString.startsWith s ".") eqn:Hs.
Qed.

Lemma with_leading_dot_of_dotted (s : string) :
  JsString.startsWith s "." = true → with_leading_dot s = s.
Proof. unfold with_leading_dot. by intros ->. Qed.

Lemma with_leading_dot_toLowerCase (s : string) :
  with_leading_dot (JsString.toLowerCase s) = JsString.toLowerCase (with_leading_dot s).
Proof.
  unfold with_leading_dot. rewrite startsWith_dot_toLowerCase.
  by destruct (JsString.startsWith s ".").
Qed.

Lemma registry_key_dotted (extension : string) :
  JsString.startsWith (registry_key extension) "." = true.
Proof.
  unfold registry_key. rewrite startsWith_dot_toLowerCase.
  apply with_leading_dot_dotted.
Qed.

Lemma registry_key_lowercase (extension : string) :
  JsString.toLowerCase (registry_key extension) = registry_key extension.
Proof. apply toLowerCase_idempotent. Qed.

Lemma registry_key_idempotent (extension : string) :
  registry_key (registry_key extension) = registry_key extension.
Proof.
  unfold registry_key at 1.
  rewrite with_leading_dot_of_dotted by apply registry_key_dotted.
  apply registry_key_lowercase.
Qed.

Lemma registry_key_toLowerCase (extension : string) :
  registry_key (JsString.toLowerCase extension) = registry_key extension.
Proof.
  unfold registry_key. rewrite with_leading_dot_toLowerCase.
  apply toLowerCase_idempotent.
Qed.

Lemma registry_key_add_dot (extension : string) :
  JsString.startsWith extension "." = false →
  registry_key ("." +:+ extension) = registry_key extension.
Proof. intros Hdot. unfold registry_key, with_leading_dot. by rewrite Hdot. Qed.

Lemma registry_key_fixed_iff (k : string) :
  registry_key k = k ↔ JsString.startsWith k "." = true ∧ JsString.toLowerCase k = k.
Proof.
  split.
  - intros Hk. rewrite <- Hk.
    split; [apply registry_key_dotted | apply registry_key_lowercase].
  - intros [Hdot Hlow]. unfold registry_key.
    by rewrite with_leading_dot_of_dotted.
Qed.

Lemma setPostProcessor_insert extension input (reg : Registry) :
  setPostProcessor extension input reg
  = <[registry_key extension := stored_entry input]> reg.
Proof. unfold setPostProcessor. apply hash_setPostProcessor_insert. Qed.

(** X1.  [setPostProcessor] files the processor under the canonical key
    of the extension (dot added if missing, lowercased) and touches no
    other key; extensions that differ only in letter case or in the
    leading dot are the same registration, and so is the canonical key
    itself. *)
Theorem X1_setPostProcessor_files_under_the_canonical_key
    (extension : string) (input : PostProcessorInput) (reg : Registry) :
  let key := registry_key extension in
  setPostProcessor extension input reg !! key = Some (stored_entry input)
  ∧ (∀ k : string, k ≠ key → setPostProcessor extension input reg !! k = reg !! k)
  ∧ JsString.startsWith key "." = true
  ∧ JsString.toLowerCase key = key
  ∧ setPostProcessor (JsString.toLowerCase extension) input reg
    = setPostProcessor extension input reg
  ∧ (JsString.startsWith extension "." = false →
     setPostProcessor ("." +:+ extension) input reg
     = setPostProcessor extension input reg)
  ∧ setPostProcessor key input reg = setPostProcessor extension input reg.
Proof.
  intros key. rewrite !setPostProcessor_insert. fold key.
  split; [apply lookup_insert_eq|].
  split; [intros k Hk; by apply lookup_insert_ne|].
  split; [apply registry_key_dotted|].
  split; [apply registry_key_lowercase|].
  split; [by rewrite registry_key_toLowerCase|].
  split; [intros Hdot; by rewrite registry_key_add_dot|].
  unfold key. by rewrite registry_key_idempotent.
Qed.

Lemma X1_witness :
  let reg := setPostProcessor "Docx" (InputFunction Processors.errorProcessor) ∅ in
  reg !! ".docx" = Some (stored_entry (InputFunction Processors.errorProcessor))
  ∧ reg !! "Docx" = None
  ∧ setPostProcessor ".Docx" (InputFunction Processors.errorProcessor) ∅ = reg.
Proof.
  intros reg.
  destruct (X1_setPostProcessor_files_under_the_canonical_key
              "Docx" (InputFunction Processors.errorProcessor) ∅)
    as (Hkey & Hother & _ & _ & _ & Hdot & _).
  split; [exact Hkey|]. split.
  - unfold reg. rewrite Hother by discriminate. apply lookup_empty.
  - exact (Hdot eq_refl).
Defined.

(** The typed setters are the generic setter at their extension. *)
Lemma typed_setters_are_generic input (reg : Registry) :
  setDocxPostProcessor input reg = setPostProcessor "docx" input reg
  ∧ setPptxPostProcessor input reg = setPostProcessor "pptx" input reg
  ∧ setPdfPostProcessor input reg = setPostProcessor "pdf" input reg
  ∧ setXlsxPostProcessor input reg
    = setPostProcessor "xls" input (setPostProcessor "xlsx" input reg).
Proof. done. Qed.

Lemma canonical_keys_insert (reg : Registry) extension entry :
  canonical_keys reg → canonical_keys (<[registry_key extension := entry]> reg).
Proof.
  intros Hreg k Hk.
  destruct (decide (registry_key extension = k)) as [<-|Hne].
  - apply registry_key_idempotent.
  - rewrite lookup_insert_ne in Hk by done. by apply Hreg.
Qed.

Lemma canonical_keys_delete (reg : Registry) key :
  canonical_keys reg → canonical_keys (delete key reg).
Proof.
  intros Hreg k Hk. apply Hreg.
  destruct (decide (key = k)) as [->|Hne].
  - rewrite lookup_delete_eq in Hk. by destruct Hk.
  - by rewrite lookup_delete_ne in Hk.
Qed.

Lemma reachable_canonical (reg : Registry) : reachable reg → canonical_keys reg.
Proof.
  induction 1 as [|input reg _ IH|input reg _ IH|input reg _ IH|input reg _ IH
                  |extension input reg _ IH|extension reg _ IH|reg _ IH].
  - intros k Hk. rewrite lookup_empty in Hk. by destruct Hk.
  - destruct (typed_setters_are_generic input reg) as (-> & _).
    rewrite setPostProcessor_insert. by apply canonical_keys_insert.
  - destruct (typed_setters_are_generic input reg) as (_ & _ & _ & ->).
    rewrite !setPostProcessor_insert. by do 2 apply canonical_keys_insert.
  - destruct (typed_setters_are_generic input reg) as (_ & -> & _).
    rewrite setPostProcessor_insert. by apply canonical_keys_insert.
  - destruct (typed_setters_are_generic input reg) as (_ & _ & -> & _).
    rewrite setPostProcessor_insert. by apply canonical_keys_insert.
  - rewrite setPostProcessor_insert. by apply canonical_keys_insert.
  - by apply canonical_keys_delete.
  - intros k Hk. unfold clearAllPostProcessors in Hk.
    rewrite lookup_empty in Hk. by destruct Hk.
Qed.

(** X2.  Whatever sequence of setters and clearers built the registry,
    each of its keys starts with a dot and is lowercase; so a lookup
    under an extension that lacks the dot or has an upper-case letter
    finds nothing, and [#applyPostProcessor] returns the results as they
    are. *)
Theorem X2_registry_keys_are_canonical
    (reg : Registry) (ext : string) (results : list ExtractionResult) (h : History) :
  reachable reg →
  (∀ k : string, is_Some (reg !! k) →
     JsString.startsWith k "." = true ∧ JsString.toLowerCase k = k)
  ∧ (JsString.startsWith ext "." = false ∨ JsString.toLowerCase ext ≠ ext →
     reg !! ext = None
     ∧ hash_applyPostProcessor reg ext results h = (h, Normal results)).
Proof.
  intros Hreach. pose proof (reachable_canonical reg Hreach) as Hcanon.
  split.
  - intros k Hk. by apply registry_key_fixed_iff, Hcanon.
  - intros Hbad.
    assert (Hnone : reg !! ext = None).
    { destruct (reg !! ext) as [entry|] eqn:Hext; [|done].
      exfalso. assert (Hfix : registry_key ext = ext) by (apply Hcanon; by eexists).
      apply registry_key_fixed_iff in Hfix as [Hdot Hlow].
      destruct Hbad as [Hbad|Hbad]; congruence. }
    split; [exact Hnone|]. by apply applyPostProcessor_unregistered.
Qed.

Lemma X2_witness :
  let reg :=
    clearPostProcessor "pptx"
      (setPostProcessor "PDF" (InputFunction Processors.drop_everything)
         (setXlsxPostProcessor (InputFunction Processors.errorProcessor) ∅)) in
  reg !! "pdf" = None
  ∧ hash_applyPostProcessor reg ".PDF" Processors.two_pages []
    = ([], Normal Processors.two_pages).
Proof.
  intros reg.
  assert (Hreach : reachable reg) by (repeat constructor).
  split.
  - apply (X2_registry_keys_are_canonical reg "pdf" [] [] Hreach).
    left. reflexivity.
  - apply (X2_registry_keys_are_canonical reg ".PDF" Processors.two_pages [] Hreach).
    right. discriminate.
Defined.

(** ** Registering, replacing and clearing *)

Lemma clearPostProcessor_delete extension (reg : Registry) :
  clearPostProcessor extension reg = delete (registry_key extension) reg.
Proof. reflexivity. Qed.

(** X3.  The registry holds at most one entry per extension: registering
    again under an extension with the same canonical key replaces the
    earlier registration, as if it had never been made. *)
Theorem X3_last_registration_wins
    (first second : string) (a b : PostProcessorInput) (reg : Registry) :
  registry_key first = registry_key second →
  setPostProcessor second b (setPostProcessor first a reg) = setPostProcessor second b reg
  ∧ setPostProcessor second b (setPostProcessor first a reg) !! registry_key first
    = Some (stored_entry b).
Proof.
  intros Hkey. rewrite !setPostProcessor_insert, Hkey.
  split; [apply insert_insert_eq | apply lookup_insert_eq].
Qed.

Lemma X3_witness :
  let a := InputFunction Processors.errorProcessor in
  let b := InputObject Processors.report_receiver (Some (VObject 1)) in
  setPostProcessor ".DOCX" b (setDocxPostProcessor a ∅) = setDocxPostProcessor b ∅
  ∧ snd (extract (Sample.env_of Sample.calm)
           (setPostProcessor ".DOCX" b (setDocxPostProcessor a ∅)) "docs/a.docx" None [])
    = Normal [Processors.tagged "called on the registered context"].
Proof.
  intros a b.
  destruct (X3_last_registration_wins "docx" ".DOCX" a b ∅ eq_refl) as [Hsame _].
  split.
  - exact Hsame.
  - change (setDocxPostProcessor a ∅) with (setPostProcessor "docx" a ∅).
    rewrite Hsame. vm_compute. reflexivity.
Defined.

(** X4.  Clearing undoes a registration: on a registry without an entry
    for the extension, registering and then clearing gives back the
    registry itself; clearing an extension that has no entry changes
    nothing, and clearing twice is clearing once. *)
Theorem X4_clear_undoes_register
    (registered cleared : string) (input : PostProcessorInput) (reg : Registry) :
  registry_key registered = registry_key cleared →
  (reg !! registry_key registered = None →
   clearPostProcessor cleared (setPostProcessor registered input reg) = reg
   ∧ clearPostProcessor cleared reg = reg)
  ∧ clearPostProcessor cleared (setPostProcessor registered input reg) !! registry_key registered
    = None
  ∧ clearPostProcessor cleared (clearPostProcessor registered reg)
    = clearPostProcessor registered reg.
Proof.
  intros Hkey. rewrite !clearPostProcessor_delete, setPostProcessor_insert, <- Hkey.
  split; [|split].
  - intros Hnone. split; [by apply delete_insert_id | by apply delete_id].
  - apply lookup_delete_eq.
  - apply delete_delete_eq.
Qed.

Lemma X4_witness :
  let reg := setPdfPostProcessor (InputFunction Processors.errorProcessor) ∅ in
  clearPostProcessor "XLS" (setPostProcessor ".xls" (InputFunction Processors.drop_everything) reg)
  = reg
  ∧ clearPostProcessor "docx" reg = reg.
Proof.
  intros reg. split.
  - destruct (X4_clear_undoes_register ".xls" "XLS"
                (InputFunction Processors.drop_everything) reg eq_refl) as [Hundo _].
    apply Hundo. reflexivity.
  - destruct (X4_clear_undoes_register "docx" "docx"
                (InputFunction Processors.drop_everything) reg eq_refl) as [Hundo _].
    apply Hundo. reflexivity.
Defined.

(** ** What [extract] reads from the registry *)

(** X5.  [extract] consults the registry only at the resolved extension:
    two registries that agree there give the same run, whatever they
    hold elsewhere.  In particular, with no entry for the resolved
    extension, and so after [clearAllPostProcessors], [extract] is
    exactly the [switch] over the extractors. *)
Theorem X5_extract_reads_one_registry_entry
    (env : Env) (reg reg' : Registry) (filePath : string)
    (options : option ExtractionOptions) (h : History) :
  let ext := resolved_extension env filePath options in
  (reg !! ext = reg' !! ext →
   extract env reg filePath options h = extract env reg' filePath options h)
  ∧ (reg !! ext = None →
     extract env reg filePath options h = dispatch env ext filePath options h)
  ∧ extract env (clearAllPostProcessors reg) filePath options h
    = dispatch env ext filePath options h.
Proof.
  intros ext.
  assert (Hnone : ∀ r : Registry, r !! ext = None →
            extract env r filePath options h = dispatch env ext filePath options h).
  { intros r Hr. unfold extract, bind. fold ext.
    destruct (dispatch env ext filePath options h) as [h' [[rs|e]|]]; [|done..].
    by apply applyPostProcessor_unregistered. }
  split; [|split].
  - intros Hsame. unfold extract, bind, hash_applyPostProcessor. fold ext.
    by rewrite Hsame.
  - apply Hnone.
  - apply Hnone. apply lookup_empty.
Qed.

Lemma X5_witness :
  let reg := setDocxPostProcessor (InputFunction Processors.drop_everything) ∅ in
  extract (Sample.env_of Sample.calm) reg "docs/a.pdf" None []
  = extract (Sample.env_of Sample.calm) ∅ "docs/a.pdf" None []
  ∧ snd (extract (Sample.env_of Sample.calm) reg "docs/a.pdf" None [])
    = Normal [content_result TypeText "a.pdf" 1 "page text"].
Proof.
  intros reg.
  destruct (X5_extract_reads_one_registry_entry
              (Sample.env_of Sample.calm) reg ∅ "docs/a.pdf" None [])
    as (Hsame & Hnone & _).
  split.
  - apply Hsame. reflexivity.
  - rewrite (Hnone eq_refl). vm_compute. reflexivity.
Defined.

(** ** When [#applyPostProcessor] itself fails *)

(** X6.  [#applyPostProcessor] completes abruptly in exactly these
    cases: a processor is registered, its call failed, the array it was
    given is non-empty afterwards, and either the failure is a value
    that is no [Error] and whose string conversion throws, or the
    failure has a text and assigning [error] on the array's first
    element throws (a frozen record, or an element that is no object).
    What escapes is what the conversion, or the assignment, threw.  With
    an empty array neither is attempted. *)
Theorem X6_the_two_ways_applyPostProcessor_throws
    (reg : Registry) (ext : string) (results : list ExtractionResult)
    (h : History) (t : Thrown) :
  snd (hash_applyPostProcessor reg ext results h) = Throw t
  ↔ ∃ config e first rest,
      reg !! ext = Some config
      ∧ completion (invoke config results h) = Throw e
      ∧ argument_after (invoke config results h) = first :: rest
      ∧ (e = Unprintable t
         ∨ (is_Some (printable e) ∧ error_write first = Some t)).
Proof.
  unfold hash_applyPostProcessor. split.
  - destruct (reg !! ext) as [config|]; [|done].
    unfold settle. intros Hthrow. exists config.
    destruct (completion (invoke config results h)) as [processed|e]; [done|].
    exists e.
    unfold post_processor_failed, bind, console in Hthrow.
    destruct (argument_after (invoke config results h)) as [|first rest]; [done|].
    exists first, rest. split; [done|]. split; [done|]. split; [done|].
    destruct e as [m|s|raised]; simpl in Hthrow.
    + right. split; [by eexists|].
      destruct (error_write first); simpl in Hthrow; by simplify_eq.
    + right. split; [by eexists|].
      destruct (error_write first); simpl in Hthrow; by simplify_eq.
    + left. by simplify_eq.
  - intros (config & e & first & rest & -> & Hc & Hleft & Hway). unfold settle.
    rewrite Hc, Hleft. unfold post_processor_failed, bind, console.
    destruct Hway as [->|[[m Hm] Hwrite]]; [done|].
    destruct e; simpl in Hm; simplify_eq; simpl; by rewrite Hwrite.
Qed.

Example applyPostProcessor_on_nothing_never_converts :
  hash_applyPostProcessor
    (setDocxPostProcessor (InputFunction Processors.throw_bare_object) ∅) ".docx" [] []
  = ([ConsoleError "Post-processor for .docx failed:"], Normal []).
Proof. reflexivity. Qed.

Lemma X6_witness :
  snd (hash_applyPostProcessor
         (setDocxPostProcessor (InputFunction Processors.throw_bare_object) ∅)
         ".docx" Processors.two_pages [])
  = Throw (ErrorObject "Cannot convert object to primitive value")
  ∧ snd (hash_applyPostProcessor
           (setDocxPostProcessor (InputFunction Processors.freeze_first_then_throw) ∅)
           ".docx" Processors.two_pages [])
    = Throw (ErrorObject "Cannot add property error, object is not extensible").
Proof.
  split.
  - apply (X6_the_two_ways_applyPostProcessor_throws
             (setDocxPostProcessor (InputFunction Processors.throw_bare_object) ∅)
             ".docx" Processors.two_pages []).
    eexists (stored_entry (InputFunction Processors.throw_bare_object)), _, _, _.
    split; [reflexivity|]. split; [reflexivity|]. split; [reflexivity|]. by left.
  - apply (X6_the_two_ways_applyPostProcessor_throws
             (setDocxPostProcessor (InputFunction Processors.freeze_first_then_throw) ∅)
             ".docx" Processors.two_pages []).
    eexists (stored_entry (InputFunction Processors.freeze_first_then_throw)), _, _, _.
    split; [reflexivity|]. split; [reflexivity|]. split; [reflexivity|].
    right. split; [by eexists | reflexivity].
Defined.

(** ** Which failures escape *)

(** X7.  Of the four extractors only [extractPdf] can complete abruptly,
    and it does so exactly when constructing the Poppler wrapper throws,
    with what the constructor threw; [extractDocx], [extractXlsx] and
    [extractPptx] turn every failure of their parser into a returned
    record. *)
Theorem X7_only_the_Poppler_constructor_escapes_an_extractor
    (env : Env) (filePath : string) (options : option PdfExtractionOptions)
    (cb : option ProgressCallback) (h : History) :
  (∃ h' results, extractDocx env filePath h = (h', Normal results))
  ∧ (∃ h' results, extractXlsx env filePath h = (h', Normal results))
  ∧ (∃ h' results, extractPptx env filePath h = (h', Normal results))
  ∧ (∀ e, snd (extractPdf env filePath options cb h) = Throw e
          ↔ Poppler_new env h = Throw e).
Proof.
  split; [|split; [|split]].
  - destruct (extractDocx_one_record env filePath h) as (h' & r & ->). by eexists _, _.
  - apply extractXlsx_never_throws.
  - apply extractPptx_never_throws.
  - intros e. split.
    + intros Hthrow. destruct (Poppler_new env h) as [[]|e'] eqn:Hnew.
      * by apply extractPdf_past_the_constructor in Hthrow.
      * rewrite (extractPdf_constructor_throws _ _ _ _ _ _ Hnew) in Hthrow.
        simpl in Hthrow. by simplify_eq.
    + intros Hnew. by rewrite (extractPdf_constructor_throws _ _ _ _ _ _ Hnew).
Qed.

Lemma X7_witness :
  snd (extractPdf (Sample.env_of (Sample.failing Scenarios.no_poppler Sample.calm))
         "docs/a.pdf" None None [])
  = Throw (ErrorObject "Unable to find linux Poppler binaries, please pass the installation directory as a parameter to the Poppler instance.").
Proof.
  apply (X7_only_the_Poppler_constructor_escapes_an_extractor
           (Sample.env_of (Sample.failing Scenarios.no_poppler Sample.calm))
           "docs/a.pdf" None None []).
  reflexivity.
Defined.

(** X8.  [extract] completes abruptly in exactly two ways: the resolved
    extension is [.pdf] and the Poppler constructor throws, or the
    extractor returned and [#applyPostProcessor] failed on its results
    (see X6).  Nothing else escapes. *)
Theorem X8_the_two_ways_extract_rejects
    (env : Env) (reg : Registry) (filePath : string)
    (options : option ExtractionOptions) (h : History) (t : Thrown) :
  let ext := resolved_extension env filePath options in
  snd (extract env reg filePath options h) = Throw t
  ↔ (ext = ".pdf" ∧ Poppler_new env h = Throw t)
    ∨ (∃ h1 results,
         dispatch env ext filePath options h = (h1, Normal results)
         ∧ snd (hash_applyPostProcessor reg ext results h1) = Throw t).
Proof.
  intros ext. unfold extract. fold ext. split.
  - intros Hthrow.
    destruct (dispatch env ext filePath options h) as [h1 [[rs|e]|]] eqn:Hd.
    + right. exists h1, rs. split; [done|].
      by rewrite (bind_of_Normal _ _ _ _ _ Hd) in Hthrow.
    + left. rewrite (bind_of_Throw _ _ _ _ _ Hd) in Hthrow. simpl in Hthrow.
      simplify_eq. by eapply dispatch_Throw.
    + unfold bind in Hthrow. by rewrite Hd in Hthrow.
  - intros [[Hpdf Hnew]|(h1 & rs & Hd & Hthrow)].
    + erewrite bind_of_Throw; [reflexivity|].
      rewrite Hpdf. unfold dispatch. simpl.
      by apply extractPdf_constructor_throws.
    + by rewrite (bind_of_Normal _ _ _ _ _ Hd).
Qed.

Lemma X8_witness :
  snd (extract (Sample.env_of Sample.calm)
         (setPdfPostProcessor (InputFunction Processors.throw_bare_object) ∅)
         "docs/a.pdf" None [])
  = Throw (ErrorObject "Cannot convert object to primitive value").
Proof.
  apply (X8_the_two_ways_extract_rejects (Sample.env_of Sample.calm)
           (setPdfPostProcessor (InputFunction Processors.throw_bare_object) ∅)
           "docs/a.pdf" None []).
  right. eexists _, _. split; [vm_compute; reflexivity|]. reflexivity.
Defined.

(** ** Sheets and slides *)

Section SheetFacts.
Variable env : Env.
Variable fileName : string.
Variable wb : Workbook.

Lemma rev_sheet_calls_cons name names (h : History) :
  rev (sheet_calls wb (name :: names)) ++ h
  = rev (sheet_calls wb names) ++ CallSheetToCsv (Sheets wb !! name) :: h.
Proof. unfold sheet_calls. simpl. by rewrite <- app_assoc. Qed.

Lemma sheets_to_results_Normal names index h h' results :
  sheets_to_results env fileName wb names index h = (h', Normal results) →
  length results = length names
  ∧ ∀ i name,
      names !! i = Some name →
      ∃ csv,
        XLSX_sheet_to_csv env (rev (sheet_calls wb (take i names)) ++ h)
          (Sheets wb !! name) = Normal csv
        ∧ results !! i
          = Some (content_result TypeCsv fileName (index + N.of_nat i + 1) csv).
Proof.
  revert index h results. induction names as [|first rest IH]; intros index h results H.
  - simpl in H. unfold ret in H. simplify_eq. split; [done|]. by intros i name Hi.
  - simpl in H. apply bind_Normal in H as (h1 & csv & Hcall & H).
    apply bind_Normal in H as (h2 & more & Hmore & H).
    unfold ret in H. unfold call in Hcall. simplify_eq.
    destruct (IH _ _ _ Hmore) as [Hlen Hrest].
    split; [simpl; by rewrite Hlen|].
    intros [|i] name Hi; simpl in Hi.
    + simplify_eq. exists csv. split; [done|]. simpl. do 2 f_equal. lia.
    + destruct (Hrest i name Hi) as (csv' & Hanswer & Hlookup).
      exists csv'. split.
      * change (take (S i) (first :: rest)) with (first :: take i rest).
        by rewrite rev_sheet_calls_cons.
      * simpl. rewrite Hlookup. do 2 f_equal. lia.
Qed.

Lemma sheets_to_results_Throw names index h h' e :
  sheets_to_results env fileName wb names index h = (h', Throw e) →
  ∃ i name,
    names !! i = Some name
    ∧ XLSX_sheet_to_csv env (rev (sheet_calls wb (take i names)) ++ h)
        (Sheets wb !! name) = Throw e.
Proof.
  revert index h. induction names as [|first rest IH]; intros index h H.
  - simpl in H. unfold ret in H. done.
  - simpl in H. apply bind_Throw in H as [Hcall|(h1 & csv & Hcall & H)].
    + unfold call in Hcall. simplify_eq. by exists 0, first.
    + unfold call in Hcall. simplify_eq.
      apply bind_Throw in H as [Hmore|(h2 & more & _ & H)]; [|by unfold ret in H].
      destruct (IH _ _ Hmore) as (i & name & Hi & Hanswer).
      exists (S i), name. split; [done|].
      change (take (S i) (first :: rest)) with (first :: take i rest).
      by rewrite rev_sheet_calls_cons.
Qed.

End SheetFacts.

(** X9.  For a workbook that opens, [extractXlsx] serialises the sheets
    in their declared order and returns one of two things, never a
    mixture: when every sheet serialises, exactly one [csv] record per
    sheet, the record at position [i] carrying page [i + 1], the file's
    base name and the CSV the tool gave for that sheet; when the
    serialisation of some sheet throws, the single top-level error
    record with that failure's message, and nothing of the sheets already
    serialised. *)
Theorem X9_sheets_in_order_or_one_error
    (env : Env) (filePath : string) (h : History) (wb : Workbook) :
  XLSX_readFile env h filePath = Normal wb →
  let before (i : nat) : History :=
    rev (sheet_calls wb (take i (SheetNames wb))) ++ CallXlsxReadFile filePath :: h in
  ∃ results,
    snd (extractXlsx env filePath h) = Normal results
    ∧ ((length results = length (SheetNames wb)
        ∧ ∀ i name,
            SheetNames wb !! i = Some name →
            ∃ csv,
              XLSX_sheet_to_csv env (before i) (Sheets wb !! name) = Normal csv
              ∧ results !! i
                = Some {| type := Some TypeCsv; fileName := path_basename env filePath;
                          page := N.of_nat i + 1; contents := Some csv;
                          error := None; isFullPage := None |})
       ∨ (∃ i name e,
            SheetNames wb !! i = Some name
            ∧ XLSX_sheet_to_csv env (before i) (Sheets wb !! name) = Throw e
            ∧ results
              = [ {| type := None; fileName := path_basename env filePath;
                     page := 1; contents := None;
                     error := Some (message_or e
                                      "An unknown error occurred while parsing the .xlsx file.");
                     isFullPage := None |} ])).
Proof.
  intros Hwb before. unfold extractXlsx, try_catch, bind at 1, call at 1. rewrite Hwb.
  destruct (settles_sheets_to_results env (path_basename env filePath) wb (SheetNames wb)
              0 (CallXlsxReadFile filePath :: h)) as (h' & [results|e] & Hs); rewrite Hs.
  - exists results. split; [done|]. left.
    destruct (sheets_to_results_Normal _ _ _ _ _ _ _ _ Hs) as [Hlen Hrecords].
    split; [done|]. intros i name Hi.
    destruct (Hrecords i name Hi) as (csv & Hanswer & Hlookup).
    exists csv. split; [done|]. by rewrite Hlookup.
  - eexists. split; [reflexivity|]. right.
    destruct (sheets_to_results_Throw _ _ _ _ _ _ _ _ Hs) as (i & name & Hi & Hanswer).
    by exists i, name, e.
Qed.

Lemma X9_witness :
  let wb := {| SheetNames := ["Data"; "Notes"];
               Sheets := {[ "Data" := WorksheetRef 1; "Notes" := WorksheetRef 2 ]} |} in
  let env := Sample.env_of (Scenarios.with_workbook wb Sample.calm) in
  ∃ results,
    snd (extractXlsx env "docs/book.xlsx" []) = Normal results
    ∧ length results = 2
    ∧ results !! 1 = Some (content_result TypeCsv "book.xlsx" 2 "a,b").
Proof.
  intros wb env.
  destruct (X9_sheets_in_order_or_one_error env "docs/book.xlsx" [] wb eq_refl)
    as (results & Hrun & [[Hlen Hrecords]|(i & name & e & _ & Hthrow & _)]).
  - exists results. split; [exact Hrun|]. split; [exact Hlen|].
    destruct (Hrecords 1 "Notes" eq_refl) as (csv & Hcsv & Hlookup).
    rewrite Hlookup. injection Hcsv as <-. reflexivity.
  - discriminate Hthrow.
Defined.

Example extractXlsx_numbers_the_sheets :
  snd (extractXlsx
         (Sample.env_of
            (Scenarios.with_workbook
               {| SheetNames := ["Data"; "Notes"];
                  Sheets := {[ "Data" := WorksheetRef 1; "Notes" := WorksheetRef 2 ]} |}
               Sample.calm))
         "docs/book.xlsx" [])
  = Normal [content_result TypeCsv "book.xlsx" 1 "a,b";
            content_result TypeCsv "book.xlsx" 2 "a,b"].
Proof. vm_compute. reflexivity. Qed.

(** X10.  For a deck that opens, [extractPptx] returns exactly one [text]
    record per slide, in deck order: the record at position [i] carries
    page [i + 1], the file's base name, and the slide's text fragments
    joined by line feeds. *)
Theorem X10_one_text_record_per_slide
    (env : Env) (filePath : string) (h : History) (slides : list Slide) :
  PptxParser_new env h filePath = Normal tt →
  PptxParser_extractText env (CallNewPptxParser filePath :: h) filePath = Normal slides →
  ∃ results,
    snd (extractPptx env filePath h) = Normal results
    ∧ length results = length slides
    ∧ ∀ i slide,
        slides !! i = Some slide →
        results !! i
        = Some {| type := Some TypeText; fileName := path_basename env filePath;
                  page := N.of_nat i + 1;
                  contents := Some (JsString.join JsString.newline (slide_text slide));
                  error := None; isFullPage := None |}.
Proof.
  intros Hnew Hslides. unfold extractPptx, try_catch, bind, call, ret.
  rewrite Hnew, Hslides. eexists. split; [reflexivity|].
  split; [by rewrite length_imap|].
  intros i slide Hi. rewrite list_lookup_imap, Hi. reflexivity.
Qed.

Lemma X10_witness :
  ∃ results,
    snd (extractPptx (Sample.env_of Sample.calm) "docs/deck.pptx" []) = Normal results
    ∧ results !! 0
      = Some (content_result TypeText "deck.pptx" 1
                ("Title" +:+ JsString.newline +:+ "Body")).
Proof.
  destruct (X10_one_text_record_per_slide (Sample.env_of Sample.calm) "docs/deck.pptx" []
              (Sample.slides Sample.calm) eq_refl eq_refl)
    as (results & Hrun & _ & Hrecords).
  exists results. split; [exact Hrun|].
  exact (Hrecords 0 {| slide_id := "s1"; slide_text := ["Title"; "Body"] |} eq_refl).
Defined.

(** ** The records of a PDF page *)

Lemma mime_type_range (imageExtension : string) :
  mime_type imageExtension ∈ image_mime_types.
Proof.
  unfold mime_type, image_mime_types.
  repeat match goal with
         | |- context [if ?b then _ else _] => destruct b
         end; set_solver.
Qed.

Lemma page_record_error name pg msg : page_record name pg (error_result name pg msg).
Proof. done. Qed.

Lemma page_record_content t name pg c : page_record name pg (content_result t name pg c).
Proof. by destruct t. Qed.

Lemma page_record_embedded name pg r : embedded_image name pg r → page_record name pg r.
Proof. intros (mime & payload & _ & ->). apply page_record_content. Qed.

Lemma page_record_rendered name pg rendered :
  rendered_page name pg rendered → Forall (page_record name pg) rendered.
Proof.
  intros [->|[->|[payload ->]]]; repeat constructor.
Qed.

Lemma page_record_blank name pg : page_record name pg (content_result TypeText name pg "").
Proof. apply page_record_content. Qed.

Lemma page_record_text name pg text : Forall (page_record name pg) (text_record name pg text).
Proof.
  unfold text_record. destruct (JsString.is_empty _); [constructor|].
  constructor; [apply page_record_content | constructor].
Qed.

Section PageRecords.
Variable env : Env.
Variables filePath fileName imageFormat : string.
Variable pageNum : N.

Lemma collect_images_Normal imageFiles pageResults h h' out :
  collect_images env fileName pageNum imageFiles pageResults h = (h', Normal out) →
  ∃ images,
    out = pageResults ++ images
    ∧ Forall (embedded_image fileName pageNum) images
    ∧ length images ≤ length imageFiles.
Proof.
  revert pageResults h. induction imageFiles as [|imageFile rest IH]; intros pr h H.
  - simpl in H. unfold ret in H. simplify_eq.
    exists []. by rewrite app_nil_r.
  - simpl in H.
    apply bind_Normal in H as (h1 & imageBuffer & _ & H).
    apply bind_Normal in H as (h2 & [] & _ & H).
    destruct (length imageBuffer =? 0)%nat.
    + apply bind_Normal in H as (h3 & [] & _ & H).
      destruct (IH _ _ H) as (images & -> & Himages & Hlen).
      exists images. repeat split; [done|]. simpl. lia.
    + destruct (IH _ _ H) as (images & -> & Himages & Hlen).
      eexists (_ :: images). rewrite <- app_assoc. split; [reflexivity|].
      split; [|simpl; lia].
      constructor; [|done]. eexists _, _. split; [apply mime_type_range | reflexivity].
Qed.

(** The text and embedded-image stages: the text record if the page has
    text, then the embedded images, after what the accumulator held; a
    single empty text record if all of that is nothing. *)
Lemma text_and_images_Normal pageResults h h' out :
  text_and_images env filePath fileName imageFormat pageNum pageResults h
  = (h', Normal out) →
  ∃ text images,
    poppler_pdfToText env h filePath pageNum = Normal text
    ∧ Forall (embedded_image fileName pageNum) images
    ∧ out = or_blank fileName pageNum
              (pageResults ++ text_record fileName pageNum text ++ images).
Proof.
  unfold text_and_images. intros H.
  apply bind_Normal in H as (h1 & text & Htext & H). cbv beta zeta in H.
  unfold call in Htext. simplify_eq.
  apply bind_Normal in H as (h2 & [] & _ & H).
  apply bind_Normal in H as (h3 & hex & _ & H). cbv beta zeta in H.
  apply bind_Normal in H as (h4 & [] & _ & H).
  apply bind_Normal in H as (h5 & files & _ & H). cbv beta zeta in H.
  apply bind_Normal in H as (h6 & collected & Hcollect & H).
  apply collect_images_Normal in Hcollect as (images & -> & Himages & _).
  exists text, images. split; [done|]. split; [done|].
  assert (Hshape : (if JsString.is_empty (JsString.trim text) then pageResults
                    else pageResults
                           ++ [content_result TypeText fileName pageNum (JsString.trim text)])
                   ++ images
                   = pageResults ++ text_record fileName pageNum text ++ images).
  { unfold text_record. destruct (JsString.is_empty _); [done|]. by rewrite <- app_assoc. }
  rewrite Hshape in H. unfold or_blank.
  destruct (pageResults ++ text_record fileName pageNum text ++ images);
    unfold ret in H; by simplify_eq.
Qed.

Lemma render_full_page_Normal outputPrefix h h' out :
  render_full_page env filePath fileName pageNum outputPrefix [] h = (h', Normal out) →
  out = []
  ∨ ∃ payload, out = [full_page_result fileName pageNum ("data:image/jpeg;base64," +:+ payload)].
Proof.
  unfold render_full_page. intros H.
  apply bind_Normal in H as (h1 & [] & _ & H). cbv beta zeta in H.
  apply bind_Normal in H as (h2 & [] & _ & H).
  apply bind_Normal in H as (h3 & imageBuffer & _ & H).
  apply bind_Normal in H as (h4 & [] & _ & H).
  destruct (0 <? length imageBuffer)%nat.
  - apply bind_Normal in H as (h5 & reEncodedBuffer & _ & H). cbv beta zeta in H.
    unfold ret in H. simplify_eq. right. by eexists.
  - unfold ret in H. simplify_eq. by left.
Qed.

(** The full-page stage leaves at most one record. *)
Lemma full_page_stage_Normal h h' rendered :
  full_page_stage env filePath fileName pageNum [] h = (h', Normal rendered) →
  rendered_page fileName pageNum rendered.
Proof.
  unfold full_page_stage. intros H.
  apply bind_Normal in H as (h1 & [] & _ & H).
  apply bind_Normal in H as (h2 & hex & _ & H). cbv beta zeta in H.
  apply try_catch_Normal in H as [H|(h3 & e & _ & H)].
  - apply render_full_page_Normal in H as [->|[payload ->]].
    + by left.
    + right. right. by exists payload.
  - apply bind_Normal in H as (h4 & [] & _ & H). unfold ret in H. simplify_eq.
    right. by left.
Qed.

(** The records one page adds to [results], whenever the page's
    iteration completes: either the single page-level error record (the
    text or embedded-image stage threw), or, in this order, what the
    full-page stage left (nothing unless [fullPageImage] is on; then at
    most one record: the full-page JPEG or the stage's error record), the
    page's trimmed text if it is not empty, and one record per embedded
    image that was read; and if that is nothing at all, one text record
    with empty contents. *)
Lemma process_page_Normal
    (fullPageImage : bool) (cb : option ProgressCallback) (pageCount : Count)
    (results results' : list ExtractionResult) (h h' : History) :
  process_page env filePath fileName imageFormat pageNum fullPageImage cb pageCount
    results h = (h', Normal results') →
  ∃ block,
    results' = results ++ block
    ∧ ((∃ e, block = [error_result fileName pageNum
                        (message_or e ("Error processing page "
                                       +:+ JsString.of_N pageNum))])
       ∨ ∃ rendered text images,
           rendered_page fileName pageNum rendered
           ∧ (fullPageImage = false → rendered = [])
           ∧ Forall (embedded_image fileName pageNum) images
           ∧ block = or_blank fileName pageNum
                       (rendered ++ text_record fileName pageNum text ++ images)).
Proof.
  unfold process_page. intros H.
  apply bind_Normal in H as (h0 & [] & _ & H).
  apply bind_Normal in H as (h1 & rendered & Hrendered & H).
  assert (Hr : rendered_page fileName pageNum rendered
               ∧ (fullPageImage = false → rendered = [])).
  { destruct fullPageImage.
    - split; [by eapply full_page_stage_Normal | done].
    - unfold ret in Hrendered. simplify_eq. split; [by left | done]. }
  destruct Hr as [Hpage Hoff].
  unfold page_try in H. apply try_catch_Normal in H as [H|(h2 & e & _ & H)].
  - apply bind_Normal in H as (h2 & out & Hstage & H). unfold ret in H. simplify_eq.
    apply text_and_images_Normal in Hstage as (text & images & _ & Himages & ->).
    eexists. split; [reflexivity|]. right. by exists rendered, text, images.
  - unfold ret in H. simplify_eq.
    eexists. split; [reflexivity|]. left. by exists e.
Qed.

(** Whatever its shape, the block of a page is not empty and holds only
    well-formed records of that page. *)
Lemma process_page_block (fullPageImage : bool) (cb : option ProgressCallback)
    (pageCount : Count) results results' h h' :
  process_page env filePath fileName imageFormat pageNum fullPageImage cb pageCount
    results h = (h', Normal results') →
  ∃ block, results' = results ++ block
           ∧ block ≠ [] ∧ Forall (page_record fileName pageNum) block.
Proof.
  intros H.
  destruct (process_page_Normal _ _ _ _ _ _ _ H)
    as (block & -> & [[e ->]|(rendered & text & images & Hr & _ & Hi & ->)]).
  - eexists. split; [reflexivity|]. split; [done|]. repeat constructor.
  - eexists. split; [reflexivity|].
    assert (Hall : Forall (page_record fileName pageNum)
                     (rendered ++ text_record fileName pageNum text ++ images)).
    { apply Forall_app. split; [by apply page_record_rendered|].
      apply Forall_app. split; [apply page_record_text|].
      eapply Forall_impl; [exact Hi|]. apply page_record_embedded. }
    unfold or_blank.
    destruct (rendered ++ text_record fileName pageNum text ++ images) as [|r rs].
    + split; [done|]. repeat constructor.
    + split; [done|]. exact Hall.
Qed.

(** The embedded-image loop, exactly: the files are read in listing
    order, each read answered at the history of the reads before it;
    what comes out is the accumulator followed by the records of the
    files that were not empty. *)
Lemma collect_images_reads imageFiles pageResults h h' out :
  collect_images env fileName pageNum imageFiles pageResults h = (h', Normal out) →
  ∃ reads : list (string * Buffer),
    map fst reads = imageFiles
    ∧ (∀ i read,
         reads !! i = Some read →
         fs_readFile env (rev (image_events env (take i reads)) ++ h)
           (path_join env (localTmpRoot env) (fst read)) = Normal (snd read))
    ∧ h' = rev (image_events env reads) ++ h
    ∧ out = pageResults ++ image_records env fileName pageNum reads.
Proof.
  revert pageResults h. induction imageFiles as [|imageFile rest IH]; intros pr h H.
  - simpl in H. unfold ret in H. simplify_eq.
    exists []. split; [done|]. split; [by intros i read Hi|].
    split; [done | by rewrite app_nil_r].
  - simpl in H.
    apply bind_Normal in H as (h1 & imageBuffer & Hread & H).
    apply bind_Normal in H as (h2 & [] & Hrm & H).
    unfold call in Hread, Hrm. simplify_eq.
    assert (Hstep : ∀ reads log,
      log = match imageBuffer with
            | [] => [ConsoleLog ("Skipping empty image file extracted from PDF: "
                                 +:+ imageFile)]
            | _ :: _ => []
            end →
      (∀ i read,
         reads !! i = Some read →
         fs_readFile env
           (rev (image_events env (take i reads))
            ++ rev log ++ CallRm (path_join env (localTmpRoot env) imageFile)
               :: CallReadFile (path_join env (localTmpRoot env) imageFile) :: h)
           (path_join env (localTmpRoot env) (fst read)) = Normal (snd read)) →
      (∀ i read,
         ((imageFile, imageBuffer) :: reads) !! i = Some read →
         fs_readFile env
           (rev (image_events env (take i ((imageFile, imageBuffer) :: reads))) ++ h)
           (path_join env (localTmpRoot env) (fst read)) = Normal (snd read))
      ∧ rev (image_events env ((imageFile, imageBuffer) :: reads)) ++ h
        = rev (image_events env reads)
          ++ rev log ++ CallRm (path_join env (localTmpRoot env) imageFile)
             :: CallReadFile (path_join env (localTmpRoot env) imageFile) :: h).
    { intros reads log -> Hreads.
      assert (Hevents : ∀ l,
        rev (image_events env ((imageFile, imageBuffer) :: l)) ++ h
        = rev (image_events env l)
          ++ rev (match imageBuffer with
                  | [] => [ConsoleLog ("Skipping empty image file extracted from PDF: "
                                       +:+ imageFile)]
                  | _ :: _ => []
                  end)
          ++ CallRm (path_join env (localTmpRoot env) imageFile)
             :: CallReadFile (path_join env (localTmpRoot env) imageFile) :: h).
      { intros l. unfold image_events. simpl.
        rewrite !rev_app_distr. simpl. rewrite <- !app_assoc. done. }
      split; [|apply Hevents].
      intros [|i] read Hi; simpl in Hi.
      - by simplify_eq.
      - change (take (S i) ((imageFile, imageBuffer) :: reads))
          with ((imageFile, imageBuffer) :: take i reads).
        rewrite Hevents. by apply Hreads. }
    destruct imageBuffer as [|b bytes]; simpl in H.
    + apply bind_Normal in H as (h3 & [] & Hlog & H).
      unfold console in Hlog. simplify_eq.
      destruct (IH _ _ H) as (reads & Hfiles & Hreads & -> & ->).
      destruct (Hstep reads _ eq_refl Hreads) as [Hall Hhist].
      exists ((imageFile, []) :: reads). split; [simpl; by rewrite Hfiles|].
      split; [exact Hall|]. split; [by rewrite Hhist | done].
    + destruct (IH _ _ H) as (reads & Hfiles & Hreads & -> & ->).
      destruct (Hstep reads _ eq_refl Hreads) as [Hall Hhist].
      exists ((imageFile, b :: bytes) :: reads). split; [simpl; by rewrite Hfiles|].
      split; [exact Hall|]. split; [by rewrite Hhist|].
      by rewrite <- app_assoc.
Qed.

End PageRecords.

(** X11.  The records one page adds to [results], whenever the page's
    iteration completes.  The progress report and the full-page stage
    have completed, the stage leaving [rendered] (nothing unless
    [fullPageImage] is on; then at most one record: the full-page JPEG
    or the stage's error record).  Then either the text or
    embedded-image stage threw [e], and the page adds the single
    page-level error record for [e]; or the page adds, in this order:
    [rendered]; the trimmed text that [pdfToText] answered for this page,
    if it is not empty; and, for each file of the directory listing
    whose name starts with this page's image prefix, in listing order,
    the image record of the bytes read from that file, unless the file
    was empty; and if all of that is nothing, one text record with empty
    contents. *)
Theorem X11_the_records_of_a_page
    (env : Env) (filePath fileName imageFormat : string) (pageNum : N)
    (fullPageImage : bool) (cb : option ProgressCallback) (pageCount : Count)
    (results results' : list ExtractionResult) (h h' : History) :
  process_page env filePath fileName imageFormat pageNum fullPageImage cb pageCount
    results h = (h', Normal results') →
  ∃ h0 h1 rendered,
    report_progress pageNum cb pageCount h = (h0, Normal tt)
    ∧ (if fullPageImage then full_page_stage env filePath fileName pageNum []
       else ret []) h0 = (h1, Normal rendered)
    ∧ rendered_page fileName pageNum rendered
    ∧ (fullPageImage = false → rendered = [])
    ∧ ((∃ e,
          text_and_images env filePath fileName imageFormat pageNum rendered h1
          = (h', Throw e)
          ∧ results'
            = results
              ++ [error_result fileName pageNum
                    (message_or e ("Error processing page " +:+ JsString.of_N pageNum))])
       ∨ ∃ (text hex : string) (listing : list string) (reads : list (string * Buffer)),
           let root := localTmpRoot env in
           let h2 := CallPdfToText filePath pageNum :: h1 in
           let h3 := CallMkdir root :: h2 in
           let h4 := CallRandomBytes 8 :: h3 in
           let imagePrefix :=
             path_join env root ("pdf-images-" +:+ hex +:+ "-p" +:+ JsString.of_N pageNum) in
           let h5 :=
             CallPdfImages filePath imagePrefix pageNum (image_mode imageFormat) :: h4 in
           let h6 := CallReaddir root :: h5 in
           poppler_pdfToText env h1 filePath pageNum = Normal text
           ∧ randomBytes_hex env h3 8 = Normal hex
           ∧ fs_readdir env h5 root = Normal listing
           ∧ map fst reads
             = List.filter
                 (fun f => JsString.startsWith f (path_basename env imagePrefix)) listing
           ∧ (∀ i read,
                reads !! i = Some read →
                fs_readFile env (rev (image_events env (take i reads)) ++ h6)
                  (path_join env root (fst read)) = Normal (snd read))
           ∧ h' = rev (image_events env reads) ++ h6
           ∧ results'
             = results
               ++ or_blank fileName pageNum
                    (rendered ++ text_record fileName pageNum text
                     ++ image_records env fileName pageNum reads)).
Proof.
  unfold process_page. intros H.
  apply bind_Normal in H as (h0 & [] & Hprogress & H).
  apply bind_Normal in H as (h1 & rendered & Hrendered & H).
  exists h0, h1, rendered. split; [done|]. split; [done|].
  assert (Hr : rendered_page fileName pageNum rendered
               ∧ (fullPageImage = false → rendered = [])).
  { destruct fullPageImage.
    - split; [by eapply full_page_stage_Normal | done].
    - unfold ret in Hrendered. simplify_eq. split; [by left | done]. }
  destruct Hr as [Hpage Hoff]. split; [done|]. split; [done|].
  unfold page_try in H. apply try_catch_Normal in H as [H|(h2 & e & Hthrow & H)].
  - right.
    apply bind_Normal in H as (h2 & out & Hstage & H). unfold ret in H. simplify_eq.
    unfold text_and_images in Hstage.
    apply bind_Normal in Hstage as (h3 & text & Htext & Hstage). cbv beta zeta in Hstage.
    apply bind_Normal in Hstage as (h4 & [] & Hmk & Hstage).
    apply bind_Normal in Hstage as (h5 & hex & Hrnd & Hstage). cbv beta zeta in Hstage.
    apply bind_Normal in Hstage as (h6 & [] & Himages & Hstage).
    apply bind_Normal in Hstage as (h7 & listing & Hdir & Hstage). cbv beta zeta in Hstage.
    apply bind_Normal in Hstage as (h8 & collected & Hcollect & Hstage).
    unfold call in Htext, Hmk, Hrnd, Himages, Hdir. simplify_eq.
    apply collect_images_reads in Hcollect as (reads & Hfiles & Hreads & -> & ->).
    exists text, hex, listing, reads. cbv zeta.
    split; [done|]. split; [done|]. split; [done|]. split; [done|].
    split; [done|].
    assert (Hshape : (if JsString.is_empty (JsString.trim text) then rendered
                      else rendered
                             ++ [content_result TypeText fileName pageNum
                                   (JsString.trim text)])
                     ++ image_records env fileName pageNum reads
                     = rendered ++ text_record fileName pageNum text
                       ++ image_records env fileName pageNum reads).
    { unfold text_record. destruct (JsString.is_empty _); [done|].
      by rewrite <- app_assoc. }
    rewrite Hshape in Hstage. unfold or_blank.
    destruct (rendered ++ text_record fileName pageNum text
              ++ image_records env fileName pageNum reads);
      unfold ret in Hstage; by simplify_eq.
  - left. exists e. unfold ret in H. simplify_eq.
    apply bind_Throw in Hthrow as [Hthrow|(h3 & out & _ & Hthrow)];
      [done | by unfold ret in Hthrow].
Qed.

Lemma X11_witness :
  let env :=
    Sample.env_of
      {| Sample.refuses := Scenarios.missing_jpeg;
         Sample.docx_text := ""; Sample.workbook := Sample.workbook Sample.calm;
         Sample.csv_of := fun _ => ""; Sample.slides := [];
         Sample.pdf_info := InfoText "Pages: 2";
         Sample.page_text := fun pg => if (pg =? 2)%N then " second page " else "first page";
         Sample.file_bytes :=
           fun p => if String.eqb p "/app/.tmp/pdf-images-00112233aabbccdd-p2-000.png"
                    then [Byte.x41] else [];
         Sample.directory :=
           ["pdf-images-00112233aabbccdd-p2-000.png";
            "pdf-images-00112233aabbccdd-p2-001.jpg"; "notes.txt"] |} in
  snd (process_page env "docs/a.pdf" "a.pdf" "native" 2 true None 2 [] [])
  = Normal [error_result "a.pdf" 2 (cairo_error_message 2);
            content_result TypeText "a.pdf" 2 "second page";
            content_result TypeImage "a.pdf" 2 "data:image/png;base64,A"].
Proof.
  intros env.
  destruct (process_page env "docs/a.pdf" "a.pdf" "native" 2 true None 2 [] [])
    as [h' [[results'|e]|]] eqn:Hrun;
    [|vm_compute in Hrun; discriminate Hrun..].
  destruct (X11_the_records_of_a_page env "docs/a.pdf" "a.pdf" "native" 2 true None 2
              [] results' [] h' Hrun)
    as (h0 & h1 & rendered & Hprogress & Hstage & _ & _ & Hcases).
  vm_compute in Hrun. by injection Hrun as _ <-.
Defined.

(** ** The records of a PDF document *)


Lemma page_numbers_lookup (pageCount : N) (i : nat) (pg : N) :
  page_numbers pageCount !! i = Some pg → pg = (N.of_nat i + 1)%N.
Proof.
  unfold page_numbers.
  change (map N.of_nat (seq 1 (N.to_nat pageCount)))
    with (N.of_nat <$> seq 1 (N.to_nat pageCount)).
  intros H. apply list_lookup_fmap_Some in H as (k & -> & Hk).
  apply lookup_seq in Hk as [-> _]. lia.
Qed.

Section DocumentRecords.
Variable env : Env.
Variables filePath fileName imageFormat : string.
Variable fullPageImage : bool.
Variable cb : option ProgressCallback.
Variable pageCount : Count.

Lemma pages_loop_blocks pages results h h' results' :
  pages_loop env filePath fileName imageFormat fullPageImage cb pageCount pages
    results h = (h', Normal results') →
  ∃ blocks, results' = results ++ concat blocks ∧ page_blocks fileName pages blocks.
Proof.
  revert results h. induction pages as [|pageNum rest IH]; intros results h H.
  - simpl in H. unfold ret in H. simplify_eq.
    exists []. split; [by rewrite app_nil_r | constructor].
  - simpl in H. apply bind_Normal in H as (h1 & r1 & Hpage & Hrest).
    apply process_page_block in Hpage as (block & -> & Hne & Hall).
    apply IH in Hrest as (blocks & -> & Hblocks).
    exists (block :: blocks). split; [simpl; by rewrite app_assoc|].
    by constructor.
Qed.

End DocumentRecords.







(** A report whose count is 2^53 or more: the loop has no last page, and
    a run that nothing aborts is still unfinished however long it is
    observed. *)
Example an_endless_page_loop :
  let env :=
    Sample.env_of (Scenarios.with_pdf_info (InfoText "Pages: 9007199254740992") Sample.calm) in
  page_count (InfoText "Pages: 9007199254740992") = Unsafe
  ∧ page_count (InfoText "Pages: 9007199254740991") = Safe 9007199254740991
  ∧ snd (extractPdf env "docs/a.pdf" None None []) = Unfinished
  ∧ snd (extractPdf env "docs/a.pdf" None (Some (Callbacks.cancel_at 2)) [])
    = Normal [error_result "a.pdf" 1 "cancelled"].
Proof. repeat split; vm_compute; reflexivity. Qed.

(** ** Histories of the PDF pipeline *)

Section AddsFacts.
Context {A B : Type}.
Variable p : Event → bool.

Lemma adds_ret (a : A) : adds p (ret a).
Proof. intros h. by exists []. Qed.

Lemma adds_throw (e : Thrown) : adds p (@throw A e).
Proof. intros h. by exists []. Qed.

Lemma adds_call ev (answer : History → Completion A) :
  p ev = true → adds p (call ev answer).
Proof. intros Hev h. exists [ev]. split; [done|]. by constructor. Qed.

Lemma adds_bind (m : Async A) (k : A → Async B) :
  adds p m → (∀ a, adds p (k a)) → adds p (bind m k).
Proof.
  intros Hm Hk h. unfold bind. destruct (Hm h) as (l1 & Hl1 & Hp1).
  destruct (m h) as [h1 [[a|e]|]]; simpl in *; subst h1.
  - destruct (Hk a (l1 ++ h)) as (l2 & Hl2 & Hp2).
    exists (l2 ++ l1). rewrite Hl2, app_assoc. split; [done|].
    by apply Forall_app.
  - by exists l1.
  - by exists l1.
Qed.

Lemma adds_try_catch (m : Async A) handler :
  adds p m → (∀ e, adds p (handler e)) → adds p (try_catch m handler).
Proof.
  intros Hm Hh h. unfold try_catch. destruct (Hm h) as (l1 & Hl1 & Hp1).
  destruct (m h) as [h1 [[a|e]|]]; simpl in *; subst h1.
  - by exists l1.
  - destruct (Hh e (l1 ++ h)) as (l2 & Hl2 & Hp2).
    exists (l2 ++ l1). rewrite Hl2, app_assoc. split; [done|].
    by apply Forall_app.
  - by exists l1.
Qed.

Lemma adds_unfinished : adds p (@unfinished A).
Proof. intros h. by exists []. Qed.

End AddsFacts.

Lemma adds_console p ev : p ev = true → adds p (console ev).
Proof. intros Hev h. exists [ev]. split; [done|]. by constructor. Qed.

Lemma adds_weaken {A} (p q : Event → bool) (m : Async A) :
  (∀ ev, p ev = true → q ev = true) → adds p m → adds q m.
Proof.
  intros Hpq Hm h. destruct (Hm h) as (l & Hl & Hp).
  exists l. split; [done|]. eapply Forall_impl; [exact Hp|]. apply Hpq.
Qed.

Ltac adds_step :=
  first
    [ apply adds_bind; [|intros]
    | apply adds_try_catch; [|intros]
    | apply adds_call; reflexivity
    | apply adds_console; reflexivity
    | apply adds_ret
    | apply adds_throw
    | apply adds_unfinished
    | match goal with
      | |- adds _ (if ?b then _ else _) => destruct b
      | |- adds _ (match ?x with _ => _ end) => destruct x
      end ].

Section PipelineHistories.
Variable env : Env.
Variables filePath fileName imageFormat : string.

Lemma adds_collect_images pageNum imageFiles pageResults :
  adds is_page_body_event (collect_images env fileName pageNum imageFiles pageResults).
Proof.
  revert pageResults. induction imageFiles as [|f rest IH]; intros pr; simpl.
  - apply adds_ret.
  - repeat first [apply IH | adds_step].
Qed.

Lemma adds_text_and_images pageNum pageResults :
  adds is_page_body_event
    (text_and_images env filePath fileName imageFormat pageNum pageResults).
Proof.
  unfold text_and_images. repeat first [apply adds_collect_images | adds_step].
Qed.

Lemma adds_page_try pageNum pageResults results :
  adds is_page_body_event
    (page_try env filePath fileName imageFormat pageNum pageResults results).
Proof.
  unfold page_try. repeat first [apply adds_text_and_images | adds_step].
Qed.

Lemma is_page_body_event_not_render ev :
  is_page_body_event ev = true → negb (is_render_call ev) = true.
Proof. unfold is_page_body_event. by intros [? ?]%andb_true_iff. Qed.

(** With [fullPageImage] off, a page makes no call of the render stage. *)
Lemma adds_process_page_plain pageNum cb pageCount results :
  adds (fun ev => negb (is_render_call ev))
    (process_page env filePath fileName imageFormat pageNum false cb pageCount results).
Proof.
  unfold process_page, report_progress.
  repeat first
    [ eapply adds_weaken; [apply is_page_body_event_not_render | apply adds_page_try]
    | adds_step ].
Qed.

Lemma adds_pages_loop_plain cb pageCount pages results :
  adds (fun ev => negb (is_render_call ev))
    (pages_loop env filePath fileName imageFormat false cb pageCount pages results).
Proof.
  revert results. induction pages as [|pageNum rest IH]; intros results; simpl.
  - apply adds_ret.
  - apply adds_bind; [apply adds_process_page_plain | intros; apply IH].
Qed.

End PipelineHistories.

(** X13.  Unless [fullPageImage] is set to true, [extractPdf] never runs
    the render tool, never checks for its output file and never calls
    the image re-encoder, whatever the document, the image format and
    the callback. *)
Theorem X13_no_render_without_fullPageImage
    (env : Env) (filePath : string) (options : option PdfExtractionOptions)
    (cb : option ProgressCallback) (h : History) :
  default false (fullPageImage (default no_pdf_options options)) = false →
  ∃ added,
    fst (extractPdf env filePath options cb h) = added ++ h
    ∧ Forall (fun ev => is_render_call ev = false) added.
Proof.
  intros Hoff.
  assert (Hadds : adds (fun ev => negb (is_render_call ev))
                    (extractPdf env filePath options cb)).
  { unfold extractPdf. rewrite Hoff.
    repeat first [apply adds_pages_loop_plain | adds_step]. }
  destruct (Hadds h) as (added & Hadded & Hall).
  exists added. split; [done|].
  eapply Forall_impl; [exact Hall|]. intros ev Hev. by apply negb_true_iff.
Qed.

Lemma X13_witness :
  Forall (fun ev => is_render_call ev = false)
    (fst (extractPdf (Sample.env_of Sample.calm) "docs/a.pdf"
            (Some {| imageFormat := Some "png"; fullPageImage := None |}) None [])).
Proof.
  destruct (X13_no_render_without_fullPageImage (Sample.env_of Sample.calm) "docs/a.pdf"
              (Some {| imageFormat := Some "png"; fullPageImage := None |}) None []
              eq_refl) as (added & Hadded & Hall).
  rewrite Hadded, app_nil_r. exact Hall.
Defined.

Example history_of_a_plain_page :
  fst (extractPdf (Sample.env_of Sample.calm) "docs/a.pdf"
         (Some {| imageFormat := Some "png"; fullPageImage := None |}) None [])
  = [CallReaddir "/app/.tmp";
     CallPdfImages "docs/a.pdf" "/app/.tmp/pdf-images-00112233aabbccdd-p1" 1 PngFile;
     CallRandomBytes 8; CallMkdir "/app/.tmp"; CallPdfToText "docs/a.pdf" 1;
     CallPdfInfo "docs/a.pdf"; CallNewPoppler].
Proof. vm_compute. reflexivity. Qed.

(** ** Progress reports *)


Section ProgressFacts.
Variable env : Env.
Variables filePath fileName imageFormat : string.
Variable fullPageImage : bool.
Variable f : ProgressCallback.
Variable pageCount : Count.






End ProgressFacts.




(** The history of a two-page document, in full: each report stands
    before the calls made for its page. *)
Example reports_stand_before_their_pages :
  rev (fst (extractPdf
              (Sample.env_of (Scenarios.with_pdf_info (InfoText "Pages: 2") Sample.calm))
              "docs/a.pdf" None (Some Callbacks.quiet) []))
  = [CallNewPoppler; CallPdfInfo "docs/a.pdf";
     CallProgress 1 2; CallPdfToText "docs/a.pdf" 1; CallMkdir "/app/.tmp";
     CallRandomBytes 8;
     CallPdfImages "docs/a.pdf" "/app/.tmp/pdf-images-00112233aabbccdd-p1" 1 AllFiles;
     CallReaddir "/app/.tmp";
     CallProgress 2 2; CallPdfToText "docs/a.pdf" 2; CallMkdir "/app/.tmp";
     CallRandomBytes 8;
     CallPdfImages "docs/a.pdf" "/app/.tmp/pdf-images-00112233aabbccdd-p2" 2 AllFiles;
     CallReaddir "/app/.tmp"].
Proof. vm_compute. reflexivity. Qed.

(** A callback that throws on page 2 of 3 ends the document: page 1, already
    extracted, is not in the result. *)
Example a_failing_callback_ends_the_document :
  let env := Sample.env_of (Scenarios.with_pdf_info (InfoText "Pages: 3") Sample.calm) in
  snd (extractPdf env "docs/a.pdf" None (Some (Callbacks.cancel_at 2)) [])
  = Normal [error_result "a.pdf" 1 "cancelled"]
  ∧ List.filter is_progress
      (rev (fst (extractPdf env "docs/a.pdf" None (Some (Callbacks.cancel_at 2)) [])))
    = [CallProgress 1 3; CallProgress 2 3].
Proof. split; vm_compute; reflexivity. Qed.

(** ** Blank pages and embedded images *)

Lemma filter_startsWith_none (prefix : string) (files : list string) :
  (∀ f, f ∈ files → JsString.startsWith f prefix = false) →
  List.filter (fun f => JsString.startsWith f prefix) files = [].
Proof.
  induction files as [|f rest IH]; intros Hnone; [done|].
  simpl. rewrite (Hnone f) by set_solver. apply IH. intros g Hg. apply Hnone. set_solver.
Qed.

(** X15.  A blank page, with [fullPageImage] off: when the page's text is
    empty after trimming and the scratch directory holds no file whose
    name starts with this page's image prefix (other files in it are
    ignored), the page contributes exactly one record, a [text] record
    with empty contents. *)
Theorem X15_a_blank_page_gives_one_empty_text_record
    (env : Env) (filePath fileName imageFormat : string) (pageNum : N) (pageCount : Count)
    (results : list ExtractionResult) (h : History)
    (text hex : string) (files : list string) :
  let root := localTmpRoot env in
  let h1 := CallPdfToText filePath pageNum :: h in
  let h2 := CallMkdir root :: h1 in
  let h3 := CallRandomBytes 8 :: h2 in
  let imagePrefix :=
    path_join env root ("pdf-images-" +:+ hex +:+ "-p" +:+ JsString.of_N pageNum) in
  let h4 := CallPdfImages filePath imagePrefix pageNum (image_mode imageFormat) :: h3 in
  poppler_pdfToText env h filePath pageNum = Normal text →
  JsString.trim text = "" →
  fs_mkdir env h1 root = Normal tt →
  randomBytes_hex env h2 8 = Normal hex →
  poppler_pdfImages env h3 filePath imagePrefix pageNum (image_mode imageFormat)
  = Normal tt →
  fs_readdir env h4 root = Normal files →
  (∀ f, f ∈ files → JsString.startsWith f (path_basename env imagePrefix) = false) →
  process_page env filePath fileName imageFormat pageNum false None pageCount results h
  = (CallReaddir root :: h4,
     Normal (results ++ [content_result TypeText fileName pageNum ""])).
Proof.
  intros root h1 h2 h3 imagePrefix h4 Htext Hblank Hmk Hrnd Himages Hdir Hnone.
  unfold process_page, report_progress, bind at 1, ret at 1, bind at 1, ret at 1.
  unfold page_try, try_catch, bind at 1, text_and_images.
  unfold bind at 1, call at 1. rewrite Htext, Hblank. simpl JsString.is_empty. cbv iota.
  unfold bind at 1, call at 1. fold root h1. rewrite Hmk.
  unfold bind at 1, call at 1. fold h2. rewrite Hrnd.
  unfold bind at 1, call at 1. fold imagePrefix h3. rewrite Himages.
  unfold bind at 1, call at 1. fold h4. rewrite Hdir.
  rewrite (filter_startsWith_none _ _ Hnone). reflexivity.
Qed.

Lemma X15_witness :
  let env :=
    Sample.env_of
      {| Sample.refuses := fun _ => None;
         Sample.docx_text := ""; Sample.workbook := Sample.workbook Sample.calm;
         Sample.csv_of := fun _ => ""; Sample.slides := [];
         Sample.pdf_info := InfoText "Pages: 1";
         Sample.page_text := fun _ => JsString.newline;
         Sample.file_bytes := fun _ => [Byte.x41];
         Sample.directory := ["pdf-images-ffffffffffffffff-p1-000.png"; "notes.txt"] |} in
  snd (process_page env "docs/blank.pdf" "blank.pdf" "native" 1 false None 1 [] [])
  = Normal [content_result TypeText "blank.pdf" 1 ""].
Proof.
  intros env.
  rewrite (X15_a_blank_page_gives_one_empty_text_record env "docs/blank.pdf" "blank.pdf"
             "native" 1 1 [] [] JsString.newline "00112233aabbccdd"
             ["pdf-images-ffffffffffffffff-p1-000.png"; "notes.txt"]);
    try reflexivity.
  intros f Hf. repeat (apply elem_of_cons in Hf as [->|Hf]; [reflexivity|]).
  by apply elem_of_nil in Hf.
Defined.

(** X16.  The embedded-image loop, whenever it completes, has read and
    at once removed every listed file, in listing order, each read
    answered at the history of the reads before it.  A file that held no
    byte is logged as skipped and gives no record; every other file
    gives exactly one image record, the data URI of the bytes read from
    that very file under the MIME type of its extension, never flagged
    as a full-page render; the records follow the accumulator in the
    order of the files. *)
Theorem X16_every_listed_image_is_read_and_removed
    (env : Env) (fileName : string) (pageNum : N) (imageFiles : list string)
    (pageResults out : list ExtractionResult) (h h' : History) :
  collect_images env fileName pageNum imageFiles pageResults h = (h', Normal out) →
  ∃ reads : list (string * Buffer),
    map fst reads = imageFiles
    ∧ (∀ i read,
         reads !! i = Some read →
         fs_readFile env (rev (image_events env (take i reads)) ++ h)
           (path_join env (localTmpRoot env) (fst read)) = Normal (snd read))
    ∧ h' = rev (image_events env reads) ++ h
    ∧ out = pageResults ++ image_records env fileName pageNum reads.
Proof. apply collect_images_reads. Qed.

Lemma X16_witness :
  let env :=
    Sample.env_of
      (Scenarios.with_file_bytes
         (fun p => if String.eqb p "/app/.tmp/img-000.PNG" then [] else [Byte.x41])
         Sample.calm) in
  collect_images env "a.pdf" 1 ["img-000.PNG"; "img-001.jpg"] [] []
  = ([CallRm "/app/.tmp/img-001.jpg"; CallReadFile "/app/.tmp/img-001.jpg";
      ConsoleLog "Skipping empty image file extracted from PDF: img-000.PNG";
      CallRm "/app/.tmp/img-000.PNG"; CallReadFile "/app/.tmp/img-000.PNG"],
     Normal [content_result TypeImage "a.pdf" 1 "data:image/jpeg;base64,A"]).
Proof.
  intros env.
  destruct (collect_images env "a.pdf" 1 ["img-000.PNG"; "img-001.jpg"] [] [])
    as [h' [[out|e]|]] eqn:Hrun;
    [|vm_compute in Hrun; discriminate Hrun..].
  destruct (X16_every_listed_image_is_read_and_removed env "a.pdf" 1
              ["img-000.PNG"; "img-001.jpg"] [] out [] h' Hrun)
    as (reads & Hfiles & Hreads & -> & ->).
  destruct reads as [|[f1 b1] [|[f2 b2] [|? ?]]]; simpl in Hfiles; try discriminate Hfiles.
  injection Hfiles as -> ->.
  pose proof (Hreads 0 _ eq_refl) as H1. injection H1 as <-.
  pose proof (Hreads 1 _ eq_refl) as H2. injection H2 as <-.
  reflexivity.
Defined.

Example embedded_images_of_a_page :
  snd (collect_images
         (Sample.env_of
            (Scenarios.with_file_bytes
               (fun p => if String.eqb p "/app/.tmp/img-000.PNG" then [Byte.x41] else [])
               Sample.calm))
         "a.pdf" 1 ["img-000.PNG"; "img-001.jpg"] [] [])
  = Normal [content_result TypeImage "a.pdf" 1 "data:image/png;base64,A"].
Proof. vm_compute. reflexivity. Qed.

(** ** The resolved extension *)

(** X17.  The extension [extract] dispatches on is always lowercase,
    whether it comes from the override or from the path; an override that
    is the empty string counts as no override at all, so that the path's
    own extension decides. *)
Theorem X17_the_resolved_extension_is_lowercase
    (env : Env) (reg : Registry) (filePath : string)
    (options : option ExtractionOptions)
    (pdfOptions : option PdfExtractionOptions) (cb : option ProgressCallback)
    (h : History) :
  JsString.toLowerCase (resolved_extension env filePath options)
  = resolved_extension env filePath options
  ∧ resolved_extension env filePath
      (Some {| extension := Some ""; pdf := pdfOptions; progressCallback := cb |})
    = JsString.toLowerCase (path_extname env filePath)
  ∧ extract env reg filePath
      (Some {| extension := Some ""; pdf := pdfOptions; progressCallback := cb |}) h
    = extract env reg filePath
        (Some {| extension := None; pdf := pdfOptions; progressCallback := cb |}) h.
Proof.
  split; [|split; reflexivity].
  unfold resolved_extension, hash_ext.
  destruct (options ≫= extension) as [e|]; [destruct (JsString.truthy e)|];
    apply toLowerCase_idempotent.
Qed.

(** ** What every extractor's records look like *)

Lemma sound_error name msg : sound_record name (error_result name 1 msg).
Proof. done. Qed.

Lemma sound_content t name pg c :
  (1 ≤ pg)%N → sound_record name (content_result t name pg c).
Proof. intros Hpg. split; [done|]. split; [done|]. by destruct t. Qed.

Lemma sound_page_record name pg r :
  (1 ≤ pg)%N → page_record name pg r → sound_record name r.
Proof. intros Hpg (Hname & Hpage & Hwf). split; [done|]. split; [by rewrite Hpage | done]. Qed.

Lemma page_blocks_sound name pages blocks :
  Forall (fun pg => (1 ≤ pg)%N) pages →
  page_blocks name pages blocks →
  Forall (sound_record name) (concat blocks).
Proof.
  intros Hpages Hblocks. induction Hblocks as [|pg block pages blocks [_ Hblock] _ IH].
  - constructor.
  - apply Forall_cons in Hpages as [Hpg Hpages]. simpl. apply Forall_app. split.
    + eapply Forall_impl; [exact Hblock|]. intros r. by apply sound_page_record.
    + by apply IH.
Qed.

Lemma page_numbers_positive (pageCount : N) :
  Forall (fun pg => (1 ≤ pg)%N) (page_numbers pageCount).
Proof.
  apply Forall_lookup. intros i pg Hpg. apply page_numbers_lookup in Hpg. lia.
Qed.

Ltac sound_records :=
  repeat first
    [ apply Forall_nil_2
    | apply Forall_cons_2
    | apply sound_error
    | apply sound_content; lia ].

Section SoundRecords.
Variable env : Env.
Variable filePath : string.

Lemma extractDocx_sound h h' results :
  extractDocx env filePath h = (h', Normal results) →
  Forall (sound_record (path_basename env filePath)) results.
Proof.
  unfold extractDocx, try_catch, bind, call, ret.
  destruct (mammoth_extractRawText env h filePath); intros H; simplify_eq;
    sound_records.
Qed.

Lemma extractXlsx_sound h h' results :
  extractXlsx env filePath h = (h', Normal results) →
  Forall (sound_record (path_basename env filePath)) results.
Proof.
  unfold extractXlsx. intros H.
  apply try_catch_Normal in H as [H|(h1 & e & _ & H)].
  - apply bind_Normal in H as (h1 & wb & _ & H).
    apply sheets_to_results_Normal in H as [Hlen Hrecords].
    apply Forall_lookup. intros i r Hr.
    destruct (lookup_lt_is_Some_2 (SheetNames wb) i) as [name Hname].
    { rewrite <- Hlen. by eapply lookup_lt_Some. }
    destruct (Hrecords i name Hname) as (csv & _ & Hlookup).
    rewrite Hlookup in Hr. simplify_eq. apply sound_content. lia.
  - unfold ret in H. simplify_eq. sound_records.
Qed.

Lemma extractPptx_sound h h' results :
  extractPptx env filePath h = (h', Normal results) →
  Forall (sound_record (path_basename env filePath)) results.
Proof.
  unfold extractPptx. intros H.
  apply try_catch_Normal in H as [H|(h1 & e & _ & H)].
  - apply bind_Normal in H as (h1 & [] & _ & H).
    apply bind_Normal in H as (h2 & slides & _ & H).
    unfold ret in H. simplify_eq.
    apply Forall_lookup. intros i r Hr.
    rewrite list_lookup_imap in Hr.
    destruct (slides !! i) as [slide|]; simpl in Hr; simplify_eq.
    apply sound_content. lia.
  - unfold ret in H. simplify_eq. sound_records.
Qed.

Lemma extractPdf_sound options cb h h' results :
  extractPdf env filePath options cb h = (h', Normal results) →
  Forall (sound_record (path_basename env filePath)) results.
Proof.
  unfold extractPdf. intros H.
  apply bind_Normal in H as (h0 & [] & _ & H).
  apply try_catch_Normal in H as [H|(h1 & e & _ & H)].
  - apply bind_Normal in H as (h1 & info & _ & H). cbv beta zeta in H.
    destruct (page_count info) as [n|].
    + destruct (n =? 0)%N.
      * unfold ret in H. simplify_eq. sound_records.
      * apply pages_loop_blocks in H as (blocks & -> & Hblocks).
        eapply page_blocks_sound; [apply page_numbers_positive | exact Hblocks].
    + apply bind_Normal in H as (h2 & rs & _ & H). by unfold unfinished in H.
  - unfold ret in H. simplify_eq. sound_records.
Qed.

Lemma dispatch_sound ext options h h' results :
  dispatch env ext filePath options h = (h', Normal results) →
  Forall (sound_record (path_basename env filePath)) results.
Proof.
  unfold dispatch.
  destruct (String.eqb ext ".docx"); [apply extractDocx_sound|].
  destruct (String.eqb ext ".xlsx" || String.eqb ext ".xls"); [apply extractXlsx_sound|].
  destruct (String.eqb ext ".pptx"); [apply extractPptx_sound|].
  destruct (String.eqb ext ".pdf"); [apply extractPdf_sound|].
  unfold ret. intros H. simplify_eq. sound_records.
Qed.

End SoundRecords.

(** X18.  Every record an extractor returns, for any extension and any
    behaviour of the parsers, carries the base name of the path and a
    page number of at least 1, and is either an error record ([type]
    null, an [error], no [contents]) or a content record (a [type],
    [contents], no [error]), with [isFullPage] set only on images.  The
    same holds for [extract] when no processor is registered for the
    resolved extension. *)
Theorem X18_extractors_return_sound_records
    (env : Env) (reg : Registry) (filePath : string)
    (options : option ExtractionOptions) (h h' : History)
    (results : list ExtractionResult) :
  let ext := resolved_extension env filePath options in
  (dispatch env ext filePath options h = (h', Normal results)
   ∨ (reg !! ext = None ∧ extract env reg filePath options h = (h', Normal results))) →
  ∀ r, r ∈ results →
    fileName r = path_basename env filePath
    ∧ (1 ≤ page r)%N
    ∧ match type r with
      | None => contents r = None ∧ is_Some (error r) ∧ isFullPage r = None
      | Some t =>
          is_Some (contents r) ∧ error r = None
          ∧ (isFullPage r = None ∨ (isFullPage r = Some true ∧ t = TypeImage))
      end.
Proof.
  intros ext Hrun r Hr.
  assert (Hd : dispatch env ext filePath options h = (h', Normal results)).
  { destruct Hrun as [Hd|[Hnone Hextract]]; [done|].
    unfold extract in Hextract. fold ext in Hextract.
    apply bind_Normal in Hextract as (h1 & rs & Hd & Happly).
    rewrite (applyPostProcessor_unregistered _ _ _ _ Hnone) in Happly. by simplify_eq. }
  apply dispatch_sound in Hd.
  rewrite Forall_forall in Hd. destruct (Hd r Hr) as (Hname & Hpage & Hwf).
  split; [done|]. split; [done|].
  unfold well_formed in Hwf.
  destruct (type r) as [[]|], (contents r), (error r), (isFullPage r) as [[]|];
    try discriminate Hwf; split_and?; eauto.
Qed.

Lemma X18_witness :
  let r := content_result TypeText "a.pdf" 1 "page text" in
  fileName r = "a.pdf" ∧ (1 ≤ page r)%N ∧ error r = None.
Proof.
  intros r.
  destruct (X18_extractors_return_sound_records
              (Sample.env_of (Sample.failing Scenarios.missing_jpeg Sample.calm)) ∅
              "docs/a.pdf"
              (Some {| extension := None; pdf := Scenarios.full_page;
                       progressCallback := None |})
              []
              (fst (extractPdf
                      (Sample.env_of (Sample.failing Scenarios.missing_jpeg Sample.calm))
                      "docs/a.pdf" Scenarios.full_page None []))
              [error_result "a.pdf" 1 (cairo_error_message 1); r]
              (or_introl eq_refl) r) as (Hname & Hpage & _ & Herror & _).
  - set_solver.
  - split; [exact Hname|]. split; [exact Hpage | exact Herror].
Defined.

(** A failed processor is what can break that shape: the first record
    then has both its contents and an error. *)
Example a_failed_processor_leaves_contents_and_error :
  ∃ r rest,
    snd (extract (Sample.env_of Sample.calm)
           (setDocxPostProcessor (InputFunction Processors.errorProcessor) ∅)
           "docs/a.docx" None [])
    = Normal (r :: rest)
    ∧ contents r = Some "Hello"
    ∧ error r = Some "Post-processor error: Something went wrong in the processor".
Proof. eexists _, _. split; [vm_compute; reflexivity | done]. Qed.

(** ** A successful full-page render *)

(** X19.  When the full-page stage runs without a failure and the
    rendered file is not empty, the stage makes its calls in this order:
    create the scratch directory, draw the random name, render the page
    to [<root>/cairo-output-<hex>-p<page>], check that the [.jpg] exists,
    read it, remove it, re-encode the bytes; and it leaves exactly one
    record, an image flagged as full page whose contents are the JPEG
    data URI of the re-encoded bytes (not of the bytes read). *)
Theorem X19_a_successful_full_page_render
    (env : Env) (filePath fileName : string) (pageNum : N) (h : History)
    (hex : string) (imageBuffer reEncodedBuffer : Buffer) :
  let root := localTmpRoot env in
  let outputPrefix :=
    path_join env root ("cairo-output-" +:+ hex +:+ "-p" +:+ JsString.of_N pageNum) in
  let jpegPath := outputPrefix +:+ ".jpg" in
  let h1 := CallMkdir root :: h in
  let h2 := CallRandomBytes 8 :: h1 in
  let h3 := CallPdfToCairo filePath outputPrefix pageNum :: h2 in
  let h4 := CallAccess jpegPath :: h3 in
  let h5 := CallReadFile jpegPath :: h4 in
  let h6 := CallRm jpegPath :: h5 in
  fs_mkdir env h root = Normal tt →
  randomBytes_hex env h1 8 = Normal hex →
  poppler_pdfToCairo env h2 filePath outputPrefix pageNum = Normal tt →
  fs_access env h3 jpegPath = Normal tt →
  fs_readFile env h4 jpegPath = Normal imageBuffer →
  imageBuffer ≠ [] →
  fs_rm env h5 jpegPath = Normal tt →
  sharp_jpeg_srgb env h6 imageBuffer = Normal reEncodedBuffer →
  full_page_stage env filePath fileName pageNum [] h
  = (CallSharp imageBuffer :: h6,
     Normal [ {| type := Some TypeImage; fileName := fileName; page := pageNum;
                 contents := Some ("data:image/jpeg;base64," +:+ base64 env reEncodedBuffer);
                 error := None; isFullPage := Some true |} ]).
Proof.
  intros root outputPrefix jpegPath h1 h2 h3 h4 h5 h6
    Hmk Hrnd Hcairo Haccess Hread Hne Hrm Hsharp.
  rewrite (full_page_stage_after_setup env filePath fileName pageNum [] h hex Hmk Hrnd).
  fold root h1 h2 outputPrefix.
  unfold try_catch, render_full_page, bind at 1, call at 1. rewrite Hcairo.
  unfold bind at 1, try_catch, call at 1. fold jpegPath h3. rewrite Haccess.
  unfold bind at 1, call at 1. fold h4. rewrite Hread.
  unfold bind at 1, call at 1. fold h5. rewrite Hrm.
  assert (Hlen : (0 <? length imageBuffer)%nat = true)
    by (by destruct imageBuffer).
  rewrite Hlen. unfold bind at 1, call at 1. fold h6. by rewrite Hsharp.
Qed.

Lemma X19_witness :
  snd (full_page_stage (Sample.env_of Sample.calm) "docs/a.pdf" "a.pdf" 2 [] [])
  = Normal [full_page_result "a.pdf" 2 "data:image/jpeg;base64,A"].
Proof.
  rewrite (X19_a_successful_full_page_render (Sample.env_of Sample.calm)
             "docs/a.pdf" "a.pdf" 2 [] "00112233aabbccdd" [Byte.x41] [Byte.x41]);
    try reflexivity.
  discriminate.
Defined.

(** ** The two format switches *)

(** X20.  The output mode asked of [pdfImages] is "all files" exactly for
    the image format [native] and PNG exactly for [png] (both spelled in
    lowercase); every other value, [jpeg] included, gives JPEG.  The MIME
    type of an extracted image is [image/png] exactly for the extension
    [png], [image/tiff] exactly for [tif] and [tiff], [image/jp2]
    exactly for [jp2], and [image/jpeg] for everything else, an empty or
    unknown extension included. *)
Theorem X20_unknown_formats_fall_back_to_jpeg (imageFormat imageExtension : string) :
  (image_mode imageFormat = AllFiles ↔ imageFormat = "native")
  ∧ (image_mode imageFormat = PngFile ↔ imageFormat = "png")
  ∧ (image_mode imageFormat = JpegFile ↔ imageFormat ≠ "native" ∧ imageFormat ≠ "png")
  ∧ (mime_type imageExtension = "image/png" ↔ imageExtension = "png")
  ∧ (mime_type imageExtension = "image/tiff"
     ↔ imageExtension = "tif" ∨ imageExtension = "tiff")
  ∧ (mime_type imageExtension = "image/jp2" ↔ imageExtension = "jp2")
  ∧ (mime_type imageExtension = "image/jpeg"
     ↔ imageExtension ≠ "png" ∧ imageExtension ≠ "tif" ∧ imageExtension ≠ "tiff"
       ∧ imageExtension ≠ "jp2").
Proof.
  unfold image_mode, mime_type.
  destruct (String.eqb_spec imageFormat "native") as [->|Hnative];
    [|destruct (String.eqb_spec imageFormat "png") as [->|Hpng]];
    (destruct (String.eqb_spec imageExtension "png") as [->|H1];
     [|destruct (String.eqb_spec imageExtension "jpg") as [->|H2];
       [|destruct (String.eqb_spec imageExtension "jpeg") as [->|H3];
         [|destruct (String.eqb_spec imageExtension "tif") as [->|H4];
           [|destruct (String.eqb_spec imageExtension "tiff") as [->|H5];
             [|destruct (String.eqb_spec imageExtension "jp2") as [->|H6]]]]]]);
    simpl; split_and?; (split; intros Hx);
    solve [done | by left | by right | destruct Hx; done | destruct_and?; done
           | split_and?; done | destruct_and?; congruence].
Qed.

Lemma X20_witness :
  image_mode "PNG" = JpegFile ∧ mime_type "" = "image/jpeg".
Proof.
  destruct (X20_unknown_formats_fall_back_to_jpeg "PNG" "")
    as (_ & _ & Hmode & _ & _ & _ & Hmime).
  split.
  - apply Hmode. split; discriminate.
  - apply Hmime. repeat split; discriminate.
Defined.
